(** * PD request routing and TSO proxy dispatch: a shallow embedding

    The development follows the Go sources of the PD gRPC front-end
    (package [server]) and of the TSO proxy dispatcher (package [tsoutil]).
    Machine integers are mathematical integers with the wrap-around of the
    Go type written out; everything the code obtains from the network, a
    timer or another goroutine is an explicit input of the model. *)

From Stdlib Require Import ZArith Lia Bool.
From stdpp Require Import gmap strings list fin_maps.

Open Scope Z_scope.

(** ** Go errors *)

Inductive Code :=
| Canceled | Unknown | DeadlineExceeded | NotFound
| FailedPrecondition | ResourceExhausted | Unavailable.

(** [status_Errorf c fmt args] is [status.Errorf(c, fmt, args...)]: the
    format string and its integer arguments are kept apart. *)
Inductive error :=
| io_EOF
| status_Errorf (c : Code) (fmt : string) (args : list Z)
| errors_New (msg : string)
| errs_ErrGetMinTS (fmt : string) (args : list Z)
| WithStack (e : error).

Definition errors_WithStack (e : option error) : option error :=
  match e with
  | None => None
  | Some e => Some (WithStack e)
  end.

(** ** Fixed-width integers *)

Definition wrap_u32 (z : Z) : Z := z mod 2 ^ 32.
Definition wrap_i64 (z : Z) : Z := (z + 2 ^ 63) mod 2 ^ 64 - 2 ^ 63.

(** [x << s] on an [int64] with an unsigned shift count. *)
Definition shl_i64 (x s : Z) : Z := wrap_i64 (Z.shiftl x s).

Record Timestamp := mkTimestamp {
  Physical : Z;
  Logical : Z;
  SuffixBits : Z
}.

Module tsoutil.

Definition maxMergeRequests : Z := 10000.
Arguments maxMergeRequests : simpl never.

(** A downstream response of the proxy: the count of the sub-request and the
    timestamp that closes its sub-range. *)
Record TsoResponse := mkTsoResponse {
  resp_Count : Z;
  resp_Timestamp : Timestamp
}.

(** A queued sub-request. [getCount] is a [uint32]; [send_result] is what the
    downstream [stream.Send] of the sub-request answers when its response is
    delivered. *)
Record Request := mkRequest {
  getForwardedHost : string;
  getCount : Z;
  send_result : option error
}.

(** The upstream stream: what it answers to a request for [count]
    timestamps, a timestamp or an error. *)
Definition stream := Z -> Timestamp + error.

(** Modelled from the spec: [Request.process] belongs to the request types
    of package [tsoutil], whose source is not part of this development. Per
    the spec the merged request of total count N is submitted on the
    upstream stream and one response is received. *)
Definition process (forwardStream : stream) (count : Z) : Timestamp + error :=
  forwardStream count.

Definition addLogical (logical count suffixBits : Z) : Z :=
  wrap_i64 (logical + shl_i64 count suffixBits).

(** Modelled from the spec: [Request.postProcess] belongs to the request
    types of package [tsoutil], whose source is not part of this
    development. The spec has the batch walked in order, each request
    receiving the contiguous sub-range that follows the counts before it,
    shifted by the suffix bits, and delivered to its downstream client; as
    for the upstream response, the timestamp delivered is the largest of the
    sub-range (counts 3 and 5 out of a response with logical 80 receive
    73..75 and 76..80). The running count is an [int64]. *)
Definition postProcess (r : Request) (countSum physical firstLogical suffixBits : Z)
  : Z * option TsoResponse * option error :=
  let count := getCount r in
  let countSum := wrap_i64 (countSum + count) in
  let response :=
    {| resp_Count := count;
       resp_Timestamp :=
         {| Physical := physical;
            Logical := addLogical firstLogical countSum suffixBits;
            SuffixBits := suffixBits |} |} in
  match send_result r with
  | Some e => (countSum, None, Some e)
  | None => (countSum, Some response, None)
  end.

(** The loop of [finishRequest], started at a given [countSum]. The list is
    what reached the downstream clients. *)
Fixpoint finishRequest_from (requests : list Request)
    (countSum physical firstLogical suffixBits : Z)
  : list TsoResponse * option error :=
  match requests with
  | [] => ([], None)
  | r :: rest =>
    match postProcess r countSum physical firstLogical suffixBits with
    | (_, _, Some err) => ([], Some err)
    | (newCountSum, delivered, None) =>
      let '(resps, err) :=
        finishRequest_from rest newCountSum physical firstLogical suffixBits in
      (from_option (fun x => [x]) [] delivered ++ resps, err)
    end
  end.

Definition finishRequest (requests : list Request)
    (physical firstLogical suffixBits : Z) : list TsoResponse * option error :=
  finishRequest_from requests 0 physical firstLogical suffixBits.

(** [count += request.getCount()] over the batch, in [uint32]. *)
Definition mergeCount (requests : list Request) : Z :=
  fold_left (fun count request => wrap_u32 (count + getCount request)) requests 0.

Record Processed := mkProcessed {
  sent_count : Z;
  first_logical : option Z;
  delivered : list TsoResponse;
  returned : option error
}.

(** [processRequests]; [None] is the run-time panic of [requests[0]] on an
    empty batch. *)
Definition processRequests (forwardStream : stream) (requests : list Request)
  : option Processed :=
  let count := mergeCount requests in
  match requests with
  | [] => None
  | _ :: _ =>
    match process forwardStream count with
    | inr err =>
      Some {| sent_count := count; first_logical := None;
              delivered := []; returned := Some err |}
    | inl ts =>
      let physical := Physical ts in
      let logical := Logical ts in
      let suffixBits := SuffixBits ts in
      let firstLogical := addLogical logical (wrap_i64 (- count)) suffixBits in
      let '(resps, err) := finishRequest requests physical firstLogical suffixBits in
      Some {| sent_count := count; first_logical := Some firstLogical;
              delivered := resps; returned := err |}
    end
  end.

(** *** Channels and slices *)

(** A buffered channel: [buf] holds at most [cap] values, [sendq] the values
    of the senders parked on a full buffer, oldest first. *)
Record chan (A : Type) := mkChan {
  buf : list A;
  sendq : list A;
  cap : Z
}.
Arguments mkChan {A} _ _ _.
Arguments buf {A} _.
Arguments sendq {A} _.
Arguments cap {A} _.

Definition make_chan {A} (capacity : Z) : chan A := mkChan [] [] capacity.

(** [len(ch)]: the number of buffered values. *)
Definition chan_len {A} (ch : chan A) : Z := Z.of_nat (length (buf ch)).

(** [ch <- x]: buffered when there is room, parked otherwise. *)
Definition chan_send {A} (ch : chan A) (x : A) : chan A :=
  if bool_decide (chan_len ch < cap ch)
  then mkChan (buf ch ++ [x]) (sendq ch) (cap ch)
  else mkChan (buf ch) (sendq ch ++ [x]) (cap ch).

(** [<-ch] when a value is buffered: the head leaves, and the oldest parked
    sender, if any, puts its value at the tail. [None]: the receiver would
    block. *)
Definition chan_recv {A} (ch : chan A) : option (A * chan A) :=
  match buf ch with
  | [] => None
  | x :: rest =>
    match sendq ch with
    | [] => Some (x, mkChan rest [] (cap ch))
    | y :: parked => Some (x, mkChan (rest ++ [y]) parked (cap ch))
    end
  end.

(** [s[i] = x] with Go's bounds check; [None] is the index-out-of-range
    panic. *)
Definition slice_set {A} (s : list A) (i : nat) (x : A) : option (list A) :=
  if bool_decide (i < length s)%nat then Some (<[i := x]> s) else None.

(** [make([]Request, maxMergeRequests+1)]: nil entries. *)
Definition make_requests : list (option Request) :=
  replicate (Z.to_nat (maxMergeRequests + 1)) None.
Arguments make_requests : simpl never.

Inductive Collected :=
| Batch (pending : nat) (requests : list (option Request)) (ch : chan Request)
| IndexOutOfRange (i : nat)
| WouldBlock.

(** [for i := 1; i < pendingTSOReqCount; i++ { requests[i] = <-requestCh }],
    over the indices the loop visits. *)
Fixpoint drain (indices : list nat) (requests : list (option Request))
    (ch : chan Request) : option (list (option Request) * chan Request) + nat :=
  match indices with
  | [] => inl (Some (requests, ch))
  | i :: later =>
    match chan_recv ch with
    | None => inl None
    | Some (r, ch') =>
      match slice_set requests i (Some r) with
      | None => inr i
      | Some requests' => drain later requests' ch'
      end
    end
  end.

(** The first-request branch of the main loop of [dispatch], up to the
    batch: [arrivals] are the sends of other goroutines that land between
    the receive of [first] and the call of [len]. *)
Definition collect (ch : chan Request) (arrivals : list Request)
    (requests : list (option Request)) : Collected :=
  match chan_recv ch with
  | None => WouldBlock
  | Some (first, ch) =>
    let ch := fold_left chan_send arrivals ch in
    let pendingTSOReqCount := Z.to_nat (chan_len ch + 1) in
    match slice_set requests 0 (Some first) with
    | None => IndexOutOfRange 0
    | Some requests =>
      match drain (seq 1 (pendingTSOReqCount - 1)) requests ch with
      | inr i => IndexOutOfRange i
      | inl None => WouldBlock
      | inl (Some (requests, ch)) => Batch pendingTSOReqCount requests ch
      end
    end
  end.

(** [requests[:pendingTSOReqCount]], as the batch handed on. *)
Definition batch_of (pending : nat) (requests : list (option Request)) : list Request :=
  omap id (take pending requests).

(** *** The dispatcher and its queues *)

(** A context made by [context.WithCancelCause]: done once a cause is
    recorded, and the first cause stays. *)
Record Context := mkContext { Cause : option error }.

Definition context_Canceled : error := errors_New "context canceled".

Definition ctx_Done (c : Context) : bool := bool_decide (is_Some (Cause c)).

Definition cancelCause (c : Context) (e : error) : Context :=
  match Cause c with
  | Some _ => c
  | None => mkContext (Some e)
  end.

Definition WithCancelCause (parent : Context) : Context := mkContext (Cause parent).

Record tsoRequestProxyQueue := mkQueue {
  requestCh : chan Request;
  ctx : Context
}.

Definition queue_cancel (q : tsoRequestProxyQueue) (e : error) : tsoRequestProxyQueue :=
  mkQueue (requestCh q) (cancelCause (ctx q) e).

(** The dispatcher: [dispatchChs] maps a forwarded host to its queue; the
    queues are shared between the map, the dispatcher goroutine and the
    callers that wait on their context, so they live in [queues] and are
    named by address. *)
Record TSODispatcher := mkDispatcher {
  dispatchChs : gmap string nat;
  queues : gmap nat tsoRequestProxyQueue
}.

Definition update_queue (d : TSODispatcher) (addr : nat)
    (f : tsoRequestProxyQueue -> tsoRequestProxyQueue) : TSODispatcher :=
  mkDispatcher (dispatchChs d) (alter f addr (queues d)).

(** What a caller that holds the context of queue [addr] reads with
    [context.Cause]. *)
Definition observed_cause (d : TSODispatcher) (addr : nat) : option error :=
  q ← queues d !! addr; Cause (ctx q).

Record Dispatched := mkDispatched {
  after : TSODispatcher;
  queue_addr : nat;
  started : bool
}.

(** [DispatchRequest]: load or create the queue of the forwarded host, start
    its dispatcher when it is new, push the request, return the context of
    the queue (here: its address). *)
Definition DispatchRequest (d : TSODispatcher) (serverCtx : Context) (req : Request)
  : Dispatched :=
  let key := getForwardedHost req in
  match dispatchChs d !! key with
  | Some addr =>
    mkDispatched
      (update_queue d addr (fun q => mkQueue (chan_send (requestCh q) req) (ctx q)))
      addr false
  | None =>
    let addr := fresh (dom (queues d)) in
    let q := mkQueue (chan_send (make_chan (maxMergeRequests + 1)) req)
                     (WithCancelCause serverCtx) in
    mkDispatched
      (mkDispatcher (<[key := addr]> (dispatchChs d)) (<[addr := q]> (queues d)))
      addr true
  end.

(** What happens around the dispatcher goroutine, one entry per turn of its
    main loop or per outside action. *)
Inductive Event :=
| Produce (req : Request)
| ServerShutdown
| SelectRequest (arrivals : list Request) (deadlineSent : bool) (reply : stream)
| SelectIdle
| SelectDone.

Inductive Exit :=
| StillRunning
| CreateStreamFailed
| BatchFailed
| IdleTimeout
| ContextDone
| Panicked.

Definition idle_error : error := errors_New "TSOProxyStreamIdleTimeout".
Definition empty_stream_error : error :=
  errors_New "create tso forwarding stream error: empty stream".

(** The main loop of [dispatch] for the queue at [addr]. A select branch
    that is not ready is skipped: the goroutine stays in the select. *)
Fixpoint dispatch_loop (events : list Event) (addr : nat)
    (requests : list (option Request)) (d : TSODispatcher) : Exit * TSODispatcher :=
  match events with
  | [] => (StillRunning, d)
  | ev :: events =>
    match queues d !! addr with
    | None => (Panicked, d)
    | Some q =>
      match ev with
      | Produce req =>
        dispatch_loop events addr requests
          (update_queue d addr (fun q => mkQueue (chan_send (requestCh q) req) (ctx q)))
      | ServerShutdown =>
        dispatch_loop events addr requests
          (update_queue d addr (fun q => queue_cancel q context_Canceled))
      | SelectRequest arrivals deadlineSent reply =>
        match collect (requestCh q) arrivals requests with
        | WouldBlock => dispatch_loop events addr requests d
        | IndexOutOfRange _ => (Panicked, d)
        | Batch pending requests ch =>
          let d := update_queue d addr (fun q => mkQueue ch (ctx q)) in
          if ctx_Done (ctx q) && negb deadlineSent then (ContextDone, d)
          else
            match processRequests reply (batch_of pending requests) with
            | None => (Panicked, d)
            | Some p =>
              match returned p with
              | Some err =>
                (BatchFailed, update_queue d addr (fun q => queue_cancel q err))
              | None => dispatch_loop events addr requests d
              end
            end
        end
      | SelectIdle =>
        (IdleTimeout, update_queue d addr (fun q => queue_cancel q idle_error))
      | SelectDone =>
        if ctx_Done (ctx q) then (ContextDone, d)
        else dispatch_loop events addr requests d
      end
    end
  end.

(** [defer s.dispatchChs.Delete(forwardedHost)]. *)
Definition delete_host (forwardedHost : string) (d : TSODispatcher) : TSODispatcher :=
  mkDispatcher (delete forwardedHost (dispatchChs d)) (queues d).

(** [dispatch]: [created] is what [createForwardStream] answers, the stream
    (or nil) and the error (or nil). The deferred [Delete] runs when the
    goroutine leaves, on every path. *)
Definition dispatch (d : TSODispatcher) (addr : nat) (forwardedHost : string)
    (created : bool * option error) (events : list Event) : Exit * TSODispatcher :=
  let '(exit, d) :=
    match created with
    | (_, Some err) =>
      (CreateStreamFailed, update_queue d addr (fun q => queue_cancel q err))
    | (false, None) =>
      (CreateStreamFailed, update_queue d addr (fun q => queue_cancel q empty_stream_error))
    | (true, None) => dispatch_loop events addr make_requests d
    end in
  match exit with
  | StillRunning => (exit, d)
  | _ => (exit, delete_host forwardedHost d)
  end.

(** *** The deadline watcher *)

(** A [TSDeadline]: its timer, by the name it has in the timer pool, and the
    cancel function it carries, by name. Its [done] channel is what the
    watcher waits on. *)
Record TSDeadline := mkTSDeadline {
  timer : nat;
  cancel : nat
}.

(** How the wait for one deadline ends: its timer fires, its batch is done,
    or the context of the watcher is cancelled. *)
Inductive Waited :=
| TimerExpired
| BatchDone
| WatcherCancelled.

(** One turn of the outer select of [WatchTSDeadline]: a deadline is taken
    from the channel (and the inner select ends as given), or the context is
    done. *)
Inductive DeadlineEvent :=
| Deadline (d : TSDeadline) (w : Waited)
| WatcherDone.

(** What the watcher did: the cancel functions it called, the timers it put
    back into the pool, both in order, and whether it returned. *)
Record Watched := mkWatched {
  cancels : list nat;
  timers_put : list nat;
  watcher_returned : bool
}.

(** [WatchTSDeadline]. *)
Fixpoint WatchTSDeadline (events : list DeadlineEvent) : Watched :=
  match events with
  | [] => mkWatched [] [] false
  | WatcherDone :: _ => mkWatched [] [] true
  | Deadline d w :: events =>
    match w with
    | TimerExpired =>
      let r := WatchTSDeadline events in
      mkWatched (cancel d :: cancels r) (timer d :: timers_put r) (watcher_returned r)
    | BatchDone =>
      let r := WatchTSDeadline events in
      mkWatched (cancels r) (timer d :: timers_put r) (watcher_returned r)
    | WatcherCancelled => mkWatched [] [timer d] true
    end
  end.

End tsoutil.

Module server.

(** *** Stream guards *)

Definition second : Z := 1000000000.
Definition heartbeatSendTimeout : Z := 5 * second.
Definition DefaultTSOProxyTimeout : Z := 3 * second.

Definition ErrNotLeader : error := status_Errorf Unavailable "not leader" [].
Definition ErrNotStarted : error := status_Errorf Unavailable "server not started" [].
Definition ErrSendHeartbeatTimeout : error :=
  status_Errorf DeadlineExceeded "send heartbeat timeout" [].
Definition ErrNotFoundSchedulingAddr : error :=
  status_Errorf NotFound "not found scheduling address" [].
Definition ErrForwardTSOTimeout : error :=
  status_Errorf DeadlineExceeded "forward tso request timeout" [].
Definition ErrTSOProxyRecvFromClientTimeout : error :=
  status_Errorf DeadlineExceeded
    "tso proxy timeout when receiving from client; stream closed by server" [].
Definition ErrFollowerHandlingNotAllowed : error :=
  status_Errorf Unavailable "not leader and follower handling not allowed" [].

(** One call of the underlying gRPC stream: how long it takes to come back,
    and with what. *)
Record Call (A : Type) := mkCall {
  latency : Z;
  result : A
}.
Arguments mkCall {A} _ _.
Arguments latency {A} _.
Arguments result {A} _.

Inductive Raced (A : Type) :=
| CallDone (a : A)
| TimerFired.
Arguments CallDone {A} _.
Arguments TimerFired {A}.

(** The [select] over the helper goroutine's channel and [timer.C]. When
    both are ready at once Go picks either; [timerWinsTie] is that pick. *)
Definition race {A} (timeout : Z) (timerWinsTie : bool) (c : Call A) : Raced A :=
  if bool_decide (latency c < timeout) then CallDone (result c)
  else if bool_decide (latency c = timeout) && negb timerWinsTie then CallDone (result c)
  else TimerFired.

(** What one guard operation leaves behind: the [closed] flag, the value and
    error returned, whether the underlying stream was called, and the time
    the caller spent in the operation. *)
Record Op (A : Type) := mkOp {
  closed_after : Z;
  value : option A;
  err : option error;
  touched : bool;
  elapsed : Z
}.
Arguments mkOp {A} _ _ _ _ _.
Arguments closed_after {A} _.
Arguments value {A} _.
Arguments err {A} _.
Arguments touched {A} _.
Arguments elapsed {A} _.

(** [tsoServer.send]. *)
Definition tsoServer_send (closed : Z) (timerWinsTie : bool)
    (Send : Call (option error)) : Op unit :=
  if bool_decide (closed = 1) then mkOp closed None (Some io_EOF) false 0
  else
    match race DefaultTSOProxyTimeout timerWinsTie Send with
    | CallDone e =>
      mkOp (if e is Some _ then 1 else closed) None (errors_WithStack e) true (latency Send)
    | TimerFired =>
      mkOp 1 None (Some ErrForwardTSOTimeout) true DefaultTSOProxyTimeout
    end.

(** [tsoServer.recv]. *)
Definition tsoServer_recv {Req} (closed : Z) (timeout : Z) (timerWinsTie : bool)
    (Recv : Call (option Req * option error)) : Op Req :=
  if bool_decide (closed = 1) then mkOp closed None (Some io_EOF) false 0
  else
    match race timeout timerWinsTie Recv with
    | CallDone (request, Some e) =>
      mkOp 1 None (errors_WithStack (Some e)) true (latency Recv)
    | CallDone (request, None) =>
      mkOp closed request None true (latency Recv)
    | TimerFired =>
      mkOp 1 None (Some ErrTSOProxyRecvFromClientTimeout) true timeout
    end.

(** [heartbeatServer.Send]. *)
Definition heartbeatServer_Send (closed : Z) (timerWinsTie : bool)
    (Send : Call (option error)) : Op unit :=
  if bool_decide (closed = 1) then mkOp closed None (Some io_EOF) false 0
  else
    match race heartbeatSendTimeout timerWinsTie Send with
    | CallDone e =>
      mkOp (if e is Some _ then 1 else closed) None (errors_WithStack e) true (latency Send)
    | TimerFired =>
      mkOp 1 None (Some ErrSendHeartbeatTimeout) true heartbeatSendTimeout
    end.

(** [heartbeatServer.Recv]: the stream is called on the caller's goroutine. *)
Definition heartbeatServer_Recv {Req} (closed : Z)
    (Recv : Call (option Req * option error)) : Op Req :=
  if bool_decide (closed = 1) then mkOp closed None (Some io_EOF) false 0
  else
    match result Recv with
    | (_, Some e) => mkOp 1 None (errors_WithStack (Some e)) true (latency Recv)
    | (req, None) => mkOp closed req None true (latency Recv)
    end.

Definition stream_closed_error : error := status_Errorf Canceled "stream is closed" [].

(** [bucketHeartbeatServer.send]. *)
Definition bucketHeartbeatServer_send (closed : Z) (timerWinsTie : bool)
    (SendAndClose : Call (option error)) : Op unit :=
  if bool_decide (closed = 1) then mkOp closed None (Some stream_closed_error) false 0
  else
    match race heartbeatSendTimeout timerWinsTie SendAndClose with
    | CallDone e =>
      mkOp (if e is Some _ then 1 else closed) None e true (latency SendAndClose)
    | TimerFired =>
      mkOp 1 None (Some ErrSendHeartbeatTimeout) true heartbeatSendTimeout
    end.

(** [bucketHeartbeatServer.recv]. *)
Definition bucketHeartbeatServer_recv {Req} (closed : Z)
    (Recv : Call (option Req * option error)) : Op Req :=
  if bool_decide (closed = 1) then mkOp closed None (Some io_EOF) false 0
  else
    match result Recv with
    | (_, Some e) => mkOp 1 None (errors_WithStack (Some e)) true (latency Recv)
    | (req, None) => mkOp closed req None true (latency Recv)
    end.

(** The three guards behind one interface: an operation is a send or a
    recv together with what the underlying stream does when it is called. *)
Inductive Guard := tsoServer | heartbeatServer | bucketHeartbeatServer.

Inductive GuardCall :=
| DoSend (timerWinsTie : bool) (c : Call (option error))
| DoRecv (timeout : Z) (timerWinsTie : bool) (c : Call (option Z * option error)).

Record Reply := mkReply {
  reply_err : option error;
  reply_touched : bool;
  reply_elapsed : Z
}.

Definition reply_of {A} (o : Op A) : Reply :=
  mkReply (err o) (touched o) (elapsed o).

Definition guard_step (g : Guard) (closed : Z) (c : GuardCall) : Z * Reply :=
  match g, c with
  | tsoServer, DoSend tie c =>
    let o := tsoServer_send closed tie c in (closed_after o, reply_of o)
  | tsoServer, DoRecv timeout tie c =>
    let o := tsoServer_recv closed timeout tie c in (closed_after o, reply_of o)
  | heartbeatServer, DoSend tie c =>
    let o := heartbeatServer_Send closed tie c in (closed_after o, reply_of o)
  | heartbeatServer, DoRecv _ _ c =>
    let o := heartbeatServer_Recv closed c in (closed_after o, reply_of o)
  | bucketHeartbeatServer, DoSend tie c =>
    let o := bucketHeartbeatServer_send closed tie c in (closed_after o, reply_of o)
  | bucketHeartbeatServer, DoRecv _ _ c =>
    let o := bucketHeartbeatServer_recv closed c in (closed_after o, reply_of o)
  end.

(** A guard driven through a sequence of operations, from [closed]. *)
Fixpoint guard_run (g : Guard) (closed : Z) (calls : list GuardCall) : Z * list Reply :=
  match calls with
  | [] => (closed, [])
  | c :: calls =>
    let '(closed, r) := guard_step g closed c in
    let '(closed, rs) := guard_run g closed calls in
    (closed, r :: rs)
  end.

(** The error a closed guard answers: EOF, except the send of the bucket
    guard, which answers Canceled. *)
Definition closed_answer (g : Guard) (c : GuardCall) : error :=
  match g, c with
  | bucketHeartbeatServer, DoSend _ _ => stream_closed_error
  | _, _ => io_EOF
  end.

(** *** Admission *)

Record RequestHeader := mkHeader {
  ClusterId : Z;
  SenderId : Z
}.

(** The nil-safe getters of the generated protobuf code. *)
Definition GetClusterId (header : option RequestHeader) : Z :=
  from_option ClusterId 0 header.
Definition GetSenderId (header : option RequestHeader) : Z :=
  from_option SenderId 0 header.

(** Modelled from the spec: the gRPC metadata helpers [GetForwardedHost],
    [IsFollowerHandleEnabled] and [ResetForwardContext] belong to package
    [grpcutil], whose source is not part of this development. Per the spec
    a request context may carry a forwarded-host key and a follower-handle
    flag, and the forwarder strips the forwarded host from the outgoing
    context. *)
Record Ctx := mkCtx {
  forwarded_host : string;
  follower_handle : bool
}.

Definition GetForwardedHost (ctx : Ctx) : string := forwarded_host ctx.
Definition IsFollowerHandleEnabled (ctx : Ctx) : bool := follower_handle ctx.
Definition ResetForwardContext (ctx : Ctx) : Ctx := mkCtx "" (follower_handle ctx).

(** [context.TODO()]: no metadata. *)
Definition context_TODO : Ctx := mkCtx "" false.

(** How a handler finds the scheduling service: in this process, or on its
    own, in which case [updateSchedulingClient] fails, or hands back a
    record without a client, or one with a client. *)
Inductive Scheduling :=
| SchedulingInProcess
| SchedulingUpdateFailed
| SchedulingNoClient
| SchedulingClientReady.

(** What the admission code reads of the server: [ClusterID] is
    [keypath.ClusterID()], [ClientUrls] the client URLs of this member,
    [LeaderId] the member id of the leader, [etcdClient] whether [s.client]
    is set, [clusterStarted] whether [s.cluster] is set and has a context,
    [hasRaftCluster] whether [GetRaftCluster()] is not nil, [tsoIndependent]
    whether the TSO service runs on its own, [clientConns] the pool of
    delegate connections (by connection id). *)
Record Server := mkServer {
  IsClosed : bool;
  IsLeader : bool;
  ClusterID : Z;
  ClientUrls : list string;
  LeaderId : Z;
  etcdClient : bool;
  clusterStarted : bool;
  hasRaftCluster : bool;
  tsoIndependent : bool;
  scheduling : Scheduling;
  clientConns : gmap string nat
}.

Definition mismatch_cluster_id (need got : Z) : error :=
  status_Errorf FailedPrecondition "mismatch cluster id, need %d but got %d" [need; got].

(** [validateRoleInRequest]. [allowFollower] is the [*bool] argument: [None]
    for nil, otherwise the value it points to; the second component is that
    value on return. *)
Definition validateRoleInRequest (s : Server) (ctx : Ctx)
    (header : option RequestHeader) (allowFollower : option bool)
  : option error * option bool :=
  if IsClosed s then (Some ErrNotStarted, allowFollower)
  else
    let role : error + option bool :=
      if negb (IsLeader s) then
        match allowFollower with
        | None => inl ErrNotLeader
        | Some _ =>
          if negb (IsFollowerHandleEnabled ctx) then inl ErrFollowerHandlingNotAllowed
          else inr (Some true)
        end
      else inr allowFollower in
    match role with
    | inl e => (Some e, allowFollower)
    | inr allowFollower =>
      let clusterID := ClusterID s in
      if bool_decide (GetClusterId header <> clusterID)
      then (Some (mismatch_cluster_id clusterID (GetClusterId header)), allowFollower)
      else (None, allowFollower)
    end.

Definition validateRequest (s : Server) (header : option RequestHeader) : option error :=
  fst (validateRoleInRequest s context_TODO header None).

(** [validateInternalRequest]; the string argument of the format, the
    constant [errs.MismatchLeaderErr], is not kept. *)
Definition validateInternalRequest (s : Server) (header : option RequestHeader)
    (onlyAllowLeader : bool) : option error :=
  if IsClosed s then Some ErrNotStarted
  else if onlyAllowLeader && bool_decide (LeaderId s <> GetSenderId header)
  then Some (status_Errorf FailedPrecondition "%s, need %d but got %d"
               [LeaderId s; GetSenderId header])
  else None.

(** [isLocalRequest]. *)
Definition isLocalRequest (s : Server) (forwardedHost : string) : bool :=
  if bool_decide (forwardedHost = "") then true
  else existsb (fun addr => bool_decide (addr = forwardedHost)) (ClientUrls s).

(** [getDelegateClient]: the pooled connection, or a fresh dial that is
    published in the pool; [dial] is what building the TLS configuration and
    [grpcutil.GetClientConn] answer for a URL. *)
Definition getDelegateClient (s : Server) (dial : string -> nat + error)
    (forwardedHost : string) : Server * (nat + error) :=
  match clientConns s !! forwardedHost with
  | Some client => (s, inl client)
  | None =>
    match dial forwardedHost with
    | inr e => (s, inr e)
    | inl newConn =>
      (mkServer (IsClosed s) (IsLeader s) (ClusterID s) (ClientUrls s) (LeaderId s)
                (etcdClient s) (clusterStarted s) (hasRaftCluster s)
                (tsoIndependent s) (scheduling s)
                (<[forwardedHost := newConn]> (clientConns s)),
       inl newConn)
    end
  end.

Record Middleware (Rsp : Type) := mkMiddleware {
  server_after : Server;
  rsp : option Rsp;
  middleware_err : option error;
  allowFollower_after : option bool
}.
Arguments mkMiddleware {Rsp} _ _ _ _.
Arguments server_after {Rsp} _.
Arguments rsp {Rsp} _.
Arguments middleware_err {Rsp} _.
Arguments allowFollower_after {Rsp} _.

Definition forwardFn (Rsp : Type) := Ctx -> nat -> option Rsp * option error.

(** [unaryFollowerMiddleware]. *)
Definition unaryFollowerMiddleware {Rsp} (s : Server) (dial : string -> nat + error)
    (ctx : Ctx) (header : option RequestHeader) (fn : forwardFn Rsp)
    (allowFollower : option bool) : Middleware Rsp :=
  let forwardedHost := GetForwardedHost ctx in
  if negb (isLocalRequest s forwardedHost) then
    match getDelegateClient s dial forwardedHost with
    | (s, inr e) => mkMiddleware s None (Some e) allowFollower
    | (s, inl client) =>
      let ctx := ResetForwardContext ctx in
      let '(rsp, e) := fn ctx client in
      mkMiddleware s rsp e allowFollower
    end
  else
    let '(e, allowFollower) := validateRoleInRequest s ctx header allowFollower in
    mkMiddleware s None e allowFollower.

(** [unaryMiddleware]. *)
Definition unaryMiddleware {Rsp} (s : Server) (dial : string -> nat + error)
    (ctx : Ctx) (header : option RequestHeader) (fn : forwardFn Rsp) : Middleware Rsp :=
  unaryFollowerMiddleware s dial ctx header fn None.

(** The RPCs of the service, and the entry check each handler passes a
    locally handled request through before serving it. *)
Inductive RPC :=
| GetClusterInfo | GetMinTS | GetMembers | Tso | Bootstrap | IsBootstrapped
| AllocID | IsSnapshotRecovering | GetStore | PutStore | GetAllStores
| StoreHeartbeat | ReportBuckets | RegionHeartbeat | GetRegion | GetPrevRegion
| GetRegionByID | ScanRegions | BatchScanRegions | AskSplit | AskBatchSplit
| ReportSplit | ReportBatchSplit | GetClusterConfig | PutClusterConfig
| ScatterRegion | GetGCSafePoint | SyncRegions | UpdateGCSafePoint
| UpdateServiceGCSafePoint | GetOperator | SyncMaxTS | SplitRegions
| SplitAndScatterRegions | GetDCLocationInfo | StoreGlobalConfig
| LoadGlobalConfig | WatchGlobalConfig | ReportMinResolvedTS
| SetExternalTimestamp | GetExternalTimestamp.

Inductive Entry :=
| ViaUnaryMiddleware
| SchedulingFirst
| ViaFollowerMiddleware
| ViaValidateRequest
| TsoLoop
| ClosedInHeader
| ClosedOnly
| InternalPeer (onlyAllowLeader : bool) (leaderOnly : bool)
| EtcdClientOnly
| SyncerOnly.

Definition entry_of (r : RPC) : Entry :=
  match r with
  | GetClusterInfo | GetMembers => ClosedInHeader
  | IsSnapshotRecovering => ClosedOnly
  | Tso => TsoLoop
  | ReportBuckets | RegionHeartbeat => ViaValidateRequest
  | GetRegion | GetPrevRegion | GetRegionByID | ScanRegions | BatchScanRegions =>
    ViaFollowerMiddleware
  | SyncMaxTS => InternalPeer true false
  | GetDCLocationInfo => InternalPeer false true
  | StoreGlobalConfig | LoadGlobalConfig | WatchGlobalConfig => EtcdClientOnly
  | SyncRegions => SyncerOnly
  | AskBatchSplit | ScatterRegion | GetOperator | SplitRegions => SchedulingFirst
  | GetMinTS | Bootstrap | IsBootstrapped | AllocID | GetStore | PutStore
  | GetAllStores | StoreHeartbeat | AskSplit | ReportSplit | ReportBatchSplit
  | GetClusterConfig | PutClusterConfig | GetGCSafePoint | UpdateGCSafePoint
  | UpdateServiceGCSafePoint | SplitAndScatterRegions | ReportMinResolvedTS
  | SetExternalTimestamp | GetExternalTimestamp => ViaUnaryMiddleware
  end.

Definition ErrEtcdNotStarted : error :=
  status_Errorf Unavailable "server is started, but etcd not started" [].

(** The verdict on a locally handled request: served, refused with a gRPC
    error, answered with an error in the response header, or handed to a
    service that runs on its own (the TSO stream to the TSO service, four
    handlers to the scheduling service). *)
Inductive Verdict :=
| Serve (followerHandle : bool)
| Refuse (e : error)
| HeaderError
| HandedToTSOService
| HandedToSchedulingService.

Definition verdict_of (r : option error * option bool) : Verdict :=
  match r with
  | (Some e, _) => Refuse e
  | (None, allow) => Serve (default false allow)
  end.

(** The entry check of each handler on a request that is handled locally,
    once the rate limiter has let the call through. *)
Definition local_verdict (s : Server) (r : RPC) (ctx : Ctx)
    (header : option RequestHeader) : Verdict :=
  match entry_of r with
  | ViaUnaryMiddleware => verdict_of (validateRoleInRequest s ctx header None)
  | SchedulingFirst =>
    if negb (hasRaftCluster s) then HeaderError
    else
      match scheduling s with
      | SchedulingUpdateFailed => HeaderError
      | SchedulingClientReady => HandedToSchedulingService
      | SchedulingInProcess | SchedulingNoClient =>
        verdict_of (validateRoleInRequest s ctx header None)
      end
  | ViaFollowerMiddleware => verdict_of (validateRoleInRequest s ctx header (Some false))
  | ViaValidateRequest =>
    if negb (hasRaftCluster s) then HeaderError
    else verdict_of (validateRequest s header, None)
  | TsoLoop =>
    if tsoIndependent s then HandedToTSOService
    else if IsClosed s then Refuse ErrNotStarted
    else if bool_decide (GetClusterId header <> ClusterID s)
    then Refuse (mismatch_cluster_id (ClusterID s) (GetClusterId header))
    else Serve false
  | ClosedInHeader =>
    if IsClosed s then HeaderError else Serve false
  | ClosedOnly =>
    if IsClosed s then Refuse ErrNotStarted else Serve false
  | InternalPeer onlyAllowLeader leaderOnly =>
    match validateInternalRequest s header onlyAllowLeader with
    | Some e => Refuse e
    | None => if leaderOnly && negb (IsLeader s) then Refuse ErrNotLeader else Serve false
    end
  | EtcdClientOnly =>
    if etcdClient s then Serve false else Refuse ErrEtcdNotStarted
  | SyncerOnly =>
    if IsClosed s || negb (clusterStarted s) then Refuse ErrNotStarted else Serve false
  end.

(** *** Min-TS aggregation *)

Record GetMinTSResponse := mkMinTS {
  Timestamp_ : option Timestamp;
  KeyspaceGroupsServing : Z;
  KeyspaceGroupsTotal : Z
}.

Definition GetPhysical (ts : option Timestamp) : Z := from_option Physical 0 ts.
Definition GetLogical (ts : option Timestamp) : Z := from_option Logical 0 ts.

(** Modelled from the spec: [CompareTimestamp] belongs to a file of package
    [tsoutil] whose source is not part of this development. The spec asks
    for the smallest positive timestamp: timestamps are ordered by their
    physical part, then by their logical part, a nil timestamp reading as
    zero; the answer is 1, 0 or -1. *)
Definition CompareTimestamp (tsoOne tsoTwo : option Timestamp) : Z :=
  if (GetPhysical tsoTwo <? GetPhysical tsoOne)
     || ((GetPhysical tsoOne =? GetPhysical tsoTwo)
         && (GetLogical tsoTwo <? GetLogical tsoOne))
  then 1
  else if (GetPhysical tsoOne =? GetPhysical tsoTwo)
          && (GetLogical tsoOne =? GetLogical tsoTwo)
  then 0
  else -1.

Definition emptyTS : Timestamp := mkTimestamp 0 0 0.

(** The loop over the responses: the running minimum and the running
    [uint32] count of keyspace groups asked, or the error that ends it. *)
Fixpoint check_responses (resps : list GetMinTSResponse) (keyspaceGroupsTotal : Z)
    (minTS : option Timestamp) (keyspaceGroupsAsked : Z)
  : error + (option Timestamp * Z) :=
  match resps with
  | [] => inr (minTS, keyspaceGroupsAsked)
  | resp :: resps =>
    if bool_decide (KeyspaceGroupsTotal resp = 0)
    then inl (errs_ErrGetMinTS "the tso service has no keyspace group" [])
    else if bool_decide (KeyspaceGroupsTotal resp <> keyspaceGroupsTotal)
    then inl (errs_ErrGetMinTS
                "the tso service has inconsistent keyspace group total count" [])
    else
      let keyspaceGroupsAsked :=
        wrap_u32 (keyspaceGroupsAsked + KeyspaceGroupsServing resp) in
      let minTS :=
        if bool_decide (0 < CompareTimestamp (Timestamp_ resp) (Some emptyTS))
           && match minTS with
              | None => true
              | Some _ => bool_decide (CompareTimestamp (Timestamp_ resp) minTS < 0)
              end
        then Timestamp_ resp
        else minTS in
      check_responses resps keyspaceGroupsTotal minTS keyspaceGroupsAsked
  end.

(** [GetMinTSFromTSOService]. [answers] lists, for every discovered TSO
    address, what [getMinTSFromSingleServer] got from it ([None]: an error
    or no response), in the order in which the goroutines finish. *)
Definition GetMinTSFromTSOService (closed : bool)
    (answers : list (string * option GetMinTSResponse))
  : option Timestamp * option error :=
  if closed then (None, Some ErrNotStarted)
  else
    let addrs := fst <$> answers in
    if bool_decide (length addrs = 0%nat)
    then (Some emptyTS, Some (errs_ErrGetMinTS "no tso servers/pods discovered" []))
    else
      let resps := omap snd answers in
      match resps with
      | [] => (Some emptyTS, Some (errs_ErrGetMinTS "none of tso server/pod responded" []))
      | first :: _ =>
        let keyspaceGroupsTotal := KeyspaceGroupsTotal first in
        match check_responses resps keyspaceGroupsTotal None 0 with
        | inl e => (Some emptyTS, Some e)
        | inr (minTS, keyspaceGroupsAsked) =>
          if bool_decide (keyspaceGroupsAsked <> keyspaceGroupsTotal)
          then (Some emptyTS,
                Some (errs_ErrGetMinTS
                        "can't query all the tso keyspace groups. Asked %d, expected %d"
                        [keyspaceGroupsAsked; keyspaceGroupsTotal]))
          else
            match minTS with
            | None => (Some emptyTS, Some (errs_ErrGetMinTS "the tso service is not ready" []))
            | Some ts => (Some ts, None)
            end
        end
      end.

(** *** The scheduling client and the store heartbeat *)

(** A [*schedulingClient]: records are never written after they are built,
    so a pointer is the record together with its address; [client] is the
    gRPC client (nil: [None]). *)
Record schedulingClient := mkSchedulingClient {
  address : nat;
  client : option nat;
  primary : string
}.

Definition getClient (s : option schedulingClient) : option nat :=
  match s with
  | None => None
  | Some s => client s
  end.

Definition getPrimaryAddr (s : option schedulingClient) : string :=
  match s with
  | None => ""
  | Some s => primary s
  end.

(** The [atomic.Value] of the server and the next free address. *)
Record SchedulingCache := mkCache {
  stored : option schedulingClient;
  next_address : nat
}.

Definition same_pointer (a b : option schedulingClient) : bool :=
  match a, b with
  | None, None => true
  | Some a, Some b => bool_decide (address a = address b)
  | _, _ => false
  end.

(** [atomic.Value.CompareAndSwap]. *)
Definition CompareAndSwap (c : SchedulingCache) (old : option schedulingClient)
    (new : schedulingClient) : SchedulingCache * bool :=
  if same_pointer (stored c) old then (mkCache (Some new) (next_address c), true)
  else (c, false).

(** Another goroutine storing a record in between. *)
Definition interfere (c : SchedulingCache) (other : option schedulingClient)
  : SchedulingCache :=
  match other with
  | None => c
  | Some o => mkCache (Some o) (next_address c)
  end.

(** [updateSchedulingClient]: [primaryAddr] is what [GetServicePrimaryAddr]
    answers, [dialed] what [getDelegateClient] answers for it, [other] a
    store of another goroutine between the load and the swap. *)
Definition updateSchedulingClient (c : SchedulingCache) (primaryAddr : string)
    (dialed : nat + error) (other : option schedulingClient)
  : SchedulingCache * option schedulingClient * option error :=
  let forwardedHost := primaryAddr in
  if bool_decide (forwardedHost = "") then (c, None, Some ErrNotFoundSchedulingAddr)
  else
    let pre := stored c in
    if bool_decide (is_Some pre) && bool_decide (forwardedHost = getPrimaryAddr pre)
    then (c, pre, None)
    else
      match dialed with
      | inr e => (c, None, Some e)
      | inl conn =>
        let forwardCli := mkSchedulingClient (next_address c) (Some conn) forwardedHost in
        let c := mkCache (stored c) (S (next_address c)) in
        let c := interfere c other in
        (fst (CompareAndSwap c pre forwardCli), Some forwardCli, None)
      end.

Inductive ErrorType := ErrorType_UNKNOWN | ErrorType_NOT_BOOTSTRAPPED | ErrorType_OTHER.

Record ResponseHeader := mkResponseHeader {
  header_ClusterId : Z;
  header_Error : option ErrorType
}.

Definition wrapErrorToHeader (s : Server) (errorType : ErrorType) : ResponseHeader :=
  mkResponseHeader (ClusterID s) (Some errorType).

Definition wrapHeader (s : Server) : ResponseHeader :=
  if bool_decide (ClusterID s = 0) then wrapErrorToHeader s ErrorType_NOT_BOOTSTRAPPED
  else mkResponseHeader (ClusterID s) None.

(** A store-heartbeat response: its header, whether the statistics were
    handled, and whether the replication status and cluster version of the
    regular tail of the handler were filled in. *)
Record StoreHeartbeatResponse := mkHeartbeatResponse {
  Header : ResponseHeader;
  stats_handled : bool;
  completed : bool
}.

(** What [StoreHeartbeat] meets on its way. *)
Record HeartbeatEnv := mkHeartbeatEnv {
  rateLimitDenied : bool;
  dial : string -> nat + error;
  forwarded : forwardFn StoreHeartbeatResponse;
  hasStats : bool;
  raftCluster : bool;
  checkStoreError : bool;
  storeFound : bool;
  hasStoreReport : bool;
  handleHeartbeatFails : bool;
  schedulingIndependent : bool;
  schedulingPrimary : string;
  schedulingDialed : nat + error;
  otherStoreInUpdate : option schedulingClient;
  otherStoreBeforeReset : option schedulingClient;
  teeResult : option error
}.

Record Heartbeat := mkHeartbeat {
  reply : option StoreHeartbeatResponse;
  reply_error : option error;
  cache_after : SchedulingCache;
  tee_calls : nat
}.

Definition sentinel (c : SchedulingCache) : schedulingClient :=
  mkSchedulingClient (next_address c) None "".

(** The tee of a store heartbeat to the scheduling service. *)
Definition tee_heartbeat (c : SchedulingCache) (env : HeartbeatEnv)
  : SchedulingCache * nat :=
  let '(c, forwardCli, _) :=
    updateSchedulingClient c (schedulingPrimary env) (schedulingDialed env)
                           (otherStoreInUpdate env) in
  let cli := getClient forwardCli in
  match cli with
  | None => (c, 0%nat)
  | Some _ =>
    match teeResult env with
    | None => (c, 1%nat)
    | Some _ =>
      let c := interfere c (otherStoreBeforeReset env) in
      let fresh := sentinel c in
      let c := mkCache (stored c) (S (next_address c)) in
      (fst (CompareAndSwap c forwardCli fresh), 1%nat)
    end
  end.

(** [StoreHeartbeat]. *)
Definition StoreHeartbeatHandler (s : Server) (c : SchedulingCache) (ctx : Ctx)
    (header : option RequestHeader) (env : HeartbeatEnv) : Heartbeat :=
  if rateLimitDenied env
  then mkHeartbeat (Some (mkHeartbeatResponse (wrapErrorToHeader s ErrorType_UNKNOWN) false false))
                   None c 0
  else
    let m := unaryMiddleware s (dial env) ctx header (forwarded env) in
    match middleware_err m, rsp m with
    | Some e, _ => mkHeartbeat None (Some e) c 0
    | None, Some r => mkHeartbeat (Some r) None c 0
    | None, None =>
      if negb (hasStats env)
      then mkHeartbeat None (Some (errors_New "invalid store heartbeat command")) c 0
      else if negb (raftCluster env)
      then mkHeartbeat
             (Some (mkHeartbeatResponse (wrapErrorToHeader s ErrorType_NOT_BOOTSTRAPPED) false false))
             None c 0
      else if checkStoreError env
      then mkHeartbeat (Some (mkHeartbeatResponse (wrapErrorToHeader s ErrorType_OTHER) false false))
                       None c 0
      else if negb (storeFound env)
      then mkHeartbeat (Some (mkHeartbeatResponse (wrapErrorToHeader s ErrorType_UNKNOWN) false false))
                       None c 0
      else
        let resp := mkHeartbeatResponse (wrapHeader s) false false in
        if negb (hasStoreReport env) then
          if handleHeartbeatFails env
          then mkHeartbeat
                 (Some (mkHeartbeatResponse (wrapErrorToHeader s ErrorType_UNKNOWN) false false))
                 None c 0
          else
            let resp := mkHeartbeatResponse (Header resp) true false in
            let '(c, calls) :=
              if schedulingIndependent env then tee_heartbeat c env else (c, 0%nat) in
            mkHeartbeat (Some (mkHeartbeatResponse (Header resp) (stats_handled resp) true))
                        None c calls
        else
          mkHeartbeat (Some (mkHeartbeatResponse (Header resp) (stats_handled resp) true))
                      None c 0
    end.

(** *** The GetMinTS handler *)




(** *** Scatter progress *)

(** [scatterRegions], from what [ScatterRegionsByID] answers: the number of
    operators created, the number of failures (the length of the map of
    failures) and the error. The arithmetic is that of [int]; [None] is the
    run-time panic of an integer division by zero. *)
Definition scatterRegions (opsCount failures : Z) (err : option error)
  : option (Z * option error) :=
  match err with
  | Some e => Some (0, Some e)
  | None =>
    if bool_decide (0 < failures) then
      let total := wrap_i64 (opsCount + failures) in
      if bool_decide (total = 0) then None
      else
        Some (wrap_i64 (100 - wrap_i64 (Z.quot (wrap_i64 (100 * failures)) total)), None)
    else Some (100, None)
  end.

(** *** The pool of delegate connections, shared *)

(** What a call of [getDelegateClient] leaves behind: the pool, the
    connection or error returned, whether it dialled, and the connections it
    closed. *)
Record Delegated := mkDelegated {
  pool_after : gmap string nat;
  delegate : nat + error;
  dialled : bool;
  closed_conns : list nat
}.

(** [getDelegateClient] next to other goroutines: [other] is the connection
    another goroutine publishes for the same host between the [Load] and
    the [LoadOrStore] of this call. *)
Definition getDelegateClient_LoadOrStore (clientConns : gmap string nat)
    (dial : string -> nat + error) (other : option nat) (forwardedHost : string)
  : Delegated :=
  match clientConns !! forwardedHost with
  | Some client => mkDelegated clientConns (inl client) false []
  | None =>
    match dial forwardedHost with
    | inr e => mkDelegated clientConns (inr e) true []
    | inl newConn =>
      let clientConns :=
        match other with
        | Some conn => <[forwardedHost := conn]> clientConns
        | None => clientConns
        end in
      match clientConns !! forwardedHost with
      | None => mkDelegated (<[forwardedHost := newConn]> clientConns) (inl newConn) true []
      | Some conn => mkDelegated clientConns (inl conn) true [newConn]
      end
    end
  end.

(** *** Relays of forwarded streams *)

(** One turn of a relay goroutine: whether another goroutine has closed the
    guard in the meantime, what [forwardStream.Recv] answers, and how the
    send on the underlying stream goes when the guard calls it. *)
Record RelayTurn (Resp : Type) := mkRelayTurn {
  closed_meanwhile : bool;
  relay_recv : Resp + error;
  relay_tie : bool;
  relay_send : Call (option error)
}.
Arguments mkRelayTurn {Resp} _ _ _ _.
Arguments closed_meanwhile {Resp} _.
Arguments relay_recv {Resp} _.
Arguments relay_tie {Resp} _.
Arguments relay_send {Resp} _.

(** What a relay did: the flag of the guard, the responses whose [Send]
    returned nil, what it put on [errCh], and whether it returned (and
    closed [errCh]). *)
Record Relayed (Resp : Type) := mkRelayed {
  relay_closed : Z;
  relayed : list Resp;
  errCh : option error;
  relay_returned : bool
}.
Arguments mkRelayed {Resp} _ _ _ _.
Arguments relay_closed {Resp} _.
Arguments relayed {Resp} _.
Arguments errCh {Resp} _.
Arguments relay_returned {Resp} _.

(** The loop shared by the relays: receive from the forward stream, send
    through the guard, stop at the first error of either. *)
Fixpoint forwardClientToServer {Resp} (g : Guard) (closed : Z)
    (turns : list (RelayTurn Resp)) : Relayed Resp :=
  match turns with
  | [] => mkRelayed closed [] None false
  | t :: turns =>
    let closed := if closed_meanwhile t then 1 else closed in
    match relay_recv t with
    | inr e => mkRelayed closed [] (errors_WithStack (Some e)) true
    | inl resp =>
      let '(closed, r) := guard_step g closed (DoSend (relay_tie t) (relay_send t)) in
      match reply_err r with
      | Some e => mkRelayed closed [] (errors_WithStack (Some e)) true
      | None =>
        let rest := forwardClientToServer g closed turns in
        mkRelayed (relay_closed rest) (resp :: relayed rest) (errCh rest)
                  (relay_returned rest)
      end
    end
  end.

(** [forwardRegionHeartbeatClientToServer]. *)
Definition forwardRegionHeartbeatClientToServer {Resp} :=
  @forwardClientToServer Resp heartbeatServer.

(** [forwardReportBucketClientToServer]. *)
Definition forwardReportBucketClientToServer {Resp} :=
  @forwardClientToServer Resp bucketHeartbeatServer.

(** *** The TSO proxy of a server without an allocator *)

Definition ErrNotFoundTSOAddr : error :=
  status_Errorf NotFound "not found tso address" [].
Definition ErrMaxCountTSOProxyRoutinesExceeded : error :=
  status_Errorf ResourceExhausted
    "max count of concurrent tso proxy routines exceeded" [].

Definition wrap_i32 (z : Z) : Z := (z + 2 ^ 31) mod 2 ^ 32 - 2 ^ 31.

(** A [pdpb.TsoRequest], with the nil-safe getters of the generated code. *)
Record TsoRequest := mkTsoRequest {
  tso_Header : option RequestHeader;
  tso_Count : Z
}.

Definition TsoRequest_GetHeader (r : option TsoRequest) : option RequestHeader :=
  r ≫= tso_Header.
Definition TsoRequest_GetCount (r : option TsoRequest) : Z :=
  from_option tso_Count 0 r.

(** The error of a [tsopb] response header: whether its type is
    [ErrorType_OK], and its message. *)
Record tsopb_Error := mkTsopbError {
  tsopb_is_OK : bool;
  tsopb_Message : string
}.

Record tsopb_TsoResponse := mkTsopbResponse {
  tsopb_ClusterId : Z;
  tsopb_Error_ : option tsopb_Error;
  tsopb_Count : Z;
  tsopb_Timestamp : option Timestamp
}.

Inductive pdpb_ErrorType := pdpb_OK | pdpb_UNKNOWN.

Record pdpb_Error := mkPdpbError {
  pdpb_Type : pdpb_ErrorType;
  pdpb_Message : string
}.

Record pdpb_TsoResponse := mkPdpbTsoResponse {
  pdpb_ClusterId : Z;
  pdpb_Error_ : option pdpb_Error;
  pdpb_Count : Z;
  pdpb_Timestamp : option Timestamp
}.

(** The conversion at the end of a turn of [forwardTSO]. *)
Definition convert_tso_response (tsopbResp : tsopb_TsoResponse) : pdpb_TsoResponse :=
  let pdpbErr :=
    match tsopb_Error_ tsopbResp with
    | None => None
    | Some tsopbErr =>
      if tsopb_is_OK tsopbErr
      then Some (mkPdpbError pdpb_OK (tsopb_Message tsopbErr))
      else Some (mkPdpbError pdpb_UNKNOWN (tsopb_Message tsopbErr))
    end in
  mkPdpbTsoResponse (tsopb_ClusterId tsopbResp) pdpbErr (tsopb_Count tsopbResp)
                    (tsopb_Timestamp tsopbResp).

(** The first select of a turn of [forwardTSO]. *)
Inductive CtxCheck :=
| NoneDone
| ServerCtxDone (e : error)
| StreamCtxDone (e : error).

(** What a turn of the loop of [forwardTSO] meets: the contexts, the
    receive from the client (timeout, pick on a tie, call of the stream),
    the primary of the TSO service ([GetServicePrimaryAddr]: address and
    flag), the dial, the creation of the forward stream (the name of its
    context, and the stream or the error), the forward context at the three
    places where it is looked at (the error it is done with, if it is),
    the send and the receive on the forward stream, whether the error of
    the forwarding contains the not-leader text, and the send to the
    client. *)
Record ProxyTurn := mkProxyTurn {
  ctx_check : CtxCheck;
  recv_timeout : Z;
  recv_tie : bool;
  recv_call : Call (option TsoRequest * option error);
  tso_primary : string * bool;
  proxy_dial : string -> nat + error;
  forward_ctx : nat;
  created_stream : nat + error;
  done_at_deadline : option error;
  done_before_send : option error;
  forward_send : option error;
  done_before_recv : option error;
  forward_recv : tsopb_TsoResponse + error;
  contains_not_leader : bool;
  send_tie : bool;
  send_call : Call (option error)
}.

(** The state of a [forwardTSO]: the counter of the server, its pool of
    connections, the flag of the guard, the forward stream with its host
    and the name of its context, and what it has done so far: the forward
    contexts created and cancelled, the deadlines handed to the watcher,
    the forced loads of the primary, the responses the client took. *)
Record Proxy := mkProxy {
  concurrentTSOProxyStreamings : Z;
  proxy_server : Server;
  proxy_closed : Z;
  forwardStream : option nat;
  lastForwardedHost : string;
  cancelForward : option nat;
  created_ctxs : list nat;
  cancelled_ctxs : list nat;
  deadlines : nat;
  ForceLoads : nat;
  proxied : list pdpb_TsoResponse
}.

Inductive Returned :=
| Running
| Return (e : option error).

(** [forwardTSORequest]. *)
Definition forwardTSORequest (t : ProxyTurn) : tsopb_TsoResponse + error :=
  match done_before_send t with
  | Some e => inr e
  | None =>
    match forward_send t with
    | Some e => inr e
    | None =>
      match done_before_recv t with
      | Some e => inr e
      | None => forward_recv t
      end
    end
  end.

(** [forwardTSORequestWithDeadLine]: the response or the error, whether a
    deadline went to the watcher, and whether the primary was force-loaded. *)
Definition forwardTSORequestWithDeadLine (t : ProxyTurn)
  : (tsopb_TsoResponse + error) * bool * bool :=
  match done_at_deadline t with
  | Some e => (inr e, false, false)
  | None =>
    match forwardTSORequest t with
    | inr e => (inr e, true, contains_not_leader t)
    | inl resp => (inl resp, true, false)
    end
  end.

(** The deferred function of [forwardTSO]. *)
Definition forwardTSO_deferred (p : Proxy) : Proxy :=
  mkProxy (wrap_i32 (concurrentTSOProxyStreamings p - 1)) (proxy_server p)
          (proxy_closed p) (forwardStream p) (lastForwardedHost p) (cancelForward p)
          (created_ctxs p)
          (cancelled_ctxs p ++ from_option (fun c => [c]) [] (cancelForward p))
          (deadlines p) (ForceLoads p) (proxied p).

Definition tso_count_should_be_positive : error :=
  status_Errorf Unknown "tso count should be positive" [].

(** The loop of [forwardTSO]. *)
Fixpoint forwardTSO_loop (turns : list ProxyTurn) (p : Proxy) : Returned * Proxy :=
  match turns with
  | [] => (Running, p)
  | t :: turns =>
    match ctx_check t with
    | ServerCtxDone e => (Return (errors_WithStack (Some e)), p)
    | StreamCtxDone e => (Return (Some e), p)
    | NoneDone =>
      let o := tsoServer_recv (proxy_closed p) (recv_timeout t) (recv_tie t) (recv_call t) in
      let p := mkProxy (concurrentTSOProxyStreamings p) (proxy_server p) (closed_after o)
                       (forwardStream p) (lastForwardedHost p) (cancelForward p)
                       (created_ctxs p) (cancelled_ctxs p) (deadlines p) (ForceLoads p)
                       (proxied p) in
      match err o with
      | Some io_EOF => (Return None, p)
      | Some e => (Return (errors_WithStack (Some e)), p)
      | None =>
        let request := value o in
        if bool_decide (TsoRequest_GetCount request = 0)
        then (Return (Some tso_count_should_be_positive), p)
        else
          let '(forwardedHost, ok) := tso_primary t in
          if negb ok || bool_decide (String.length forwardedHost = 0%nat)
          then (Return (errors_WithStack (Some ErrNotFoundTSOAddr)), p)
          else
            let renewed : Proxy + (error * Proxy) :=
              if bool_decide (forwardStream p = None)
                 || negb (bool_decide (lastForwardedHost p = forwardedHost))
              then
                let cancelled :=
                  cancelled_ctxs p ++ from_option (fun c => [c]) [] (cancelForward p) in
                match getDelegateClient (proxy_server p) (proxy_dial t) forwardedHost with
                | (s, inr e) =>
                  inr (e, mkProxy (concurrentTSOProxyStreamings p) s (proxy_closed p)
                                  (forwardStream p) (lastForwardedHost p) (cancelForward p)
                                  (created_ctxs p) cancelled (deadlines p) (ForceLoads p)
                                  (proxied p))
                | (s, inl clientConn) =>
                  match created_stream t with
                  | inr e =>
                    inr (e, mkProxy (concurrentTSOProxyStreamings p) s (proxy_closed p)
                                    None (lastForwardedHost p) (Some (forward_ctx t))
                                    (created_ctxs p ++ [forward_ctx t]) cancelled
                                    (deadlines p) (ForceLoads p) (proxied p))
                  | inl stream =>
                    inl (mkProxy (concurrentTSOProxyStreamings p) s (proxy_closed p)
                                 (Some stream) forwardedHost (Some (forward_ctx t))
                                 (created_ctxs p ++ [forward_ctx t]) cancelled
                                 (deadlines p) (ForceLoads p) (proxied p))
                  end
                end
              else inl p in
            match renewed with
            | inr (e, p) => (Return (errors_WithStack (Some e)), p)
            | inl p =>
              let '(forwarded, sent, forced) := forwardTSORequestWithDeadLine t in
              let p := mkProxy (concurrentTSOProxyStreamings p) (proxy_server p)
                               (proxy_closed p) (forwardStream p) (lastForwardedHost p)
                               (cancelForward p) (created_ctxs p) (cancelled_ctxs p)
                               (if sent then S (deadlines p) else deadlines p)
                               (if forced then S (ForceLoads p) else ForceLoads p)
                               (proxied p) in
              match forwarded with
              | inr e => (Return (errors_WithStack (Some e)), p)
              | inl tsopbResp =>
                let response := convert_tso_response tsopbResp in
                let o := tsoServer_send (proxy_closed p) (send_tie t) (send_call t) in
                let p := mkProxy (concurrentTSOProxyStreamings p) (proxy_server p)
                                 (closed_after o) (forwardStream p) (lastForwardedHost p)
                                 (cancelForward p) (created_ctxs p) (cancelled_ctxs p)
                                 (deadlines p) (ForceLoads p)
                                 (if err o is None then proxied p ++ [response]
                                  else proxied p) in
                match err o with
                | Some e => (Return (errors_WithStack (Some e)), p)
                | None => forwardTSO_loop turns p
                end
              end
            end
      end
    end
  end.

(** [forwardTSO]: [counter] is the counter of the server when the stream
    comes in, [maxStreamings] what [GetMaxConcurrentTSOProxyStreamings]
    answers. The deferred function runs when the function returns. *)
Definition forwardTSO (s : Server) (counter : Z) (maxStreamings : Z)
    (turns : list ProxyTurn) : Returned * Proxy :=
  let p := mkProxy counter s 0 None "" None [] [] 0 0 [] in
  let maxConcurrentTSOProxyStreamings := wrap_i32 maxStreamings in
  let admitted : Proxy + Proxy :=
    if bool_decide (0 <= maxConcurrentTSOProxyStreamings) then
      let newCount := wrap_i32 (counter + 1) in
      let p := mkProxy newCount s 0 None "" None [] [] 0 0 [] in
      if bool_decide (maxConcurrentTSOProxyStreamings < newCount) then inr p else inl p
    else inl p in
  match admitted with
  | inr p =>
    (Return (errors_WithStack (Some ErrMaxCountTSOProxyRoutinesExceeded)),
     forwardTSO_deferred p)
  | inl p =>
    match forwardTSO_loop turns p with
    | (Running, p) => (Running, p)
    | (Return e, p) => (Return e, forwardTSO_deferred p)
    end
  end.

(** *** The TSO stream *)

(** The response of a server that allocates the timestamps itself. *)
Record LocalTsoResponse := mkLocalTsoResponse {
  local_Header : ResponseHeader;
  local_Timestamp : Timestamp;
  local_Count : Z
}.

(** [getForwardedHost] of the server: [primary] is what
    [GetServicePrimaryAddr] answers for the TSO service. *)
Definition GrpcServer_getForwardedHost (s : Server) (primary : string * bool)
    (streamCtx : Ctx) : string * option error :=
  if tsoIndependent s then
    let '(forwardedHost, ok) := primary in
    if negb ok || bool_decide (String.length forwardedHost = 0%nat)
    then ("", Some ErrNotFoundTSOAddr)
    else (forwardedHost, None)
  else
    let fh := GetForwardedHost streamCtx in
    if negb (isLocalRequest s fh) then (fh, None) else ("", None).

(** What a turn of the loop of [Tso] meets once a request is there: whether
    the server is closed by now, the primary of the TSO service, the dial,
    the context of the server, what the stream of the client will answer
    when the proxy delivers the response of this request, what the
    allocator answers to [HandleRequest], and what [stream.Send] answers. *)
Record TsoTurn := mkTsoTurn {
  tso_is_closed : bool;
  tso_service_primary : string * bool;
  tso_dial : string -> nat + error;
  tso_server_ctx : tsoutil.Context;
  tso_downstream : option error;
  tso_allocated : Timestamp * option error;
  tso_stream_send : option error
}.

(** What happens to a [Tso] stream and around it: [stream.Recv] comes back;
    the select takes the branch of the done proxy context; or the
    dispatcher goroutine of a queue runs, from the creation of its stream
    through the given turns of its loop. *)
Inductive TsoEvent :=
| StreamRecv (request : option TsoRequest) (err : option error) (t : TsoTurn)
| ProxyCtxDone
| DispatcherRuns (addr : nat) (forwardedHost : string)
                 (created : bool * option error) (events : list tsoutil.Event).

(** The state of a [Tso] stream: the proxy context it holds, by the address
    of its queue, the server with its pool, the dispatcher of the server,
    and the responses sent to the client by the handler itself. *)
Record TsoStream := mkTsoStream {
  tsoRequestProxyCtx : option nat;
  tso_server : Server;
  tsoDispatcher : tsoutil.TSODispatcher;
  tso_sent : list LocalTsoResponse
}.

(** The error of [status.Errorf(codes.Unknown, err.Error())]; the text of
    the error is not kept. *)
Definition unknown_status : error := status_Errorf Unknown "%s" [].

(** The loop of [Tso] on a server that allocates the timestamps itself. An
    event that the handler is not waiting for is passed over. *)
Fixpoint Tso_loop (streamCtx : Ctx) (events : list TsoEvent) (st : TsoStream)
  : Returned * TsoStream :=
  match events with
  | [] => (Running, st)
  | ev :: events =>
    let arrived : option (option TsoRequest * option error * option TsoTurn) :=
      match ev, tsoRequestProxyCtx st with
      | StreamRecv request err t, None => Some (request, err, Some t)
      | StreamRecv request err t, Some _ =>
        match err with
        | Some e => Some (None, Some e, Some t)
        | None => Some (request, None, Some t)
        end
      | ProxyCtxDone, Some addr =>
        match tsoutil.observed_cause (tsoDispatcher st) addr with
        | Some cause => Some (None, Some cause, None)
        | None => None
        end
      | ProxyCtxDone, None => None
      | DispatcherRuns _ _ _ _, _ => None
      end in
    match arrived with
    | None =>
      match ev with
      | DispatcherRuns addr forwardedHost created devents =>
        Tso_loop streamCtx events
          (mkTsoStream (tsoRequestProxyCtx st) (tso_server st)
             (snd (tsoutil.dispatch (tsoDispatcher st) addr forwardedHost created devents))
             (tso_sent st))
      | _ => Tso_loop streamCtx events st
      end
    | Some (_, Some io_EOF, _) => (Return None, st)
    | Some (_, Some e, _) => (Return (errors_WithStack (Some e)), st)
    | Some (_, None, None) => (Running, st)
    | Some (request, None, Some t) =>
      if tso_is_closed t then (Return (Some ErrNotStarted), st)
      else
        match GrpcServer_getForwardedHost (tso_server st) (tso_service_primary t) streamCtx with
        | (_, Some e) => (Return (Some e), st)
        | (forwardedHost, None) =>
          if bool_decide (0 < String.length forwardedHost)%nat then
            match getDelegateClient (tso_server st) (tso_dial t) forwardedHost with
            | (s, inr e) =>
              (Return (errors_WithStack (Some e)),
               mkTsoStream (tsoRequestProxyCtx st) s (tsoDispatcher st) (tso_sent st))
            | (s, inl clientConn) =>
              let tsoRequest :=
                tsoutil.mkRequest forwardedHost (TsoRequest_GetCount request)
                                  (tso_downstream t) in
              let r := tsoutil.DispatchRequest (tsoDispatcher st) (tso_server_ctx t)
                                               tsoRequest in
              Tso_loop streamCtx events
                (mkTsoStream (Some (tsoutil.queue_addr r)) s (tsoutil.after r) (tso_sent st))
            end
          else
            let s := tso_server st in
            if bool_decide (GetClusterId (TsoRequest_GetHeader request) <> ClusterID s)
            then (Return (Some (mismatch_cluster_id
                                  (ClusterID s)
                                  (GetClusterId (TsoRequest_GetHeader request)))), st)
            else
              let count := TsoRequest_GetCount request in
              match tso_allocated t with
              | (_, Some _) => (Return (Some unknown_status), st)
              | (ts, None) =>
                let response := mkLocalTsoResponse (wrapHeader s) ts count in
                match tso_stream_send t with
                | Some e => (Return (errors_WithStack (Some e)), st)
                | None =>
                  Tso_loop streamCtx events
                    (mkTsoStream (tsoRequestProxyCtx st) s (tsoDispatcher st)
                                 (tso_sent st ++ [response]))
                end
              end
        end
    end
  end.

(** [Tso]: the proxy of a server without an allocator, or the loop. *)
Definition TsoHandler (s : Server) (d : tsoutil.TSODispatcher) (counter maxStreamings : Z)
    (streamCtx : Ctx) (turns : list ProxyTurn) (events : list TsoEvent)
  : Returned * Proxy + Returned * TsoStream :=
  if tsoIndependent s then inl (forwardTSO s counter maxStreamings turns)
  else inr (Tso_loop streamCtx events (mkTsoStream None s d [])).

(** *** The global timestamp of a server without an allocator *)

Definition maxRetryTimesRequestTSOServer : nat := 3.

(** An error of the forward stream, with what the two tests of
    [handleStreamError] answer for it: whether its text contains the
    not-leader text, and [grpcutil.NeedRebuildConnection]. *)
Record StreamError := mkStreamError {
  stream_error : error;
  is_not_leader : bool;
  need_rebuild : bool
}.

(** What one turn of the retry loop of [getGlobalTSO] meets: the primary of
    the TSO service, a stream another goroutine may put into the pool
    between the two looks of [getTSOForwardStream], the dial, the creation
    of the stream, its [Send], and its [Recv] with the timestamp of the
    response (nil: [None]). *)
Record GlobalTSOAttempt := mkAttempt {
  attempt_primary : string * bool;
  attempt_other : option nat;
  attempt_dial : string -> nat + error;
  attempt_stream : nat + error;
  attempt_send : option StreamError;
  attempt_recv : option Timestamp + StreamError
}.

(** The pool of forward streams of the server, its pool of connections, and
    what [getGlobalTSO] has done: turns of the loop, sleeps, forced loads
    of the primary. *)
Record TSOClients := mkTSOClients {
  tsoClientPool : gmap string nat;
  clients_server : Server;
  iterations : nat;
  sleeps : nat;
  forced_loads : nat
}.

(** [getTSOForwardStream]. *)
Definition getTSOForwardStream (st : TSOClients) (a : GlobalTSOAttempt)
    (forwardedHost : string) : TSOClients * (nat + error) :=
  match tsoClientPool st !! forwardedHost with
  | Some forwardStream => (st, inl forwardStream)
  | None =>
    let clients :=
      match attempt_other a with
      | Some stream => <[forwardedHost := stream]> (tsoClientPool st)
      | None => tsoClientPool st
      end in
    match clients !! forwardedHost with
    | Some forwardStream =>
      (mkTSOClients clients (clients_server st) (iterations st) (sleeps st)
                    (forced_loads st), inl forwardStream)
    | None =>
      match getDelegateClient (clients_server st) (attempt_dial a) forwardedHost with
      | (s, inr e) =>
        (mkTSOClients clients s (iterations st) (sleeps st) (forced_loads st), inr e)
      | (s, inl client) =>
        match attempt_stream a with
        | inr e =>
          (mkTSOClients clients s (iterations st) (sleeps st) (forced_loads st), inr e)
        | inl tsoClient =>
          (mkTSOClients (<[forwardedHost := tsoClient]> clients) s (iterations st)
                        (sleeps st) (forced_loads st), inl tsoClient)
        end
      end
    end
  end.

(** [handleStreamError], the closure of [getGlobalTSO]. *)
Definition handleStreamError (st : TSOClients) (forwardedHost : string)
    (err : StreamError) : TSOClients * bool :=
  if is_not_leader err
  then (mkTSOClients (tsoClientPool st) (clients_server st) (iterations st) (sleeps st)
                     (S (forced_loads st)), true)
  else if need_rebuild err
  then (mkTSOClients (delete forwardedHost (tsoClientPool st)) (clients_server st)
                     (iterations st) (sleeps st) (forced_loads st), true)
  else (st, false).

Inductive GlobalTSO :=
| GlobalTSOPanic
| GlobalTSOReturn (ts : Timestamp) (e : option error).

(** The retry loop of [getGlobalTSO], from turn [i] with [fuel] turns to go;
    [err] is the error of the turn before. *)
Fixpoint getGlobalTSO_loop (fuel i : nat) (attempt : nat -> GlobalTSOAttempt)
    (err : option error) (st : TSOClients) : GlobalTSO * TSOClients :=
  match fuel with
  | O => (GlobalTSOReturn emptyTS err, st)
  | S fuel =>
    let st := mkTSOClients (tsoClientPool st) (clients_server st) (S (iterations st))
                           (if bool_decide (0 < i)%nat then S (sleeps st) else sleeps st)
                           (forced_loads st) in
    let a := attempt i in
    let '(forwardedHost, ok) := attempt_primary a in
    if negb ok || bool_decide (forwardedHost = "")
    then (GlobalTSOReturn emptyTS (Some ErrNotFoundTSOAddr), st)
    else
      match getTSOForwardStream st a forwardedHost with
      | (st, inr e) => (GlobalTSOReturn emptyTS (Some e), st)
      | (st, inl forwardStream) =>
        match attempt_send a with
        | Some e =>
          let '(st, needRetry) := handleStreamError st forwardedHost e in
          if needRetry
          then getGlobalTSO_loop fuel (S i) attempt (Some (stream_error e)) st
          else (GlobalTSOReturn emptyTS (Some (stream_error e)), st)
        | None =>
          match attempt_recv a with
          | inr e =>
            let '(st, needRetry) := handleStreamError st forwardedHost e in
            if needRetry
            then getGlobalTSO_loop fuel (S i) attempt (Some (stream_error e)) st
            else (GlobalTSOReturn emptyTS (Some (stream_error e)), st)
          | inl None => (GlobalTSOPanic, st)
          | inl (Some ts) => (GlobalTSOReturn ts None, st)
          end
        end
      end
  end.

(** [getGlobalTSO]: [allocated] is what the allocator of the server answers
    to [HandleRequest]. *)
Definition getGlobalTSO (s : Server) (clients : gmap string nat)
    (allocated : Timestamp * option error) (attempt : nat -> GlobalTSOAttempt)
  : GlobalTSO * TSOClients :=
  if negb (tsoIndependent s)
  then (GlobalTSOReturn (fst allocated) (snd allocated), mkTSOClients clients s 0 0 0)
  else getGlobalTSO_loop maxRetryTimesRequestTSOServer 0 attempt None
                         (mkTSOClients clients s 0 0 0).

(** *** The watch on the global configuration *)

(** An etcd key-value pair and a watch event, as far as the handler reads
    them. *)
Record KeyValue := mkKeyValue {
  kv_Key : string;
  kv_Value : string
}.

Inductive EventType := EventTypePut | EventTypeDelete.

Record WatchEvent := mkWatchEvent {
  event_Type : EventType;
  event_Kv : KeyValue;
  event_PrevKv : option KeyValue
}.

(** A response of the watch channel: its error, its compact revision, the
    revision of its header, its events. *)
Record WatchResponse := mkWatchResponse {
  watch_Err : option error;
  CompactRevision : Z;
  watch_Revision : Z;
  watch_Events : list WatchEvent
}.

Record GlobalConfigItem := mkGlobalConfigItem {
  item_Name : string;
  item_Payload : string;
  item_Kind : EventType
}.

(** The error header of a response of the watch: the required revision has
    been compacted (with the two revisions of the message), or another
    error of the channel. *)
Inductive WatchFailure :=
| DATA_COMPACTED (required compacted : Z)
| WATCH_UNKNOWN.

Record WatchGlobalConfigResponse := mkWatchGlobalConfigResponse {
  watch_Header : option WatchFailure;
  watch_Changes : list GlobalConfigItem;
  watch_response_Revision : Z
}.

(** One turn of the select of [WatchGlobalConfig]: one of the two contexts
    is done, or the channel hands over a response, with what [server.Send]
    answers if it is called. *)
Inductive WatchTurn :=
| WatchCtxDone
| WatchServerDone
| WatchChan (res : WatchResponse) (send : option error).

(** The loop over the events of a response. *)
Fixpoint watch_changes (events : list WatchEvent) : list GlobalConfigItem :=
  match events with
  | [] => []
  | e :: events =>
    match event_Type e with
    | EventTypePut =>
      mkGlobalConfigItem (kv_Key (event_Kv e)) (kv_Value (event_Kv e)) (event_Type e)
        :: watch_changes events
    | EventTypeDelete =>
      match event_PrevKv e with
      | Some prev =>
        mkGlobalConfigItem (kv_Key (event_Kv e)) (kv_Value prev) (event_Type e)
          :: watch_changes events
      | None => watch_changes events
      end
    end
  end.

(** The loop of [WatchGlobalConfig] from a given revision: the responses
    handed to [server.Send], in order, and what the handler returns. *)
Fixpoint WatchGlobalConfig_loop (turns : list WatchTurn) (revision : Z)
  : list WatchGlobalConfigResponse * Returned :=
  match turns with
  | [] => ([], Running)
  | WatchCtxDone :: _ => ([], Return None)
  | WatchServerDone :: _ => ([], Return None)
  | WatchChan res send :: turns =>
    match watch_Err res with
    | Some e =>
      let resp :=
        if bool_decide (revision < CompactRevision res)
        then mkWatchGlobalConfigResponse
               (Some (DATA_COMPACTED revision (CompactRevision res))) [] 0
        else mkWatchGlobalConfigResponse (Some WATCH_UNKNOWN) [] 0 in
      match send with
      | Some err => ([resp], Return (Some err))
      | None => ([resp], Return (Some e))
      end
    | None =>
      let revision := watch_Revision res in
      let cfgs := watch_changes (watch_Events res) in
      if bool_decide (0 < length cfgs)%nat then
        let resp := mkWatchGlobalConfigResponse None cfgs (watch_Revision res) in
        match send with
        | Some err => ([resp], Return (Some err))
        | None =>
          let '(sent, r) := WatchGlobalConfig_loop turns revision in
          (resp :: sent, r)
        end
      else WatchGlobalConfig_loop turns revision
    end
  end.

(** [WatchGlobalConfig]: [revision] is the revision of the request, and
    [rateLimit] the error of the rate limiter, if it denies the call. *)
Definition WatchGlobalConfigHandler (s : Server) (rateLimit : option error)
    (revision : Z) (turns : list WatchTurn)
  : list WatchGlobalConfigResponse * Returned :=
  if negb (etcdClient s) then ([], Return (Some ErrEtcdNotStarted))
  else
    match rateLimit with
    | Some err => ([], Return (Some err))
    | None => WatchGlobalConfig_loop turns revision
    end.

(** *** Bucket reports *)

(** A [metapb.Buckets], a [pdpb.ReportBucketsRequest] with the nil-safe
    getters of the generated code, and a [pdpb.ReportBucketsResponse]. *)
Record Buckets := mkBuckets {
  buckets_RegionId : Z;
  buckets_Keys : list string
}.

Record ReportBucketsRequest := mkReportBucketsRequest {
  report_Header : option RequestHeader;
  report_Buckets : option Buckets
}.

Definition ReportBucketsRequest_GetHeader (request : option ReportBucketsRequest)
  : option RequestHeader := request ≫= report_Header.
Definition ReportBucketsRequest_GetBuckets (request : option ReportBucketsRequest)
  : option Buckets := request ≫= report_Buckets.

Record ReportBucketsResponse := mkReportBucketsResponse {
  report_response_Header : ResponseHeader
}.

(** [notBootstrappedHeader]; as for the other headers the message is not
    kept. *)
Definition notBootstrappedHeader (s : Server) : ResponseHeader :=
  wrapErrorToHeader s ErrorType_NOT_BOOTSTRAPPED.

(** What [limiter.Allow] answers, when rate limiting is enabled. *)
Inductive RateLimit :=
| RateLimitDisabled
| RateLimitAllowed
| RateLimitDenied (e : error).

(** One turn of the loop of [ReportBuckets]: what the relay goroutine (if
    one runs) does before the handler reads the flag of the guard in
    [recv]; what [stream.Recv] answers; the server as the turn finds it
    (role, membership, cluster, pool); what the dial, the creation of the
    forward stream and [forwardStream.Send] answer; what the relay does
    before the handler polls [errCh]; how [SendAndClose] goes if the guard
    calls it; and what [HandleReportBuckets] answers. *)
Record BucketTurn := mkBucketTurn {
  relay_before_recv : list (RelayTurn ReportBucketsResponse);
  bucket_recv : Call (option ReportBucketsRequest * option error);
  bucket_server : Server;
  bucket_dial : string -> nat + error;
  bucket_create : option error;
  bucket_forward_send : option error;
  relay_before_select : list (RelayTurn ReportBucketsResponse);
  bucket_tie : bool;
  bucket_send : Call (option error);
  HandleReportBuckets : option error
}.

(** What a [ReportBuckets] stream does that others can see, in order: it
    fetches a delegate connection (leaving the server with this pool); it
    creates the context of a forward stream over a connection (contexts are
    numbered in the order of their creation); it calls the cancel function
    of a context; it sends a request on the forward stream; its relay passes
    a response of the forward stream to the client; it hands the buckets of
    a request to the cluster; it answers the client itself. *)
Inductive BucketEvent :=
| DelegateFetched (after : Server)
| ForwardContext (client : nat)
| CancelCalled (ctx : nat)
| ForwardSent (request : option ReportBucketsRequest)
| RelayedToClient (resp : ReportBucketsResponse)
| ReportHandled (s : Server) (request : option ReportBucketsRequest) (buckets : Buckets)
| ResponseSent (resp : ReportBucketsResponse).

(** The forward contexts created so far, by their connections. *)
Definition bucket_contexts (log : list BucketEvent) : list nat :=
  omap (fun ev => match ev with ForwardContext client => Some client | _ => None end) log.

(** The variables of the handler, the relay it started, and what it did:
    [bucket_closed] is the flag of the guard [server], [bucket_cancel] the
    context whose cancel function [cancel] holds, [bucket_errCh] what the
    relay has put on the current [errCh], [bucket_relay_runs] whether a
    relay started on the current forward stream has not returned yet. *)
Record BucketStream := mkBucketStream {
  bucket_closed : Z;
  bucket_forwardStream : option nat;
  bucket_cancel : option nat;
  bucket_lastForwardedHost : string;
  bucket_errCh : option error;
  bucket_relay_runs : bool;
  bucket_log : list BucketEvent
}.

Definition bucket_stream_start : BucketStream :=
  mkBucketStream 0 None None "" None false [].

Definition bucket_logged (evs : list BucketEvent) (st : BucketStream) : BucketStream :=
  mkBucketStream (bucket_closed st) (bucket_forwardStream st) (bucket_cancel st)
                 (bucket_lastForwardedHost st) (bucket_errCh st) (bucket_relay_runs st)
                 (bucket_log st ++ evs).

(** The relay goroutine of the stream takes the given turns of
    [forwardReportBucketClientToServer] on the shared guard. *)
Definition bucket_relay (turns : list (RelayTurn ReportBucketsResponse))
    (st : BucketStream) : BucketStream :=
  if bucket_relay_runs st then
    let r := forwardReportBucketClientToServer (bucket_closed st) turns in
    mkBucketStream (relay_closed r) (bucket_forwardStream st) (bucket_cancel st)
                   (bucket_lastForwardedHost st) (errCh r) (negb (relay_returned r))
                   (bucket_log st ++ (RelayedToClient <$> relayed r))
  else st.

(** [if cancel != nil { cancel() }]. *)
Definition bucket_cancel_if_set (st : BucketStream) : BucketStream :=
  match bucket_cancel st with
  | Some ctx => bucket_logged [CancelCalled ctx] st
  | None => st
  end.

(** The part of a turn that makes sure there is a forward stream to
    [forwardedHost]: the stream at hand, or the previous context cancelled,
    a delegate fetched, a new context and stream created and a new relay
    started on a new [errCh]. The relay of a previous stream, whose context
    is cancelled, is no longer followed. *)
Definition bucket_forward_stream (t : BucketTurn) (forwardedHost : string)
    (st : BucketStream) : BucketStream + error * BucketStream :=
  if bool_decide (bucket_forwardStream st = None)
     || bool_decide (bucket_lastForwardedHost st <> forwardedHost)
  then
    let st := bucket_cancel_if_set st in
    match getDelegateClient (bucket_server t) (bucket_dial t) forwardedHost with
    | (s, inr e) => inr (e, bucket_logged [DelegateFetched s] st)
    | (s, inl client) =>
      let ctx := length (bucket_contexts (bucket_log st)) in
      let log := bucket_log st ++ [DelegateFetched s; ForwardContext client] in
      match bucket_create t with
      | Some e =>
        inr (e, mkBucketStream (bucket_closed st) None (Some ctx)
                  (bucket_lastForwardedHost st) (bucket_errCh st)
                  (bucket_relay_runs st) log)
      | None =>
        inl (mkBucketStream (bucket_closed st) (Some ctx) (Some ctx)
               forwardedHost None true log)
      end
    end
  else inl st.

(** The loop of [ReportBuckets]. The metrics and the store looked up for
    their labels are not kept. *)
Fixpoint ReportBuckets_loop (streamCtx : Ctx) (turns : list BucketTurn)
    (st : BucketStream) : Returned * BucketStream :=
  match turns with
  | [] => (Running, st)
  | t :: turns =>
    let st := bucket_relay (relay_before_recv t) st in
    let o := bucketHeartbeatServer_recv (bucket_closed st) (bucket_recv t) in
    let st := mkBucketStream (closed_after o) (bucket_forwardStream st) (bucket_cancel st)
                (bucket_lastForwardedHost st) (bucket_errCh st) (bucket_relay_runs st)
                (bucket_log st) in
    match err o with
    | Some io_EOF => (Return None, st)
    | Some e => (Return (errors_WithStack (Some e)), st)
    | None =>
      let request := value o in
      let s := bucket_server t in
      let forwardedHost := GetForwardedHost streamCtx in
      if negb (isLocalRequest s forwardedHost) then
        match bucket_forward_stream t forwardedHost st with
        | inr (e, st) => (Return (Some e), st)
        | inl st =>
          match bucket_forward_send t with
          | Some e => (Return (errors_WithStack (Some e)), st)
          | None =>
            let st := bucket_logged [ForwardSent request] st in
            let st := bucket_relay (relay_before_select t) st in
            match bucket_errCh st with
            | Some e => (Return (Some e), st)
            | None => ReportBuckets_loop streamCtx turns st
            end
          end
        end
      else if negb (hasRaftCluster s) then
        let resp := mkReportBucketsResponse (notBootstrappedHeader s) in
        let o := bucketHeartbeatServer_send (bucket_closed st) (bucket_tie t)
                                            (bucket_send t) in
        (Return (errors_WithStack (err o)),
         mkBucketStream (closed_after o) (bucket_forwardStream st) (bucket_cancel st)
           (bucket_lastForwardedHost st) (bucket_errCh st) (bucket_relay_runs st)
           (bucket_log st ++ [ResponseSent resp]))
      else
        match validateRequest s (ReportBucketsRequest_GetHeader request) with
        | Some e => (Return (Some e), st)
        | None =>
          match ReportBucketsRequest_GetBuckets request with
          | None => ReportBuckets_loop streamCtx turns st
          | Some buckets =>
            if bool_decide (length (buckets_Keys buckets) = 0%nat)
            then ReportBuckets_loop streamCtx turns st
            else
              let st := bucket_logged [ReportHandled s request buckets] st in
              match HandleReportBuckets t with
              | Some _ => ReportBuckets_loop streamCtx turns st
              | None => ReportBuckets_loop streamCtx turns st
              end
          end
        end
    end
  end.

(** [ReportBuckets]: the rate limiter, the loop, and on return the deferred
    calls; the last component tells whether the token of the rate limiter
    was given back. *)
Definition ReportBucketsHandler (limit : RateLimit) (streamCtx : Ctx)
    (turns : list BucketTurn) : Returned * BucketStream * bool :=
  match limit with
  | RateLimitDenied e => (Return (Some e), bucket_stream_start, false)
  | _ =>
    match ReportBuckets_loop streamCtx turns bucket_stream_start with
    | (Running, st) => (Running, st, false)
    | (Return e, st) =>
      (Return e, bucket_cancel_if_set st,
       match limit with RateLimitAllowed => true | _ => false end)
    end
  end.

(** *** The synchronisation of the maximal timestamp *)

(** A local TSO allocator, as [SyncMaxTS] meets it: whether it is the
    allocator leader when the check loop asks and when the write loop asks,
    what [GetCurrentTSO] and [WriteTSO] answer when they are called, and its
    dc-location. *)
Record Allocator := mkAllocator {
  leader_at_check : bool;
  GetCurrentTSO : option Timestamp * option error;
  leader_at_write : bool;
  WriteTSO : option error;
  GetDCLocation : string
}.

Record SyncMaxTSRequest := mkSyncMaxTSRequest {
  sync_Header : option RequestHeader;
  MaxTs : option Timestamp;
  SkipCheck : bool
}.

Record SyncMaxTSResponse := mkSyncMaxTSResponse {
  sync_response_Header : ResponseHeader;
  MaxLocalTs : option Timestamp;
  SyncedDcs : list string
}.

(** What [SyncMaxTS] meets: the rate limiter, the number of dc-locations of
    the cluster, and the allocators this server holds (or an error). *)
Record SyncEnv := mkSyncEnv {
  sync_rateLimitDenied : bool;
  GetClusterDCLocationsNumber : Z;
  GetHoldingLocalAllocatorLeaders : list Allocator * option error
}.

(** The check loop: the largest current timestamp of the allocator leaders
    and their dc-locations, or the error of a [GetCurrentTSO]. *)
Fixpoint sync_check (allocatorLeaders : list Allocator) (maxLocalTS : option Timestamp)
    (syncedDCs : list string) : error + option Timestamp * list string :=
  match allocatorLeaders with
  | [] => inr (maxLocalTS, syncedDCs)
  | allocator :: allocatorLeaders =>
    if negb (leader_at_check allocator)
    then sync_check allocatorLeaders maxLocalTS syncedDCs
    else
      match GetCurrentTSO allocator with
      | (_, Some e) => inl e
      | (currentLocalTSO, None) =>
        let maxLocalTS :=
          if bool_decide (0 < CompareTimestamp currentLocalTSO maxLocalTS)
          then currentLocalTSO else maxLocalTS in
        sync_check allocatorLeaders maxLocalTS (syncedDCs ++ [GetDCLocation allocator])
      end
  end.

(** The write loop: the dc-locations written so far, and the allocator
    whose [WriteTSO] failed, with the error. *)
Fixpoint sync_write (allocatorLeaders : list Allocator) (syncedDCs : list string)
  : list string * option (Allocator * error) :=
  match allocatorLeaders with
  | [] => (syncedDCs, None)
  | allocator :: allocatorLeaders =>
    if negb (leader_at_write allocator) then sync_write allocatorLeaders syncedDCs
    else
      match WriteTSO allocator with
      | Some e => (syncedDCs, Some (allocator, e))
      | None => sync_write allocatorLeaders (syncedDCs ++ [GetDCLocation allocator])
      end
  end.

(** What a call of [SyncMaxTS] leaves: the response, the error, the
    dc-locations of the allocators whose [WriteTSO] took the maximal
    timestamp of the request, and the allocator whose [WriteTSO] refused
    it. *)
Record Synced := mkSynced {
  sync_response : option SyncMaxTSResponse;
  sync_err : option error;
  written : list string;
  write_failed : option Allocator
}.

Definition sync_unknown (s : Server) : Synced :=
  mkSynced (Some (mkSyncMaxTSResponse (wrapErrorToHeader s ErrorType_UNKNOWN) None []))
           None [] None.

(** [SyncMaxTS]. *)
Definition SyncMaxTSHandler (s : Server) (request : SyncMaxTSRequest) (env : SyncEnv)
  : Synced :=
  match validateInternalRequest s (sync_Header request) true with
  | Some e => mkSynced None (Some e) [] None
  | None =>
    if sync_rateLimitDenied env then sync_unknown s
    else if bool_decide (GetClusterDCLocationsNumber env = 0) then sync_unknown s
    else
      match GetHoldingLocalAllocatorLeaders env with
      | (_, Some _) => sync_unknown s
      | (allocatorLeaders, None) =>
        let checked : option Synced :=
          if negb (SkipCheck request) then
            match sync_check allocatorLeaders None [] with
            | inl _ => Some (sync_unknown s)
            | inr (None, _) => Some (sync_unknown s)
            | inr (Some maxLocalTS, syncedDCs) =>
              match MaxTs request with
              | None => Some (sync_unknown s)
              | Some maxTs =>
                let cmpResult := CompareTimestamp (Some maxLocalTS) (Some maxTs) in
                if bool_decide (0 <= cmpResult) then
                  let maxLocalTS :=
                    if bool_decide (cmpResult = 0)
                    then mkTimestamp (Physical maxLocalTS)
                                     (wrap_i64 (Logical maxLocalTS + 1))
                                     (SuffixBits maxLocalTS)
                    else maxLocalTS in
                  Some (mkSynced (Some (mkSyncMaxTSResponse (wrapHeader s)
                                          (Some maxLocalTS) syncedDCs))
                                 None [] None)
                else None
              end
            end
          else None in
        match checked with
        | Some r => r
        | None =>
          match sync_write allocatorLeaders [] with
          | (dcs, Some (allocator, _)) =>
            mkSynced (Some (mkSyncMaxTSResponse (wrapErrorToHeader s ErrorType_UNKNOWN)
                              None []))
                     None dcs (Some allocator)
          | (dcs, None) =>
            mkSynced (Some (mkSyncMaxTSResponse (wrapHeader s) None dcs)) None dcs None
          end
        end
      end
  end.

End server.

(** * Heartbeat streams *)

Module hbstream.

(** A [metapb.Peer], as far as the streams read it, with the nil-safe
    getter of the generated code. *)
Record Peer := mkPeer { StoreId : Z }.

Definition GetStoreId (p : option Peer) : Z := from_option StoreId 0 p.

(** A region heartbeat response: its region and the peer it is meant for. *)
Record RegionHeartbeatResponse := mkResponse {
  GetRegionId : Z;
  GetTargetPeer : option Peer
}.

(** The keepalive message: a header and nothing else. *)
Definition keepAlive : RegionHeartbeatResponse := mkResponse 0 None.

(** A call of [stream.Send]: the store whose entry was used, the stream, the
    message and what the call returned. *)
Record SendCall := mkSendCall {
  call_store : Z;
  call_stream : nat;
  call_msg : RegionHeartbeatResponse;
  call_result : option error
}.

(** The map of [HeartbeatStreams], from store id to stream, and the calls
    of [Send] made so far. *)
Record HeartbeatStreams := mkStreams {
  streams : gmap Z nat;
  calls : list SendCall
}.

(** One turn of the select of [run]: a binding from [streamCh]; a message
    from [msgCh], with whether the store informer knows the target store
    and what [Send] answers if it is called; a tick of the keepalive
    ticker, with the same per store; or the context being done. *)
Inductive Turn :=
| StreamUpdate (storeID : Z) (stream : nat)
| Message (msg : RegionHeartbeatResponse) (store : bool) (send : option error)
| KeepAliveTick (store : Z -> bool) (send : Z -> option error)
| CtxDone.

(** The body of the loop over the streams at a tick. *)
Definition keepalive_step (store : Z -> bool) (send : Z -> option error)
    (s : HeartbeatStreams) (entry : Z * nat) : HeartbeatStreams :=
  let '(storeID, stream) := entry in
  if negb (store storeID) then mkStreams (delete storeID (streams s)) (calls s)
  else
    match send storeID with
    | Some err =>
      mkStreams (delete storeID (streams s))
                (calls s ++ [mkSendCall storeID stream keepAlive (Some err)])
    | None =>
      mkStreams (streams s) (calls s ++ [mkSendCall storeID stream keepAlive None])
    end.

(** [run]: the state it has reached, and whether it has returned. The order
    in which a tick visits the streams is that of the map, which Go leaves
    open. *)
Fixpoint run (turns : list Turn) (s : HeartbeatStreams) : HeartbeatStreams * bool :=
  match turns with
  | [] => (s, false)
  | StreamUpdate storeID stream :: turns =>
    run turns (mkStreams (<[storeID := stream]> (streams s)) (calls s))
  | Message msg store send :: turns =>
    let storeID := GetStoreId (GetTargetPeer msg) in
    if negb store then run turns (mkStreams (delete storeID (streams s)) (calls s))
    else
      match streams s !! storeID with
      | Some stream =>
        match send with
        | Some err =>
          run turns (mkStreams (delete storeID (streams s))
                               (calls s ++ [mkSendCall storeID stream msg (Some err)]))
        | None =>
          run turns (mkStreams (streams s)
                               (calls s ++ [mkSendCall storeID stream msg None]))
        end
      | None => run turns s
      end
  | KeepAliveTick store send :: turns =>
    run turns (foldl (keepalive_step store send) s (map_to_list (streams s)))
  | CtxDone :: _ => (s, true)
  end.

End hbstream.

(** * Region heartbeats *)

(** The handler [RegionHeartbeat] of the gRPC service, over the guard
    [heartbeatServer] and the streams of [hbstream]. *)
Module heartbeat.

Import server.

(** A [pdpb.RegionHeartbeatRequest], as far as the handler reads it, with
    the nil-safe getters of the generated code, and a
    [pdpb.RegionHeartbeatResponse]. *)
Record RegionHeartbeatRequest := mkRegionHeartbeatRequest {
  hb_Header : option RequestHeader;
  hb_Leader : option hbstream.Peer
}.

Definition RegionHeartbeatRequest_GetHeader (request : option RegionHeartbeatRequest)
  : option RequestHeader := request ≫= hb_Header.
Definition RegionHeartbeatRequest_GetLeader (request : option RegionHeartbeatRequest)
  : option hbstream.Peer := request ≫= hb_Leader.

Record RegionHeartbeatResponse := mkRegionHeartbeatResponse {
  hb_response_Header : ResponseHeader
}.

(** [validateRequest] as the revision of the service with this handler has
    it: a closed server answers as one that is not the leader. *)
Definition GrpcServer_validateRequest (s : Server) (header : option RequestHeader)
  : option error :=
  if IsClosed s || negb (IsLeader s) then Some ErrNotLeader
  else if bool_decide (GetClusterId header <> ClusterID s)
  then Some (mismatch_cluster_id (ClusterID s) (GetClusterId header))
  else None.

(** A [core.RegionInfo], as far as the handler reads it. *)
Record RegionInfo := mkRegionInfo {
  region_Leader : option hbstream.Peer;
  region_ID : Z;
  region_Peers : list hbstream.Peer
}.

(** What [createSchedulingStream] does: it answers a stream, or an error
    and no stream, or it does not come back because the call panics. *)
Inductive SchedCreate :=
| SchedCreated
| SchedCreateFailed (e : error)
| SchedCreatePanics.

(** [time.Since(lastBind)] at the clock reading [now]: a [Duration], which
    saturates; [lastBind] is [None] for the zero [Time], which lies more
    than the largest [Duration] back. *)
Definition maxDuration : Z := 2 ^ 63 - 1.
Definition minDuration : Z := - 2 ^ 63.

Definition time_Since (lastBind : option Z) (now : Z) : Z :=
  match lastBind with
  | None => maxDuration
  | Some t => Z.max minDuration (Z.min (now - t) maxDuration)
  end.

(** One turn of the loop of [RegionHeartbeat]: whether another holder of
    the guard (a relay, the heartbeat streams) has closed it since the last
    turn; what [stream.Recv] answers; the server as the turn finds it; what
    the dial, the creation of the forward stream and [forwardStream.Send]
    answer; what the select finds on [errCh]; how [stream.Send] goes if the
    guard calls it; whether the cluster knows the store of the leader; the
    clock at [time.Since], the bind interval of the configuration, whether
    [streamCh] takes the binding (or the context of the streams is done
    first) and the clock at [lastBind = time.Now()]; the region that
    [core.RegionFromHeartbeat] builds from the request; what
    [HandleRegionHeartbeat] answers; whether [msgCh] takes the error
    message of [SendErr]; what [IsAPIServiceMode] answers; the primary of
    the scheduling service; and what the dial, the creation of the
    scheduling stream (given the connection, or none after a failed dial)
    and [schedulingStream.Send] answer. *)
Record HeartbeatTurn := mkHeartbeatTurn {
  hb_closed_meanwhile : bool;
  hb_recv : Call (option RegionHeartbeatRequest * option error);
  hb_server : Server;
  hb_dial : string -> nat + error;
  hb_create : option error;
  hb_forward_send : option error;
  hb_errCh : option error;
  hb_tie : bool;
  hb_send : Call (option error);
  hb_store : bool;
  hb_now : Z;
  hb_interval : Z;
  hb_bind_taken : bool;
  hb_bind_now : Z;
  hb_region : RegionInfo;
  HandleRegionHeartbeat : option error;
  hb_err_taken : bool;
  hb_api_mode : bool;
  hb_primary : string;
  hb_sched_dial : string -> nat + error;
  hb_sched_create : option nat -> SchedCreate;
  hb_sched_send : option error
}.

(** What a [RegionHeartbeat] stream does that others can see, in order: it
    fetches a delegate connection; it creates the context of a forward
    stream to another member, or of a stream to the scheduling service
    (each kind numbered in the order of creation); it calls [cancel] or
    [cancel1], which hold the cancel function of such a context; it starts a
    relay on its guard; it sends a request on the forward stream, or on the
    scheduling stream (with the answer [hb_sched_send] of the turn, which
    it only logs); it binds its guard to a store; it has an error
    message sent to a peer; it hands the region of a request to the
    cluster; it answers the client itself. *)
Inductive HeartbeatEvent :=
| HbDelegateFetched (after : Server)
| HbForwardContext (client : nat)
| HbSchedulingContext (client : option nat)
| HbCancelCalled (ctx : nat)
| HbCancel1Called (ctx : nat)
| HbRelayStarted
| HbForwardSent (request : option RegionHeartbeatRequest)
| HbSchedulingSent (t : HeartbeatTurn) (request : option RegionHeartbeatRequest)
| HbBindStream (storeID : Z) (taken : bool)
| HbSendErr (errType : ErrorType) (targetPeer : option hbstream.Peer) (taken : bool)
| HbHandled (t : HeartbeatTurn) (request : option RegionHeartbeatRequest)
| HbResponseSent (resp : RegionHeartbeatResponse).

(** The contexts created so far, of either kind, by their connections. *)
Definition is_forward_context (ev : HeartbeatEvent) : option nat :=
  match ev with HbForwardContext client => Some client | _ => None end.
Definition is_scheduling_context (ev : HeartbeatEvent) : option (option nat) :=
  match ev with HbSchedulingContext client => Some client | _ => None end.

Definition forward_contexts (log : list HeartbeatEvent) : list nat :=
  omap is_forward_context log.
Definition scheduling_contexts (log : list HeartbeatEvent) : list (option nat) :=
  omap is_scheduling_context log.

(** The variables of the handler and what it did: [hb_closed] is the flag
    of the guard [server], [hb_cancel] and [hb_cancel1] the contexts whose
    cancel functions [cancel] and [cancel1] hold, [hb_shared] whether
    another goroutine has been handed the guard. *)
Record HeartbeatStream := mkHeartbeatStream {
  hb_closed : Z;
  hb_forwardStream : option nat;
  hb_cancel : option nat;
  hb_lastForwardedHost : string;
  hb_lastBind : option Z;
  hb_schedulingStream : option nat;
  hb_cancel1 : option nat;
  hb_lastPrimaryAddr : string;
  hb_shared : bool;
  hb_log : list HeartbeatEvent
}.

Definition heartbeat_stream_start : HeartbeatStream :=
  mkHeartbeatStream 0 None None "" None None None "" false [].

Definition hb_logged (evs : list HeartbeatEvent) (st : HeartbeatStream) : HeartbeatStream :=
  mkHeartbeatStream (hb_closed st) (hb_forwardStream st) (hb_cancel st)
    (hb_lastForwardedHost st) (hb_lastBind st) (hb_schedulingStream st) (hb_cancel1 st)
    (hb_lastPrimaryAddr st) (hb_shared st) (hb_log st ++ evs).

Definition hb_with_closed (closed : Z) (st : HeartbeatStream) : HeartbeatStream :=
  mkHeartbeatStream closed (hb_forwardStream st) (hb_cancel st)
    (hb_lastForwardedHost st) (hb_lastBind st) (hb_schedulingStream st) (hb_cancel1 st)
    (hb_lastPrimaryAddr st) (hb_shared st) (hb_log st).

(** [if cancel != nil { cancel() }] and [if cancel1 != nil { cancel1() }]. *)
Definition hb_cancel_if_set (st : HeartbeatStream) : HeartbeatStream :=
  match hb_cancel st with
  | Some ctx => hb_logged [HbCancelCalled ctx] st
  | None => st
  end.

Definition hb_cancel1_if_set (st : HeartbeatStream) : HeartbeatStream :=
  match hb_cancel1 st with
  | Some ctx => hb_logged [HbCancel1Called ctx] st
  | None => st
  end.

(** The part of a turn that makes sure there is a forward stream to
    [forwardedHost]. *)
Definition hb_forward_stream (t : HeartbeatTurn) (forwardedHost : string)
    (st : HeartbeatStream) : HeartbeatStream + error * HeartbeatStream :=
  if bool_decide (hb_forwardStream st = None)
     || bool_decide (hb_lastForwardedHost st <> forwardedHost)
  then
    let st := hb_cancel_if_set st in
    match getDelegateClient (hb_server t) (hb_dial t) forwardedHost with
    | (s, inr e) => inr (e, hb_logged [HbDelegateFetched s] st)
    | (s, inl client) =>
      let ctx := length (forward_contexts (hb_log st)) in
      match hb_create t with
      | Some e =>
        inr (e, mkHeartbeatStream (hb_closed st) None (Some ctx)
                  (hb_lastForwardedHost st) (hb_lastBind st) (hb_schedulingStream st)
                  (hb_cancel1 st) (hb_lastPrimaryAddr st) (hb_shared st)
                  (hb_log st ++ [HbDelegateFetched s; HbForwardContext client]))
      | None =>
        inl (mkHeartbeatStream (hb_closed st) (Some ctx) (Some ctx)
               forwardedHost (hb_lastBind st) (hb_schedulingStream st)
               (hb_cancel1 st) (hb_lastPrimaryAddr st) true
               (hb_log st ++ [HbDelegateFetched s; HbForwardContext client; HbRelayStarted]))
      end
    end
  else inl st.

(** The binding of the guard to the store of the leader, when the last one
    is more than the bind interval back. *)
Definition hb_bind (t : HeartbeatTurn) (storeID : Z) (st : HeartbeatStream)
  : HeartbeatStream :=
  if bool_decide (hb_interval t < time_Since (hb_lastBind st) (hb_now t)) then
    mkHeartbeatStream (hb_closed st) (hb_forwardStream st) (hb_cancel st)
      (hb_lastForwardedHost st) (Some (hb_bind_now t)) (hb_schedulingStream st)
      (hb_cancel1 st) (hb_lastPrimaryAddr st) (hb_shared st || hb_bind_taken t)
      (hb_log st ++ [HbBindStream storeID (hb_bind_taken t)])
  else st.

(** The tail of a turn in API service mode: the heartbeat that the cluster
    has handled goes to the scheduling service; the first component tells
    whether the creation of the stream panicked. *)
Definition hb_to_scheduling (t : HeartbeatTurn)
    (request : option RegionHeartbeatRequest) (st : HeartbeatStream)
  : bool * HeartbeatStream :=
  let primaryAddr := hb_primary t in
  let '(panicked, st) :=
    if bool_decide (hb_schedulingStream st = None)
       || bool_decide (hb_lastPrimaryAddr st <> primaryAddr)
    then
      let st := hb_cancel1_if_set st in
      let '(s, client) := getDelegateClient (hb_server t) (hb_sched_dial t) primaryAddr in
      let client : option nat := match client with inl c => Some c | inr _ => None end in
      let ctx := length (scheduling_contexts (hb_log st)) in
      let log := hb_log st ++ [HbDelegateFetched s; HbSchedulingContext client] in
      match hb_sched_create t client with
      | SchedCreatePanics =>
        (true, mkHeartbeatStream (hb_closed st) (hb_forwardStream st) (hb_cancel st)
                 (hb_lastForwardedHost st) (hb_lastBind st) (hb_schedulingStream st)
                 (hb_cancel1 st) (hb_lastPrimaryAddr st) (hb_shared st) log)
      | SchedCreateFailed e =>
        (false, mkHeartbeatStream (hb_closed st) (hb_forwardStream st) (hb_cancel st)
                  (hb_lastForwardedHost st) (hb_lastBind st) None
                  (Some ctx) (hb_lastPrimaryAddr st) (hb_shared st) log)
      | SchedCreated =>
        (false, mkHeartbeatStream (hb_closed st) (hb_forwardStream st) (hb_cancel st)
                  (hb_lastForwardedHost st) (hb_lastBind st) (Some ctx)
                  (Some ctx) primaryAddr true (log ++ [HbRelayStarted]))
      end
    else (false, st) in
  if panicked then (true, st)
  else
    match hb_schedulingStream st with
    | Some _ => (false, hb_logged [HbSchedulingSent t request] st)
    | None => (false, st)
    end.

(** How the handler is left: still in its loop, returned with an error or
    nil, returned with [errors.Errorf("invalid store ID %d, not found",
    storeID)], or in a panic. *)
Inductive HeartbeatExit :=
| HbRunning
| HbReturn (e : option error)
| HbInvalidStore (storeID : Z)
| HbPanic.

(** The loop of [RegionHeartbeat]. The metrics are not kept. *)
Fixpoint RegionHeartbeat_loop (streamCtx : Ctx) (turns : list HeartbeatTurn)
    (st : HeartbeatStream) : HeartbeatExit * HeartbeatStream :=
  match turns with
  | [] => (HbRunning, st)
  | t :: turns =>
    let closed := if hb_shared st && hb_closed_meanwhile t then 1 else hb_closed st in
    let o := heartbeatServer_Recv closed (hb_recv t) in
    let st := hb_with_closed (closed_after o) st in
    match err o with
    | Some io_EOF => (HbReturn None, st)
    | Some e => (HbReturn (errors_WithStack (Some e)), st)
    | None =>
      let request := value o in
      let s := hb_server t in
      let forwardedHost := GetForwardedHost streamCtx in
      if negb (isLocalRequest s forwardedHost) then
        match hb_forward_stream t forwardedHost st with
        | inr (e, st) => (HbReturn (Some e), st)
        | inl st =>
          match hb_forward_send t with
          | Some e => (HbReturn (errors_WithStack (Some e)), st)
          | None =>
            let st := hb_logged [HbForwardSent request] st in
            match hb_errCh t with
            | Some e => (HbReturn (Some e), st)
            | None => RegionHeartbeat_loop streamCtx turns st
            end
          end
        end
      else if negb (hasRaftCluster s) then
        let resp := mkRegionHeartbeatResponse (notBootstrappedHeader s) in
        let o := heartbeatServer_Send (hb_closed st) (hb_tie t) (hb_send t) in
        (HbReturn (errors_WithStack (err o)),
         hb_logged [HbResponseSent resp] (hb_with_closed (closed_after o) st))
      else
        match GrpcServer_validateRequest s (RegionHeartbeatRequest_GetHeader request) with
        | Some e => (HbReturn (Some e), st)
        | None =>
          let storeID := hbstream.GetStoreId (RegionHeartbeatRequest_GetLeader request) in
          if negb (hb_store t) then (HbInvalidStore storeID, st)
          else
            let st := hb_bind t storeID st in
            let region := hb_region t in
            let rejected :=
              hb_logged [HbSendErr ErrorType_UNKNOWN
                                   (RegionHeartbeatRequest_GetLeader request)
                                   (hb_err_taken t)] st in
            if bool_decide (region_Leader region = None)
            then RegionHeartbeat_loop streamCtx turns rejected
            else if bool_decide (region_ID region = 0)
            then RegionHeartbeat_loop streamCtx turns rejected
            else if bool_decide (length (region_Peers region) = 0%nat)
            then RegionHeartbeat_loop streamCtx turns rejected
            else
              let st := hb_logged [HbHandled t request] st in
              match HandleRegionHeartbeat t with
              | Some _ =>
                RegionHeartbeat_loop streamCtx turns
                  (hb_logged [HbSendErr ErrorType_UNKNOWN (RegionHeartbeatRequest_GetLeader request)
                                      (hb_err_taken t)] st)
              | None =>
                if hb_api_mode t then
                  match hb_to_scheduling t request st with
                  | (true, st) => (HbPanic, st)
                  | (false, st) => RegionHeartbeat_loop streamCtx turns st
                  end
                else RegionHeartbeat_loop streamCtx turns st
              end
        end
    end
  end.

(** [RegionHeartbeat]: the loop, and the deferred call when it is left. *)
Definition RegionHeartbeatHandler (streamCtx : Ctx) (turns : list HeartbeatTurn)
  : HeartbeatExit * HeartbeatStream :=
  match RegionHeartbeat_loop streamCtx turns heartbeat_stream_start with
  | (HbRunning, st) => (HbRunning, st)
  | (exit, st) => (exit, hb_cancel_if_set st)
  end.

End heartbeat.

(** * Specification vocabulary *)

Import tsoutil server.

(** ** TSO merge *)

(** The sum of the counts of a batch, as an integer. *)
Definition sum_counts (requests : list Request) : Z :=
  foldr (fun r acc => getCount r + acc) 0 requests.

(** A sub-request as the proxy can receive it: a [uint32] count, and a
    downstream stream that accepts the response. *)
Definition deliverable (r : Request) : Prop :=
  0 <= getCount r < 2 ^ 32 /\ send_result r = None.

(** A response that answers request [r] out of the upstream timestamp [ts]. *)
Definition answers (ts : Timestamp) (r : Request) (resp : TsoResponse) : Prop :=
  resp_Count resp = getCount r
  /\ Physical (resp_Timestamp resp) = Physical ts
  /\ SuffixBits (resp_Timestamp resp) = SuffixBits ts.

(** The logical values a delivered response stands for: [resp_Count] values
    one suffix step apart, the last of which is the timestamp carried. *)
Definition subrange (r : TsoResponse) : list Z :=
  let ts := resp_Timestamp r in
  (fun j => Logical ts - (resp_Count r - j) * 2 ^ SuffixBits ts)
    <$> seqZ 1 (resp_Count r).

(** Two streams ask for 3 and 5 timestamps; upstream answers (100, 80, 0). *)
Definition scenario_batch : list Request :=
  [mkRequest "tso-0" 3 None; mkRequest "tso-0" 5 None].

Definition scenario_stream : stream := fun _ => inl (mkTimestamp 100 80 0).

(** ** Request channel *)

Definition one_request : Request := mkRequest "tso-0" 1 None.

(** A full request channel with one sender parked on it. *)
Definition full_channel_one_parked : chan Request :=
  mkChan (replicate (Z.to_nat (maxMergeRequests + 1)) one_request) [one_request]
         (maxMergeRequests + 1).

(** A full request channel, nobody parked. *)
Definition full_channel : chan Request :=
  mkChan (replicate (Z.to_nat (maxMergeRequests + 1)) one_request) []
         (maxMergeRequests + 1).

(** ** Stream guards *)

(** The reply of a closed guard: its closed answer, at once, the stream
    untouched. *)
Definition closed_reply (g : Guard) (c : GuardCall) : Reply :=
  mkReply (Some (closed_answer g c)) false 0.

Definition slow_send : Call (option error) := mkCall (6 * second) None.
Definition quick_send : Call (option error) := mkCall 1 None.
Definition quick_recv : Call (option Z * option error) := mkCall 1 (Some 7, None).

(** ** Min-TS aggregation *)

Definition lex_lt (a b : option Timestamp) : Prop :=
  GetPhysical a < GetPhysical b
  \/ (GetPhysical a = GetPhysical b /\ GetLogical a < GetLogical b).

Definition positive (ts : option Timestamp) : Prop :=
  0 < CompareTimestamp ts (Some emptyTS).

(** The responses collected, in the order of collection. *)
Definition responses (answers : list (string * option GetMinTSResponse))
  : list GetMinTSResponse := omap snd answers.

Definition sum_serving (resps : list GetMinTSResponse) : Z :=
  foldr (fun r acc => KeyspaceGroupsServing r + acc) 0 resps.

(** The four conditions on the collected responses: one at least, the same
    positive total in all, the groups served adding up to it, and a
    positive timestamp among them. *)
Definition consistent (resps : list GetMinTSResponse) : Prop :=
  exists first,
    head resps = Some first
    /\ 0 < KeyspaceGroupsTotal first
    /\ Forall (fun r => KeyspaceGroupsTotal r = KeyspaceGroupsTotal first) resps
    /\ sum_serving resps = KeyspaceGroupsTotal first
    /\ Exists (fun r => positive (Timestamp_ r)) resps.

(** [ts] is the timestamp of a response, positive, and no positive
    timestamp of a response is smaller. *)
Definition min_positive (ts : Timestamp) (resps : list GetMinTSResponse) : Prop :=
  (exists r, r ∈ resps /\ Timestamp_ r = Some ts)
  /\ positive (Some ts)
  /\ forall r, r ∈ resps -> positive (Timestamp_ r) ->
       0 <= CompareTimestamp (Timestamp_ r) (Some ts).

(** Three TSO servers, one of which does not answer; the other two serve 1
    and 2 of 3 keyspace groups. *)
Definition three_of_three : list (string * option GetMinTSResponse) :=
  [("tso-0", Some (mkMinTS (Some (mkTimestamp 100 7 0)) 1 3));
   ("tso-1", None);
   ("tso-2", Some (mkMinTS (Some (mkTimestamp 99 9 0)) 2 3))].

(** ** Admission and forwarding *)

(** The handlers whose entry check compares the cluster id of the request. *)
Definition checks_cluster_id (r : RPC) : bool :=
  match entry_of r with
  | ViaUnaryMiddleware | SchedulingFirst | ViaFollowerMiddleware
  | ViaValidateRequest | TsoLoop => true
  | _ => false
  end.

(** The scheduling service does not take the request off the handler. *)
Definition scheduling_here (s : Server) : bool :=
  match scheduling s with
  | SchedulingInProcess | SchedulingNoClient => true
  | SchedulingUpdateFailed | SchedulingClientReady => false
  end.

(** The checks that come before the cluster id: the server is started, and
    it leads, or the handler permits follower handling and the context
    opts in; the handlers of the two heartbeat streams and the four that
    may hand over to the scheduling service first want a raft cluster, and
    the latter the scheduling service in this process; the TSO loop asks for
    neither leadership nor opt-in, but only compares the cluster id when
    the server allocates timestamps itself. *)
Definition passes_role (s : Server) (r : RPC) (ctx : Ctx) : bool :=
  negb (IsClosed s)
  && match entry_of r with
     | ViaFollowerMiddleware => IsLeader s || IsFollowerHandleEnabled ctx
     | TsoLoop => negb (tsoIndependent s)
     | ViaValidateRequest => hasRaftCluster s && IsLeader s
     | SchedulingFirst => hasRaftCluster s && scheduling_here s && IsLeader s
     | _ => IsLeader s
     end.

Definition with_cluster_id (header : option RequestHeader) (id : Z) : option RequestHeader :=
  Some (mkHeader id (GetSenderId header)).

(** Three servers of cluster 1: the leader, a follower, a closed one. *)
Definition leader_1 : Server :=
  mkServer false true 1 ["http://pd-0:2379"] 10 true true true false
           SchedulingInProcess ∅.
Definition follower_1 : Server :=
  mkServer false false 1 ["http://pd-1:2379"] 10 true true true false
           SchedulingInProcess ∅.
Definition closed_1 : Server :=
  mkServer true false 1 ["http://pd-2:2379"] 10 true true true false
           SchedulingInProcess ∅.

(** A leader of cluster 1 next to a scheduling service of its own. *)
Definition leader_with_scheduling : Server :=
  mkServer false true 1 ["http://pd-0:2379"] 10 true true true false
           SchedulingClientReady ∅.
Definition header_of_cluster_2 : option RequestHeader := Some (mkHeader 2 0).

Definition forward_to_leader : Ctx := mkCtx "http://pd-0:2379" false.

(** A delegate that answers with the forwarded host it is called with. *)
Definition echo_host : forwardFn string :=
  fun c _ => (Some (GetForwardedHost c), None).
Definition dial_ok : string -> nat + error := fun _ => inl 5%nat.

(** ** Dispatcher queues *)

(** The error a dispatcher leaves with, by the way it leaves. *)
Definition exit_cause (created : bool * option error) (events : list Event)
    (exit : Exit) (e : error) : Prop :=
  match exit with
  | CreateStreamFailed =>
    e = match created with
        | (_, Some err) => err
        | (_, None) => empty_stream_error
        end
  | IdleTimeout => e = idle_error
  | BatchFailed =>
    exists arrivals sent reply batch p,
      SelectRequest arrivals sent reply ∈ events
      /\ processRequests reply batch = Some p
      /\ returned p = Some e
  | _ => False
  end.

Definition abnormal (exit : Exit) : Prop :=
  exit = CreateStreamFailed \/ exit = BatchFailed \/ exit = IdleTimeout.

(** The context a cancellation found: that of the queue when the
    dispatcher started, or one cancelled since by the shutdown of the
    server. *)
Definition context_then (q : tsoRequestProxyQueue) (events : list Event)
    (ctx0 : Context) : Prop :=
  Cause ctx0 = Cause (ctx q)
  \/ (ServerShutdown ∈ events /\ Cause ctx0 = Some context_Canceled).

Definition first_request : Request := mkRequest "tso-0" 1 None.
Definition running : Context := mkContext None.

(** The dispatcher after the first request to "tso-0". *)
Definition one_queue : TSODispatcher :=
  after (DispatchRequest (mkDispatcher ∅ ∅) running first_request).

Definition upstream_down : stream :=
  fun _ => inr (status_Errorf Unavailable "not leader" []).

(** ** Store heartbeat *)

(** A store heartbeat that is handled locally and gets as far as the tee to
    the scheduling service. *)
Definition reaches_tee (s : Server) (ctx : Ctx) (header : option RequestHeader)
    (env : HeartbeatEnv) : Prop :=
  rateLimitDenied env = false
  /\ isLocalRequest s (GetForwardedHost ctx) = true
  /\ validateRoleInRequest s ctx header None = (None, None)
  /\ hasStats env = true /\ raftCluster env = true
  /\ checkStoreError env = false /\ storeFound env = true
  /\ hasStoreReport env = false /\ handleHeartbeatFails env = false
  /\ schedulingIndependent env = true.



(** A heartbeat that gets to the tee, for a given scheduling primary, dial
    and send. *)
Definition heartbeat_env (primaryAddr : string) (dialed : nat + error)
    (tee : option error) : HeartbeatEnv :=
  mkHeartbeatEnv false dial_ok (fun _ _ => (None, None)) true true false true false false
                 true primaryAddr dialed None None tee.

Definition empty_cache : SchedulingCache := mkCache None 0.

(** ** Deadlines *)

(** The deadlines the watcher takes from its channel before it returns, each
    with the way its wait ends. *)
Fixpoint taken (events : list DeadlineEvent) : list (TSDeadline * Waited) :=
  match events with
  | [] => []
  | WatcherDone :: _ => []
  | Deadline d WatcherCancelled :: _ => [(d, WatcherCancelled)]
  | Deadline d w :: events => (d, w) :: taken events
  end.

(** The requests whose downstream stream takes the response. *)
Definition accepted (r : Request) : Prop := send_result r = None.

(** Whether the dispatcher goroutine is still in its loop. *)
Definition still_running (exit : Exit) : bool :=
  match exit with
  | StillRunning => true
  | _ => false
  end.

(** The wait for a deadline ended because its timer fired. *)
Definition expired (w : Waited) : bool :=
  match w with
  | TimerExpired => true
  | _ => false
  end.

(** ** The GetMinTS handler *)



(** ** Relays *)

(** The timeout of the send of a guard. *)
Definition send_timeout (g : Guard) : Z :=
  match g with
  | tsoServer => DefaultTSOProxyTimeout
  | heartbeatServer | bucketHeartbeatServer => heartbeatSendTimeout
  end.

(** A turn of a relay that goes through: nobody closed the guard, the
    forward stream hands over a response, and the underlying stream takes it
    in time. *)
Definition relays {Resp} (g : Guard) (t : RelayTurn Resp) : bool :=
  negb (closed_meanwhile t)
  && match relay_recv t with
     | inl _ => true
     | inr _ => false
     end
  && match race (send_timeout g) (relay_tie t) (relay_send t) with
     | CallDone None => true
     | _ => false
     end.

(** The responses the forward stream hands over in the given turns. *)
Definition received {Resp} (turns : list (RelayTurn Resp)) : list Resp :=
  omap (fun t => match relay_recv t with
                 | inl resp => Some resp
                 | inr _ => None
                 end) turns.

(** A guard call that the stream answers in time and without error. *)
Definition healthy (g : Guard) (c : GuardCall) : bool :=
  match c with
  | DoSend tie c =>
    match race (send_timeout g) tie c with
    | CallDone None => true
    | _ => false
    end
  | DoRecv timeout tie c =>
    match g with
    | tsoServer =>
      match race timeout tie c with
      | CallDone (_, None) => true
      | _ => false
      end
    | heartbeatServer | bucketHeartbeatServer =>
      match result c with
      | (_, None) => true
      | _ => false
      end
    end
  end.

(** The time the stream takes for a call. *)
Definition call_latency (c : GuardCall) : Z :=
  match c with
  | DoSend _ c => latency c
  | DoRecv _ _ c => latency c
  end.

(** ** The scheduling client, over time *)

(** A record as [updateSchedulingClient] builds it: a client, and the
    primary it was dialled for. *)
Definition built (r : schedulingClient) : Prop :=
  is_Some (client r) /\ primary r <> "".

(** What the cache may hold: nothing, the empty record, or a built one. *)
Definition cache_ok (r : option schedulingClient) : Prop :=
  match r with
  | None => True
  | Some r => (client r = None /\ primary r = "") \/ built r
  end.

(** ** A closed server *)

(** The three RPCs on the global configuration. *)
Definition global_config (r : RPC) : bool :=
  match r with
  | StoreGlobalConfig | LoadGlobalConfig | WatchGlobalConfig => true
  | _ => false
  end.

(** The verdict is to serve the request here. *)
Definition serves (v : Verdict) : bool :=
  match v with
  | Serve _ => true
  | _ => false
  end.

(** ** Heartbeat streams *)

(** The turns bind no stream to the store. *)
Definition no_binding (storeID : Z) (turns : list hbstream.Turn) : Prop :=
  forall stream, hbstream.StreamUpdate storeID stream ∉ turns.

(** At a tick, the store is known and its stream takes the keepalive. *)
Definition alive (store : Z -> bool) (send : Z -> option error) (storeID : Z) : bool :=
  store storeID
  && match send storeID with
     | None => true
     | Some _ => false
     end.

(** Three stores, each with a stream of its own. *)
Definition three_streams : hbstream.HeartbeatStreams :=
  hbstream.mkStreams {[ 1 := 11%nat; 2 := 12%nat; 3 := 13%nat ]} [].

(** ** The TSO proxy *)

(** What holds of a [forwardTSO] between two turns of its loop: the counter
    is as it was when the loop began, the guard is open, every forward
    context created has been cancelled or is the current one, and every
    response passed on was watched by a deadline. *)
Definition proxy_inv (counter : Z) (p : Proxy) : Prop :=
  concurrentTSOProxyStreamings p = counter
  /\ proxy_closed p <> 1
  /\ (forall c, c ∈ created_ctxs p -> c ∈ cancelled_ctxs p \/ cancelForward p = Some c)
  /\ (length (proxied p) <= deadlines p)%nat.

(** A turn on which a request for one timestamp goes to "tso-0" and comes
    back. *)
Definition proxy_turn : ProxyTurn :=
  mkProxyTurn NoneDone (3 * second) false
              (mkCall 1 (Some (mkTsoRequest (Some (mkHeader 1 0)) 1), None))
              ("http://tso-0", true) dial_ok 1%nat (inl 2%nat) None None None None
              (inl (mkTsopbResponse 1 None 1 (Some (mkTimestamp 100 80 0)))) false
              false quick_send.

(** ** The TSO stream *)

(** The host has no queue, or one whose context is not cancelled. *)
Definition host_ready (d : TSODispatcher) (host : string) : Prop :=
  match dispatchChs d !! host with
  | None => True
  | Some addr => exists q, queues d !! addr = Some q /\ Cause (ctx q) = None
  end.

(** What [Tso] returns for an error it waited for: nil for [io.EOF], and
    the error under a stack otherwise. *)
Definition reported (e : error) : option error :=
  match e with
  | io_EOF => None
  | _ => Some (WithStack e)
  end.

(** A turn of a TSO stream on a running server: the dial succeeds, the
    client takes the response, the allocator answers (100, 80, 0). *)
Definition tso_turn : TsoTurn :=
  mkTsoTurn false ("", false) dial_ok running None (mkTimestamp 100 80 0, None) None.

(** A response that answers a request received in one of the events, on a
    turn that passed the checks of the loop: the server was not closed, the
    cluster id of the request was that of the server, and the allocator
    answered without error; the response carries the regular header, the
    count of the request and the timestamp of the allocator. *)
Definition answers_checked (s : Server) (events : list TsoEvent)
    (resp : LocalTsoResponse) : Prop :=
  exists request t,
    StreamRecv request None t ∈ events
    /\ tso_is_closed t = false
    /\ GetClusterId (TsoRequest_GetHeader request) = ClusterID s
    /\ tso_allocated t = (local_Timestamp resp, None)
    /\ tso_stream_send t = None
    /\ local_Count resp = TsoRequest_GetCount request
    /\ local_Header resp = wrapHeader s.

(** No dispatcher goroutine runs among the events. *)
Definition no_dispatcher_runs (events : list TsoEvent) : Prop :=
  forall addr host created devents, DispatcherRuns addr host created devents ∉ events.

(** ** The global timestamp *)

(** The error makes [getGlobalTSO] try again. *)
Definition retryable (e : StreamError) : bool := is_not_leader e || need_rebuild e.

(** The error for which a turn of the retry loop, once it has its stream,
    is tried again: that of the send, or else that of the receive. *)
Definition retried (a : GlobalTSOAttempt) : option StreamError :=
  match attempt_send a with
  | Some e => if retryable e then Some e else None
  | None =>
    match attempt_recv a with
    | inr e => if retryable e then Some e else None
    | inl _ => None
    end
  end.

(** A turn on which "tso-0" is the primary and the stream does as given. *)
Definition attempt_on (stream : nat + error) (send : option StreamError)
    (recv : option Timestamp + StreamError) : GlobalTSOAttempt :=
  mkAttempt ("http://tso-0", true) None dial_ok stream send recv.

Definition connection_reset : StreamError :=
  mkStreamError (status_Errorf Unavailable "connection reset" []) false true.

(** The first turn fails with a reset connection, the second answers
    (100, 80, 0) on a new stream. *)
Definition reset_then_ok (i : nat) : GlobalTSOAttempt :=
  match i with
  | O => attempt_on (inl 21%nat) (Some connection_reset) (inl None)
  | _ => attempt_on (inl 22%nat) None (inl (Some (mkTimestamp 100 80 0)))
  end.

(** ** The watch on the global configuration *)

(** A turn of the watch that keeps it going: a response without error
    whose changes, if it has any, the client takes. *)
Definition goes_on (t : WatchTurn) : bool :=
  match t with
  | WatchChan res send =>
    match watch_Err res, send, watch_changes (watch_Events res) with
    | None, None, _ => true
    | None, Some _, [] => true
    | _, _, _ => false
    end
  | _ => false
  end.

(** The responses with changes that such turns send. *)
Definition change_responses (turns : list WatchTurn) : list WatchGlobalConfigResponse :=
  omap (fun t =>
          match t with
          | WatchChan res _ =>
            match watch_changes (watch_Events res) with
            | [] => None
            | cfgs => Some (mkWatchGlobalConfigResponse None cfgs (watch_Revision res))
            end
          | _ => None
          end) turns.

(** The revision the watch has got to: that of the last response, or the
    one it started from. *)
Definition last_revision (turns : list WatchTurn) (revision : Z) : Z :=
  foldl (fun revision t =>
           match t with
           | WatchChan res _ => watch_Revision res
           | _ => revision
           end) revision turns.

(** The response that reports the error of a watch response at a
    revision. *)
Definition error_response (revision : Z) (res : WatchResponse) : WatchGlobalConfigResponse :=
  if bool_decide (revision < CompactRevision res)
  then mkWatchGlobalConfigResponse (Some (DATA_COMPACTED revision (CompactRevision res))) [] 0
  else mkWatchGlobalConfigResponse (Some WATCH_UNKNOWN) [] 0.

(** A put of "k" at revision 7, a delete whose previous pair is gone at
    revision 8, and a watch error with compact revision 9. *)
Definition put_k : WatchTurn :=
  WatchChan (mkWatchResponse None 0 7
               [mkWatchEvent EventTypePut (mkKeyValue "k" "v") None]) None.
Definition stale_delete : WatchTurn :=
  WatchChan (mkWatchResponse None 0 8
               [mkWatchEvent EventTypeDelete (mkKeyValue "k" "") None]) None.
Definition compacted : WatchResponse :=
  mkWatchResponse (Some (errors_New "required revision has been compacted")) 9 0 [].

(** ** The synchronisation of the maximal timestamp *)

(** The dc-locations of the allocators that are leaders when the check
    loop, or the write loop, asks. *)
Definition dcs_at_check (allocators : list Allocator) : list string :=
  GetDCLocation <$> List.filter leader_at_check allocators.

Definition dcs_at_write (allocators : list Allocator) : list string :=
  GetDCLocation <$> List.filter leader_at_write allocators.

(** The timestamp that [GetCurrentTSO] answers for an allocator. *)
Definition current_tso (a : Allocator) : option Timestamp := (GetCurrentTSO a).1.

(** Timestamp [m] is at least the current timestamp of every allocator
    that led when the check loop asked, and each of them answered. *)
Definition above_leaders (m : option Timestamp) (allocators : list Allocator) : Prop :=
  forall a, a ∈ allocators -> leader_at_check a = true ->
    (GetCurrentTSO a).2 = None /\ 0 <= CompareTimestamp m (current_tso a).

(** The timestamp one logical step further, in [int64]. *)
Definition next_logical (ts : Timestamp) : Timestamp :=
  mkTimestamp (Physical ts) (wrap_i64 (Logical ts + 1)) (SuffixBits ts).

(** Two leaders at 10 and at 12, asked to move to 20 and to 12. *)
Definition dc_1 : Allocator := mkAllocator true (Some (mkTimestamp 10 0 0), None) true None "dc-1".
Definition dc_2 : Allocator := mkAllocator true (Some (mkTimestamp 12 0 0), None) true None "dc-2".

(** ** Bucket reports *)

(** What the log of a [ReportBuckets] stream holds: the contexts it
    cancelled, the requests it forwarded, the responses its relay passed
    on, the reports it handed to the cluster, and the responses it sent
    itself. *)
Definition bucket_cancels (log : list BucketEvent) : list nat :=
  omap (fun ev => match ev with CancelCalled ctx => Some ctx | _ => None end) log.

Definition bucket_forwarded (log : list BucketEvent) : list (option ReportBucketsRequest) :=
  omap (fun ev => match ev with ForwardSent request => Some request | _ => None end) log.

Definition bucket_relayed (log : list BucketEvent) : list ReportBucketsResponse :=
  omap (fun ev => match ev with RelayedToClient resp => Some resp | _ => None end) log.

Definition bucket_handled (log : list BucketEvent)
  : list (Server * option ReportBucketsRequest * Buckets) :=
  omap (fun ev =>
          match ev with
          | ReportHandled s request buckets => Some (s, request, buckets)
          | _ => None
          end) log.

Definition bucket_answers (log : list BucketEvent) : list ReportBucketsResponse :=
  omap (fun ev => match ev with ResponseSent resp => Some resp | _ => None end) log.

(** A report the cluster may be handed on a stream of forwarded host
    [host]: the server found the host local, had a cluster and accepted the
    header, and the buckets are those of the request and have keys. *)
Definition report_accepted (host : string)
    (h : Server * option ReportBucketsRequest * Buckets) : Prop :=
  let '(s, request, buckets) := h in
  isLocalRequest s host = true
  /\ hasRaftCluster s = true
  /\ validateRequest s (ReportBucketsRequest_GetHeader request) = None
  /\ ReportBucketsRequest_GetBuckets request = Some buckets
  /\ buckets_Keys buckets <> [].

(** The answer of a server without a cluster. *)
Definition not_bootstrapped_answer (resp : ReportBucketsResponse) : Prop :=
  exists s, hasRaftCluster s = false
            /\ resp = mkReportBucketsResponse (notBootstrappedHeader s).

(** What a [ReportBuckets] stream keeps true while its loop runs: it has
    cancelled nothing and answered nothing itself, every report handed to
    the cluster was accepted, it forwards only for a forwarded host, and
    either it has no forward stream, no relay, an open guard and nothing
    forwarded or relayed, or it has the one forward stream it created, for
    the host. *)
Definition bucket_keeps (host : string) (st : BucketStream) : Prop :=
  let log := bucket_log st in
  bucket_cancels log = []
  /\ bucket_answers log = []
  /\ Forall (report_accepted host) (bucket_handled log)
  /\ (bucket_contexts log = [] /\ bucket_cancel st = None
      /\ bucket_forwardStream st = None /\ bucket_closed st = 0
      /\ bucket_relay_runs st = false
      /\ bucket_relayed log = [] /\ bucket_forwarded log = []
      \/ exists client, bucket_contexts log = [client]
         /\ bucket_cancel st = Some 0%nat
         /\ bucket_forwardStream st = Some 0%nat
         /\ bucket_lastForwardedHost st = host
         /\ host <> "").

(** What holds of the stream when the loop is left with [ret], before the
    deferred calls. *)
Definition bucket_left (host : string) (ret : Returned) (st : BucketStream) : Prop :=
  let log := bucket_log st in
  bucket_cancels log = []
  /\ Forall (report_accepted host) (bucket_handled log)
  /\ (bucket_forwarded log <> [] -> host <> "" /\ bucket_contexts log <> [])
  /\ (bucket_relayed log <> [] -> bucket_contexts log <> [])
  /\ (bucket_contexts log = [] /\ bucket_cancel st = None
      \/ exists client, bucket_contexts log = [client] /\ bucket_cancel st = Some 0%nat)
  /\ match ret with
     | Running => bucket_answers log = []
     | Return e =>
       (bucket_answers log = []
        \/ exists resp, bucket_answers log = [resp] /\ not_bootstrapped_answer resp)
       /\ (e = None ->
           bucket_answers log <> []
           \/ (bucket_contexts log <> [] /\ bucket_closed st = 1))
     end.

(** A turn that the handler serves itself: the request arrives, the
    forwarded host is local, the server has a cluster and accepts the
    header. *)
Definition served_here (host : string) (t : BucketTurn) : Prop :=
  (result (bucket_recv t)).2 = None
  /\ isLocalRequest (bucket_server t) host = true
  /\ hasRaftCluster (bucket_server t) = true
  /\ validateRequest (bucket_server t)
       (ReportBucketsRequest_GetHeader (result (bucket_recv t)).1) = None.

(** The reports with keys that the requests of the turns carry. *)
Definition reports_of (turns : list BucketTurn)
  : list (Server * option ReportBucketsRequest * Buckets) :=
  omap (fun t =>
          let request := (result (bucket_recv t)).1 in
          match ReportBucketsRequest_GetBuckets request with
          | Some buckets =>
            if bool_decide (buckets_Keys buckets = []) then None
            else Some (bucket_server t, request, buckets)
          | None => None
          end) turns.

(** ** Region heartbeats *)

Import heartbeat.

(** What the log of a [RegionHeartbeat] stream holds: the calls of
    [cancel] and of [cancel1], the requests forwarded to another member
    and those sent to the scheduling service, the times the guard was
    handed to another goroutine (a relay, or the streams of a store), the
    error messages sent, the heartbeats handed to the cluster, and the
    responses the handler sent itself. *)
Definition is_cancel (ev : HeartbeatEvent) : option nat :=
  match ev with HbCancelCalled ctx => Some ctx | _ => None end.
Definition is_cancel1 (ev : HeartbeatEvent) : option nat :=
  match ev with HbCancel1Called ctx => Some ctx | _ => None end.
Definition is_forwarded (ev : HeartbeatEvent) : option (option RegionHeartbeatRequest) :=
  match ev with HbForwardSent request => Some request | _ => None end.
Definition is_scheduled (ev : HeartbeatEvent)
  : option (HeartbeatTurn * option RegionHeartbeatRequest) :=
  match ev with HbSchedulingSent t request => Some (t, request) | _ => None end.
Definition is_handover (ev : HeartbeatEvent) : option (option Z) :=
  match ev with
  | HbRelayStarted => Some None
  | HbBindStream storeID true => Some (Some storeID)
  | _ => None
  end.
Definition is_send_err (ev : HeartbeatEvent)
  : option (ErrorType * option hbstream.Peer * bool) :=
  match ev with
  | HbSendErr errType targetPeer taken => Some (errType, targetPeer, taken)
  | _ => None
  end.
Definition is_handled (ev : HeartbeatEvent)
  : option (HeartbeatTurn * option RegionHeartbeatRequest) :=
  match ev with HbHandled t request => Some (t, request) | _ => None end.
Definition is_answer (ev : HeartbeatEvent) : option RegionHeartbeatResponse :=
  match ev with HbResponseSent resp => Some resp | _ => None end.

Definition hb_cancels (log : list HeartbeatEvent) := omap is_cancel log.
Definition hb_cancel1s (log : list HeartbeatEvent) := omap is_cancel1 log.
Definition hb_forwarded (log : list HeartbeatEvent) := omap is_forwarded log.
Definition hb_scheduled (log : list HeartbeatEvent) := omap is_scheduled log.
Definition hb_handovers (log : list HeartbeatEvent) := omap is_handover log.
Definition hb_send_errs (log : list HeartbeatEvent) := omap is_send_err log.
Definition hb_handled (log : list HeartbeatEvent) := omap is_handled log.
Definition hb_answers (log : list HeartbeatEvent) := omap is_answer log.

(** The region of a turn passes the checks of the handler: it has a
    leader, an id and peers. *)
Definition region_ok (t : HeartbeatTurn) : bool :=
  negb (bool_decide (region_Leader (hb_region t) = None))
  && negb (bool_decide (region_ID (hb_region t) = 0))
  && negb (bool_decide (region_Peers (hb_region t) = [])).

(** A turn that the handler serves itself, up to the region: the request
    arrives, the forwarded host is local, the server has a cluster that
    knows the store of the leader, and accepts the header. *)
Definition hb_served_here (host : string) (t : HeartbeatTurn) : Prop :=
  (result (hb_recv t)).2 = None
  /\ isLocalRequest (hb_server t) host = true
  /\ hasRaftCluster (hb_server t) = true
  /\ GrpcServer_validateRequest (hb_server t)
       (RegionHeartbeatRequest_GetHeader (result (hb_recv t)).1) = None
  /\ hb_store t = true.

(** A heartbeat the cluster may be handed on a stream of forwarded host
    [host]: it is the request of a turn served here whose region passes
    the checks. *)
Definition heartbeat_accepted (host : string)
    (h : HeartbeatTurn * option RegionHeartbeatRequest) : Prop :=
  let '(t, request) := h in
  hb_served_here host t
  /\ (result (hb_recv t)).1 = request
  /\ region_ok t = true.

(** A heartbeat sent to the scheduling service, given those handed to the
    cluster: the cluster handled it without error, in API service mode. *)
Definition heartbeat_scheduled (handled : list (HeartbeatTurn * option RegionHeartbeatRequest))
    (h : HeartbeatTurn * option RegionHeartbeatRequest) : Prop :=
  h ∈ handled /\ hb_api_mode h.1 = true /\ HandleRegionHeartbeat h.1 = None.

(** The answer of a server without a cluster. *)
Definition hb_not_bootstrapped_answer (resp : RegionHeartbeatResponse) : Prop :=
  exists s, hasRaftCluster s = false
            /\ resp = mkRegionHeartbeatResponse (notBootstrappedHeader s).

(** The error message a served turn gets: one for a region that fails the
    checks or that the cluster refuses, addressed to the leader of the
    request, and none otherwise. *)
Definition rejection (t : HeartbeatTurn) : option (ErrorType * option hbstream.Peer * bool) :=
  if region_ok t && bool_decide (HandleRegionHeartbeat t = None) then None
  else Some (ErrorType_UNKNOWN,
             RegionHeartbeatRequest_GetLeader (result (hb_recv t)).1, hb_err_taken t).

(** The heartbeats of served turns that reach the cluster. *)
Definition handed_over (turns : list HeartbeatTurn)
  : list (HeartbeatTurn * option RegionHeartbeatRequest) :=
  omap (fun t => if region_ok t then Some (t, (result (hb_recv t)).1) else None) turns.

(** A turn on which nobody else closes the guard and the creation of the
    scheduling stream does not panic. *)
Definition hb_quiet (t : HeartbeatTurn) : Prop :=
  hb_closed_meanwhile t = false
  /\ forall client, hb_sched_create t client <> SchedCreatePanics.

(** What a [RegionHeartbeat] stream keeps true while its loop runs. *)
Definition hb_keeps (host : string) (st : HeartbeatStream) : Prop :=
  let log := hb_log st in
  hb_cancels log = []
  /\ hb_answers log = []
  /\ Forall (heartbeat_accepted host) (hb_handled log)
  /\ Forall (heartbeat_scheduled (hb_handled log)) (hb_scheduled log)
  /\ Forall (fun e => e.1.1 = ErrorType_UNKNOWN) (hb_send_errs log)
  /\ hb_cancel1s log = seq 0 (pred (length (scheduling_contexts log)))
  /\ hb_cancel1 st = (if bool_decide (scheduling_contexts log = []) then None
                      else Some (pred (length (scheduling_contexts log))))
  /\ (hb_closed st = 1 -> hb_shared st = true)
  /\ (hb_shared st = true -> hb_handovers log <> [])
  /\ (forward_contexts log = [] /\ hb_cancel st = None
      /\ hb_forwardStream st = None /\ hb_forwarded log = []
      \/ exists client, forward_contexts log = [client]
         /\ hb_cancel st = Some 0%nat
         /\ hb_forwardStream st = Some 0%nat
         /\ hb_lastForwardedHost st = host
         /\ host <> "").

(** What holds of the stream when the loop is left with [exit], before the
    deferred call. *)
Definition hb_left (host : string) (exit : HeartbeatExit) (st : HeartbeatStream) : Prop :=
  let log := hb_log st in
  hb_cancels log = []
  /\ Forall (heartbeat_accepted host) (hb_handled log)
  /\ Forall (heartbeat_scheduled (hb_handled log)) (hb_scheduled log)
  /\ Forall (fun e => e.1.1 = ErrorType_UNKNOWN) (hb_send_errs log)
  /\ hb_cancel1s log = seq 0 (pred (length (scheduling_contexts log)))
  /\ (hb_forwarded log <> [] -> host <> "" /\ forward_contexts log <> [])
  /\ (forward_contexts log = [] /\ hb_cancel st = None
      \/ exists client, forward_contexts log = [client] /\ hb_cancel st = Some 0%nat)
  /\ match exit with
     | HbReturn e =>
       (hb_answers log = []
        \/ exists resp, hb_answers log = [resp] /\ hb_not_bootstrapped_answer resp)
       /\ (e = None ->
           hb_answers log <> [] \/ (hb_closed st = 1 /\ hb_handovers log <> []))
     | _ => hb_answers log = []
     end.

(** What the turns served here can change of a stream: the flag of the
    guard, the heartbeats handed to the cluster, the error messages, the
    forward contexts, the requests forwarded and the answers. *)
Definition hb_view (st : HeartbeatStream) :=
  (hb_closed st, hb_handled (hb_log st), hb_send_errs (hb_log st),
   forward_contexts (hb_log st), hb_forwarded (hb_log st), hb_answers (hb_log st)).

(** * Theorems *)

(** ** Fixed-width arithmetic *)

Lemma wrap_i64_small z : - 2 ^ 63 <= z < 2 ^ 63 -> wrap_i64 z = z.
Proof. intros H. unfold wrap_i64. rewrite Z.mod_small; lia. Qed.

Lemma wrap_u32_small z : 0 <= z < 2 ^ 32 -> wrap_u32 z = z.
Proof. intros H. unfold wrap_u32. rewrite Z.mod_small; lia. Qed.

Lemma shl_i64_small x s :
  0 <= s -> - 2 ^ 63 <= x * 2 ^ s < 2 ^ 63 -> shl_i64 x s = x * 2 ^ s.
Proof.
  intros Hs Hx. unfold shl_i64. rewrite Z.shiftl_mul_pow2 by done.
  by apply wrap_i64_small.
Qed.

Lemma addLogical_exact l c s :
  0 <= s -> - 2 ^ 63 <= c * 2 ^ s < 2 ^ 63 -> - 2 ^ 63 <= l + c * 2 ^ s < 2 ^ 63 ->
  addLogical l c s = l + c * 2 ^ s.
Proof.
  intros Hs Hc Hl. unfold addLogical. rewrite shl_i64_small by done.
  by apply wrap_i64_small.
Qed.

(** ** The TSO merge *)

Lemma sum_counts_nonneg requests :
  Forall deliverable requests -> 0 <= sum_counts requests.
Proof.
  induction 1 as [|r rs [Hr _] _ IH]; simpl; lia.
Qed.

Lemma mergeCount_from requests acc :
  Forall deliverable requests -> 0 <= acc -> acc + sum_counts requests < 2 ^ 32 ->
  fold_left (fun count request => wrap_u32 (count + getCount request)) requests acc
  = acc + sum_counts requests.
Proof.
  intros Hall. revert acc.
  induction Hall as [|r rs [Hr _] Hrs IH]; intros acc Hacc Hsum; simpl in *.
  - lia.
  - pose proof (sum_counts_nonneg rs Hrs).
    rewrite wrap_u32_small by lia. rewrite IH by lia. lia.
Qed.

Lemma mergeCount_exact requests :
  Forall deliverable requests -> sum_counts requests < 2 ^ 32 ->
  mergeCount requests = sum_counts requests.
Proof. intros. unfold mergeCount. rewrite mergeCount_from; [lia|done|lia|lia]. Qed.

Lemma subrange_shift (c c0 fl s physical : Z) :
  0 <= c ->
  subrange (mkTsoResponse c (mkTimestamp physical (fl + (c0 + c) * 2 ^ s) s))
  = (fun j => fl + j * 2 ^ s) <$> seqZ (c0 + 1) c.
Proof.
  intros Hc. unfold subrange; simpl.
  rewrite <- (fmap_add_seqZ c0 1 c), <- list_fmap_compose.
  apply list_fmap_ext. intros _ j _. simpl. lia.
Qed.

Lemma finishRequest_from_spec requests : forall c0 physical fl s,
  Forall deliverable requests ->
  0 <= s -> 0 <= c0 ->
  (c0 + sum_counts requests) * 2 ^ s < 2 ^ 63 ->
  - 2 ^ 63 <= fl ->
  fl + (c0 + sum_counts requests) * 2 ^ s < 2 ^ 63 ->
  exists resps,
    finishRequest_from requests c0 physical fl s = (resps, None)
    /\ Forall2 (answers (mkTimestamp physical fl s)) requests resps
    /\ concat (subrange <$> resps)
       = (fun j => fl + j * 2 ^ s) <$> seqZ (c0 + 1) (sum_counts requests).
Proof.
  induction requests as [|r rs IH]; intros c0 physical fl s Hall Hs Hc0 Hshift Hlo Hhi.
  - exists []. simpl. split_and!; [done | constructor | done].
  - inversion Hall as [|? ? [Hr Hsend] Hrs]; subst. simpl in Hshift, Hhi.
    pose proof (sum_counts_nonneg rs Hrs) as Hpos.
    assert (Hp : 1 <= 2 ^ s) by (pose proof (Z.pow_pos_nonneg 2 s); lia).
    assert (Hstep : 0 <= (c0 + getCount r) * 2 ^ s <= (c0 + (getCount r + sum_counts rs)) * 2 ^ s)
      by nia.
    assert (Hfit : c0 + getCount r < 2 ^ 63) by nia.
    destruct (IH (c0 + getCount r) physical fl s) as (resps & Hrun & Hans & Hcat);
      [done | done | lia | by rewrite <- Z.add_assoc | done | by rewrite <- Z.add_assoc |].
    eexists. simpl. unfold postProcess. rewrite Hsend.
    rewrite (wrap_i64_small (c0 + getCount r)) by lia. rewrite Hrun. simpl.
    rewrite addLogical_exact by lia.
    split; [reflexivity|]. split.
    + constructor; [by repeat split | done].
    + rewrite fmap_cons. cbn [concat]. rewrite Hcat, subrange_shift by lia.
      rewrite <- fmap_app. f_equal.
      rewrite (seqZ_app (c0 + 1)) by lia. f_equal. f_equal. lia.
Qed.

Lemma answers_physical physical fl ts r resp :
  physical = Physical ts ->
  answers (mkTimestamp physical fl (SuffixBits ts)) r resp -> answers ts r resp.
Proof. intros -> H. exact H. Qed.

Lemma concat_disjoint {A} (ls : list (list A)) i j (li lj : list A) x :
  NoDup (concat ls) -> i <> j ->
  ls !! i = Some li -> ls !! j = Some lj -> x ∈ li -> x ∉ lj.
Proof.
  revert i j. induction ls as [|l ls IH]; intros i j Hnd Hij Hi Hj Hx; [done|].
  cbn [concat] in Hnd. apply NoDup_app in Hnd as (Hl & Hsep & Hrest).
  destruct i as [|i], j as [|j]; simpl in *; simplify_eq.
  - intros Hy. apply (Hsep x Hx). apply list_elem_of_In, in_concat. exists lj.
    split; apply list_elem_of_In; [by eapply list_elem_of_lookup_2 | done].
  - intros Hy. apply (Hsep x Hy). apply list_elem_of_In, in_concat. exists li.
    split; apply list_elem_of_In; [by eapply list_elem_of_lookup_2 | done].
  - eapply (IH i j); eauto.
Qed.

Example scenario_split :
  processRequests scenario_stream scenario_batch
  = Some (mkProcessed 8 (Some 72)
            [mkTsoResponse 3 (mkTimestamp 100 75 0);
             mkTsoResponse 5 (mkTimestamp 100 80 0)] None)
  /\ subrange (mkTsoResponse 3 (mkTimestamp 100 75 0)) = [73; 74; 75]
  /\ subrange (mkTsoResponse 5 (mkTimestamp 100 80 0)) = [76; 77; 78; 79; 80].
Proof. by vm_compute. Qed.

(** C1, within the range of the integer types. For a batch of K >= 1
    sub-requests with [uint32] counts c1..cK whose sum N stays below 2^32,
    every downstream send succeeding, and an upstream response (physical, L,
    s) for which N*2^s and L - N*2^s fit an [int64]: [processRequests] sends
    one merged request of count N, takes L - N*2^s as first logical, and
    [finishRequest] answers the K requests in batch order, each with its own
    count and the physical part and suffix bits of the response; laid end to
    end the sub-ranges are exactly first logical + j*2^s for j = 1..N, hence
    contiguous, N values in all, and no value is handed out twice. *)
Theorem C1_tso_merge_split (forwardStream : stream) (requests : list Request)
    (ts : Timestamp) :
  requests <> [] ->
  Forall deliverable requests ->
  sum_counts requests < 2 ^ 32 ->
  forwardStream (sum_counts requests) = inl ts ->
  0 <= SuffixBits ts ->
  Logical ts < 2 ^ 63 ->
  sum_counts requests * 2 ^ SuffixBits ts < 2 ^ 63 ->
  - 2 ^ 63 <= Logical ts - sum_counts requests * 2 ^ SuffixBits ts ->
  exists resps,
    processRequests forwardStream requests
    = Some (mkProcessed (sum_counts requests)
              (Some (Logical ts - sum_counts requests * 2 ^ SuffixBits ts))
              resps None)
    /\ Forall2 (answers ts) requests resps
    /\ concat (subrange <$> resps)
       = (fun j => Logical ts - sum_counts requests * 2 ^ SuffixBits ts
                   + j * 2 ^ SuffixBits ts)
         <$> seqZ 1 (sum_counts requests)
    /\ (forall i j ri rj x, i <> j -> resps !! i = Some ri -> resps !! j = Some rj ->
        x ∈ subrange ri -> x ∉ subrange rj).
Proof.
  intros Hne Hall Hsum Hreply Hs Hhi Hshift Hlo.
  pose proof (sum_counts_nonneg requests Hall) as Hpos.
  set (N := sum_counts requests) in *. set (s := SuffixBits ts) in *.
  assert (Hp : 1 <= 2 ^ s) by (pose proof (Z.pow_pos_nonneg 2 s); lia).
  assert (HN : N <= N * 2 ^ s) by nia.
  destruct (finishRequest_from_spec requests 0 (Physical ts) (Logical ts - N * 2 ^ s) s)
    as (resps & Hrun & Hans & Hcat); [done | done | lia | fold N; lia | lia | fold N; lia |].
  fold N in Hcat. simpl in Hcat.
  assert (Hproc : processRequests forwardStream requests
                  = Some (mkProcessed N (Some (Logical ts - N * 2 ^ s)) resps None)).
  { unfold processRequests. rewrite mergeCount_exact by done. fold N.
    destruct requests as [|r rs]; [done|].
    unfold process. rewrite Hreply. fold s.
    rewrite (wrap_i64_small (- N)) by lia.
    rewrite addLogical_exact by lia.
    replace (Logical ts + - N * 2 ^ s) with (Logical ts - N * 2 ^ s) by lia.
    unfold finishRequest. by rewrite Hrun. }
  exists resps. split_and!; [done | | done |].
  - eapply Forall2_impl; [exact Hans|]. intros r resp H. by eapply answers_physical.
  - intros i j ri rj x Hij Hi Hj.
    apply (concat_disjoint (subrange <$> resps) i j); [|done|..].
    + rewrite Hcat. apply NoDup_fmap_2; [|apply NoDup_seqZ].
      intros a b Hab. nia.
    + by rewrite list_lookup_fmap, Hi.
    + by rewrite list_lookup_fmap, Hj.
Qed.

Lemma C1_tso_merge_split_witness :
  exists resps,
    processRequests scenario_stream scenario_batch
    = Some (mkProcessed 8 (Some 72) resps None)
    /\ Forall2 (answers (mkTimestamp 100 80 0)) scenario_batch resps
    /\ concat (subrange <$> resps) = (fun j => 72 + j * 1) <$> seqZ 1 8
    /\ (forall i j ri rj x, i <> j -> resps !! i = Some ri -> resps !! j = Some rj ->
        x ∈ subrange ri -> x ∉ subrange rj).
Proof.
  apply (C1_tso_merge_split scenario_stream scenario_batch (mkTimestamp 100 80 0)).
  - discriminate.
  - repeat constructor; simpl; lia.
  - reflexivity.
  - reflexivity.
  - simpl; lia.
  - reflexivity.
  - reflexivity.
  - discriminate.
Defined.

(** C1 beyond that range: the merged count is a [uint32] and the shifted
    count an [int64]. Two requests of 2^31 timestamps each go upstream as a
    request for none, and the first logical is the logical of the response;
    with 63 suffix bits a count of 2 shifts to 0. *)
Lemma C1_counterexample :
  let requests := [mkRequest "tso-0" (2 ^ 31) None; mkRequest "tso-0" (2 ^ 31) None] in
  let ts := mkTimestamp 100 80 0 in
  let ts63 := mkTimestamp 100 80 63 in
  Forall deliverable requests
  /\ (exists p, processRequests (fun _ => inl ts) requests = Some p
      /\ sent_count p = 0
      /\ sent_count p <> sum_counts requests
      /\ first_logical p = Some 80
      /\ first_logical p <> Some (Logical ts - sum_counts requests * 2 ^ SuffixBits ts))
  /\ (exists p, processRequests (fun _ => inl ts63) [mkRequest "tso-0" 2 None] = Some p
      /\ sent_count p = 2
      /\ first_logical p = Some 80
      /\ first_logical p <> Some (Logical ts63 - 2 * 2 ^ SuffixBits ts63)).
Proof.
  split_and!.
  - repeat constructor; simpl; lia.
  - eexists. split; [reflexivity|]. by vm_compute.
  - eexists. split; [reflexivity|]. by vm_compute.
Qed.

(** ** The batch of the dispatcher *)

Lemma chan_recv_buffered {A} (ch : chan A) :
  (0 < length (buf ch))%nat ->
  exists x ch', chan_recv ch = Some (x, ch')
    /\ (length (buf ch) - 1 <= length (buf ch'))%nat
    /\ (sendq ch = [] -> length (buf ch') = (length (buf ch) - 1)%nat /\ sendq ch' = [])
    /\ (sendq ch <> [] -> length (buf ch') = length (buf ch)).
Proof.
  intros Hlen. unfold chan_recv.
  destruct (buf ch) as [|x rest]; simpl in *; [lia|].
  destruct (sendq ch) as [|y parked]; eexists _, _; (split; [reflexivity|]); simpl.
  - split_and!; [lia | intros _; split; [lia | done] | done].
  - rewrite length_app; simpl. split_and!; [lia | done | lia].
Qed.

(** The drain loop from index [i] over [n] buffered values: it ends well when
    the indices fit the slice, and otherwise panics at the length of the
    slice. *)
Lemma drain_spec n : forall i requests ch,
  (n <= length (buf ch))%nat -> (i <= length requests)%nat ->
  if bool_decide (i + n <= length requests)%nat
  then exists requests' ch', drain (seq i n) requests ch = inl (Some (requests', ch'))
         /\ length requests' = length requests
  else drain (seq i n) requests ch = inr (length requests).
Proof.
  induction n as [|n IH]; intros i requests ch Hbuf Hi; simpl.
  - rewrite bool_decide_eq_true_2 by lia. by eexists _, _.
  - destruct (chan_recv_buffered ch) as (x & ch' & -> & Hlen & _); [lia|].
    unfold slice_set. destruct (decide (i < length requests)%nat) as [Hin|Hin].
    + rewrite (bool_decide_eq_true_2 (i < length requests)%nat) by done.
      specialize (IH (S i) (<[i := Some x]> requests) ch').
      rewrite length_insert in IH.
      destruct (decide (i + S n <= length requests)%nat) as [Hfit|Hfit].
      * rewrite bool_decide_eq_true_2 by lia.
        rewrite bool_decide_eq_true_2 in IH by lia. apply IH; lia.
      * rewrite bool_decide_eq_false_2 by lia.
        rewrite bool_decide_eq_false_2 in IH by lia. apply IH; lia.
    + rewrite (bool_decide_eq_false_2 (i < length requests)%nat) by done.
      rewrite bool_decide_eq_false_2 by lia. f_equal. lia.
Qed.

(** With no sender parked on the channel and no send racing the receive of
    the first request, the batch fits the slice. *)
Lemma collect_quiet_in_bounds (ch : chan Request) :
  sendq ch = [] -> (0 < length (buf ch))%nat ->
  Z.of_nat (length (buf ch)) <= maxMergeRequests + 1 ->
  exists requests ch',
    collect ch [] make_requests = Batch (length (buf ch)) requests ch'
    /\ Z.of_nat (length (buf ch)) - 1 <= maxMergeRequests.
Proof.
  intros Hq Hne Hcap. unfold collect.
  destruct (chan_recv_buffered ch Hne) as (first & ch1 & -> & _ & Hlen & _).
  destruct (Hlen Hq) as [Hlen1 _]. cbn [fold_left]. unfold chan_len. rewrite Hlen1.
  assert (Hmk : length make_requests = Z.to_nat (maxMergeRequests + 1))
    by apply length_replicate.
  unfold slice_set. rewrite bool_decide_eq_true_2
    by (rewrite Hmk; unfold maxMergeRequests; lia).
  replace (Z.to_nat (Z.of_nat (length (buf ch) - 1) + 1)) with (length (buf ch)) by lia.
  pose proof (drain_spec (length (buf ch) - 1) 1 (<[0%nat := Some first]> make_requests) ch1)
    as Hdrain.
  rewrite length_insert, Hmk in Hdrain.
  rewrite bool_decide_eq_true_2 in Hdrain by lia.
  destruct Hdrain as (requests & ch' & -> & _); [lia | unfold maxMergeRequests; lia |].
  eexists _, _. split; [reflexivity | lia].
Qed.

(** When the buffer is full again by the time [len] is read, the loop runs
    one index past the slice. *)
Lemma collect_refilled_overruns (ch : chan Request) (arrivals : list Request) :
  (0 < length (buf ch))%nat ->
  (forall first ch1, chan_recv ch = Some (first, ch1) ->
     chan_len (fold_left chan_send arrivals ch1) = maxMergeRequests + 1) ->
  collect ch arrivals make_requests = IndexOutOfRange (Z.to_nat (maxMergeRequests + 1)).
Proof.
  intros Hne Hfull. unfold collect.
  destruct (chan_recv_buffered ch Hne) as (first & ch1 & Hrecv & _).
  rewrite Hrecv. specialize (Hfull first ch1 Hrecv). rewrite Hfull.
  assert (Hmk : length make_requests = Z.to_nat (maxMergeRequests + 1))
    by apply length_replicate.
  unfold slice_set. rewrite bool_decide_eq_true_2
    by (rewrite Hmk; unfold maxMergeRequests; lia).
  pose proof (drain_spec (Z.to_nat (maxMergeRequests + 1 + 1) - 1) 1
                (<[0%nat := Some first]> make_requests)
                (fold_left chan_send arrivals ch1)) as Hdrain.
  rewrite length_insert, Hmk in Hdrain.
  rewrite bool_decide_eq_false_2 in Hdrain by (unfold maxMergeRequests; lia).
  rewrite Hdrain; [done | | unfold maxMergeRequests; lia].
  unfold chan_len in Hfull. unfold maxMergeRequests in *. lia.
Qed.

(** C2 does not hold of the code. With the request channel at capacity and
    one more sender parked on it, the receive of the first request lets the
    parked value in, [len] reads maxMergeRequests+1, and the drain loop
    writes [requests[maxMergeRequests+1]], one past the slice. The same
    happens when the channel was full with nobody parked and one send lands
    between the receive and the call of [len]. *)
Theorem C2_drain_index_out_of_range :
  collect full_channel_one_parked [] make_requests
  = IndexOutOfRange (Z.to_nat (maxMergeRequests + 1))
  /\ collect full_channel [one_request] make_requests
     = IndexOutOfRange (Z.to_nat (maxMergeRequests + 1))
  /\ length make_requests = Z.to_nat (maxMergeRequests + 1)
  /\ chan_len full_channel_one_parked = cap full_channel_one_parked.
Proof.
  assert (Hlen : length (replicate (Z.to_nat (maxMergeRequests + 1)) one_request)
                 = Z.to_nat (maxMergeRequests + 1)) by apply length_replicate.
  assert (Hpos : (0 < Z.to_nat (maxMergeRequests + 1))%nat)
    by (unfold maxMergeRequests; lia).
  split_and!.
  - apply collect_refilled_overruns.
    + unfold full_channel_one_parked; cbn [buf]. by rewrite Hlen.
    + intros first ch1 Hrecv.
      destruct (chan_recv_buffered full_channel_one_parked) as (x & ch' & Hr & _ & _ & Hfull);
        [unfold full_channel_one_parked; cbn [buf]; by rewrite Hlen|].
      rewrite Hr in Hrecv. injection Hrecv as <- <-.
      cbn [fold_left]. unfold chan_len. rewrite Hfull by done.
      unfold full_channel_one_parked; cbn [buf]. rewrite Hlen.
      unfold maxMergeRequests. lia.
  - apply collect_refilled_overruns.
    + unfold full_channel; cbn [buf]. by rewrite Hlen.
    + intros first ch1 Hrecv.
      destruct (chan_recv_buffered full_channel) as (x & ch' & Hr & _ & Hquiet & _);
        [unfold full_channel; cbn [buf]; by rewrite Hlen|].
      rewrite Hr in Hrecv. injection Hrecv as <- <-.
      destruct Hquiet as [Hl Hq]; [done|].
      unfold full_channel in Hl; cbn [buf] in Hl. rewrite Hlen in Hl.
      assert (Hcap : cap ch' = maxMergeRequests + 1).
      { unfold chan_recv, full_channel in Hr. cbn [buf sendq cap] in Hr.
        destruct (replicate _ _); [done|]. by injection Hr as _ <-. }
      cbn [fold_left]. unfold chan_send, chan_len. rewrite Hcap, Hl.
      rewrite bool_decide_eq_true_2 by (unfold maxMergeRequests; lia).
      cbn [buf]. rewrite length_app, Hl. cbn [length].
      unfold maxMergeRequests. lia.
  - apply length_replicate.
  - unfold chan_len, full_channel_one_parked. cbn [buf cap]. rewrite Hlen.
    unfold maxMergeRequests. lia.
Qed.

(** ** Stream guards *)

Lemma guard_step_closed g c : guard_step g 1 c = (1, closed_reply g c).
Proof. by destruct g, c. Qed.








(** C9, guard by guard. The sends of the three guards race the stream
    against a timer, of [DefaultTSOProxyTimeout] (3 s) on the TSO guard and
    of [heartbeatSendTimeout] (5 s) on the heartbeat and bucket guards, and
    [tsoServer.recv] races it against the timeout its caller passes: a call
    that outlasts the timer returns the timeout error of the operation,
    marks the guard closed and takes the timeout. [heartbeatServer.Recv] and
    [bucketHeartbeatServer.recv] have no timer: they take as long as the
    stream and return what it returns. *)
Theorem C9_guard_timeouts (closed : Z) (timerWinsTie : bool) :
  closed <> 1 ->
  (forall c, DefaultTSOProxyTimeout < latency c ->
     tsoServer_send closed timerWinsTie c
     = mkOp 1 None (Some ErrForwardTSOTimeout) true DefaultTSOProxyTimeout)
  /\ (forall timeout (c : Call (option Z * option error)), timeout < latency c ->
     tsoServer_recv closed timeout timerWinsTie c
     = mkOp 1 None (Some ErrTSOProxyRecvFromClientTimeout) true timeout)
  /\ (forall c, heartbeatSendTimeout < latency c ->
     heartbeatServer_Send closed timerWinsTie c
     = mkOp 1 None (Some ErrSendHeartbeatTimeout) true heartbeatSendTimeout)
  /\ (forall c, heartbeatSendTimeout < latency c ->
     bucketHeartbeatServer_send closed timerWinsTie c
     = mkOp 1 None (Some ErrSendHeartbeatTimeout) true heartbeatSendTimeout)
  /\ (forall c : Call (option Z * option error),
     elapsed (heartbeatServer_Recv closed c) = latency c
     /\ err (heartbeatServer_Recv closed c) = errors_WithStack (snd (result c)))
  /\ (forall c : Call (option Z * option error),
     elapsed (bucketHeartbeatServer_recv closed c) = latency c
     /\ err (bucketHeartbeatServer_recv closed c) = errors_WithStack (snd (result c)))
  /\ DefaultTSOProxyTimeout = 3 * second
  /\ heartbeatSendTimeout = 5 * second.
Proof.
  intros Hopen.
  assert (Hrace : forall A timeout (c : Call A), timeout < latency c ->
            race timeout timerWinsTie c = TimerFired).
  { intros A timeout c Hlate. unfold race.
    rewrite bool_decide_eq_false_2 by lia.
    rewrite (bool_decide_eq_false_2 (latency c = timeout)) by lia. done. }
  split_and!; try done.
  - intros c Hlate. unfold tsoServer_send.
    rewrite bool_decide_eq_false_2 by done. by rewrite Hrace.
  - intros timeout c Hlate. unfold tsoServer_recv.
    rewrite bool_decide_eq_false_2 by done. by rewrite Hrace.
  - intros c Hlate. unfold heartbeatServer_Send.
    rewrite bool_decide_eq_false_2 by done. by rewrite Hrace.
  - intros c Hlate. unfold bucketHeartbeatServer_send.
    rewrite bool_decide_eq_false_2 by done. by rewrite Hrace.
  - intros c. unfold heartbeatServer_Recv.
    rewrite bool_decide_eq_false_2 by done. by destruct (result c) as [req [e|]].
  - intros c. unfold bucketHeartbeatServer_recv.
    rewrite bool_decide_eq_false_2 by done. by destruct (result c) as [req [e|]].
Qed.

Lemma C9_guard_timeouts_witness :
  (0 <> 1)
  /\ tsoServer_send 0 false (mkCall (4 * second) None)
     = mkOp 1 None (Some ErrForwardTSOTimeout) true DefaultTSOProxyTimeout.
Proof.
  split; [discriminate|].
  apply (C9_guard_timeouts 0 false); [discriminate | reflexivity].
Defined.

(** C9 on the receive side, and the send timeout of the TSO guard. A
    [heartbeatServer.Recv] (or a [bucketHeartbeatServer.recv]) on a stream
    that answers after an hour waits the hour, returns the request and
    leaves the guard open; and a [tsoServer.send] that would take 4 s is cut
    off at 3 s, not at 5 s. *)
Lemma C9_counterexample :
  let hour := 3600 * second in
  heartbeatServer_Recv 0 (mkCall hour (Some 7, None))
  = mkOp 0 (Some 7) None true hour
  /\ bucketHeartbeatServer_recv 0 (mkCall hour (Some 7, None))
     = mkOp 0 (Some 7) None true hour
  /\ 3 * second < hour
  /\ tsoServer_send 0 false (mkCall (4 * second) None)
     = mkOp 1 None (Some ErrForwardTSOTimeout) true (3 * second)
  /\ 4 * second < 5 * second.
Proof. by vm_compute. Qed.

(** ** The minimum timestamp over the TSO servers *)

Lemma CompareTimestamp_spec a b :
  (CompareTimestamp a b = 1 /\ lex_lt b a)
  \/ (CompareTimestamp a b = 0 /\ GetPhysical a = GetPhysical b /\ GetLogical a = GetLogical b)
  \/ (CompareTimestamp a b = -1 /\ lex_lt a b).
Proof.
  unfold CompareTimestamp, lex_lt.
  destruct (Z.ltb_spec (GetPhysical b) (GetPhysical a)),
           (Z.eqb_spec (GetPhysical a) (GetPhysical b)),
           (Z.ltb_spec (GetLogical b) (GetLogical a)),
           (Z.eqb_spec (GetLogical a) (GetLogical b)); simpl; lia.
Qed.

Lemma positive_is_Some ts : positive ts -> exists t, ts = Some t.
Proof.
  destruct ts as [t|]; [by exists t|]. unfold positive. by vm_compute.
Qed.

Lemma CompareTimestamp_trans a b c :
  0 <= CompareTimestamp a b -> 0 <= CompareTimestamp b c -> 0 <= CompareTimestamp a c.
Proof.
  destruct (CompareTimestamp_spec a b) as [[-> H1]|[[-> H1]|[-> H1]]],
           (CompareTimestamp_spec b c) as [[-> H2]|[[-> H2]|[-> H2]]],
           (CompareTimestamp_spec a c) as [[-> H3]|[[-> H3]|[-> H3]]];
    unfold lex_lt in *; lia.
Qed.

Lemma CompareTimestamp_lt_le a b :
  CompareTimestamp a b < 0 -> 0 <= CompareTimestamp b a.
Proof.
  destruct (CompareTimestamp_spec a b) as [[-> H1]|[[-> H1]|[-> H1]]],
           (CompareTimestamp_spec b a) as [[-> H2]|[[-> H2]|[-> H2]]];
    unfold lex_lt in *; lia.
Qed.

Lemma CompareTimestamp_refl a : 0 <= CompareTimestamp a a.
Proof.
  destruct (CompareTimestamp_spec a a) as [[-> H1]|[[-> H1]|[-> H1]]];
    unfold lex_lt in *; lia.
Qed.

(** What the loop over the responses computes from its accumulators. *)
Lemma check_responses_spec resps : forall total m asked,
  Forall (fun r => 0 <= KeyspaceGroupsServing r) resps ->
  0 <= asked -> asked + sum_serving resps < 2 ^ 32 ->
  match check_responses resps total m asked with
  | inl e =>
    (exists fmt args, e = errs_ErrGetMinTS fmt args)
    /\ ~ Forall (fun r => KeyspaceGroupsTotal r <> 0 /\ KeyspaceGroupsTotal r = total) resps
  | inr (m', asked') =>
    Forall (fun r => KeyspaceGroupsTotal r <> 0 /\ KeyspaceGroupsTotal r = total) resps
    /\ asked' = asked + sum_serving resps
    /\ (forall r, r ∈ resps -> positive (Timestamp_ r) ->
          0 <= CompareTimestamp (Timestamp_ r) m' /\ is_Some m')
    /\ (is_Some m -> 0 <= CompareTimestamp m m' /\ is_Some m')
    /\ (m' = m \/ exists r, r ∈ resps /\ Timestamp_ r = m' /\ positive m')
  end.
Proof.
  induction resps as [|r rs IH]; intros total m asked Hserv Hasked Hsum.
  - simpl. split_and!; [constructor | lia | | | by left].
    + intros r Hr. by apply elem_of_nil in Hr.
    + intros Hm. split; [apply CompareTimestamp_refl | done].
  - inversion Hserv as [|? ? Hr Hrs]; subst. cbn [sum_serving foldr] in Hsum.
    fold (sum_serving rs) in Hsum.
    assert (Hpos : 0 <= sum_serving rs).
    { clear -Hrs. induction Hrs; simpl; lia. }
    cbn [check_responses].
    case_bool_decide as Hzero.
    { split; [by eexists _, _|]. intros Hall. inversion Hall as [|? ? [H0 _] _]. done. }
    case_bool_decide as Htotal.
    { split; [by eexists _, _|]. intros Hall. inversion Hall as [|? ? [_ H0] _]. done. }
    rewrite wrap_u32_small by lia.
    match goal with
    | |- context [check_responses rs total ?x _] => set (m1 := x)
    end.
    specialize (IH total m1 (asked + KeyspaceGroupsServing r) Hrs).
    destruct (check_responses rs total m1 (asked + KeyspaceGroupsServing r))
      as [e|[m' asked']].
    { destruct IH as [He Hnot]; [lia | lia |]. split; [done|].
      intros Hall. inversion Hall; subst. done. }
    destruct IH as (Hall & -> & Hmin & Hm1 & Hfrom); [lia | lia |].
    assert (Hstep : (m1 = Timestamp_ r /\ positive m1
                     /\ (is_Some m -> 0 <= CompareTimestamp m m1))
                    \/ (m1 = m /\ (positive (Timestamp_ r) ->
                                   is_Some m /\ 0 <= CompareTimestamp (Timestamp_ r) m))).
    { subst m1. case_bool_decide as Hp; simpl.
      - destruct m as [t|] eqn:Hm.
        + case_bool_decide as Hlt.
          * left. split_and!; [done | done |]. intros _. by apply CompareTimestamp_lt_le.
          * right. split; [done|]. intros _. split; [done | lia].
        + left. split_and!; [done | done |]. by intros [? ?].
      - right. split; [done|]. intros Hp'. done. }
    split_and!.
    + constructor; [done | done].
    + cbn [sum_serving foldr]. fold (sum_serving rs). lia.
    + intros r' Hr' Hp'. apply elem_of_cons in Hr' as [->|Hr']; [|by apply Hmin].
      destruct Hstep as [(Heq & Hp1 & _)|(Heq & Hle)].
      * rewrite <- Heq. apply Hm1. rewrite Heq.
        destruct (positive_is_Some _ Hp') as [t ->]. done.
      * destruct (Hle Hp') as [Hsome Hrm]. rewrite Heq in Hm1.
        destruct (Hm1 Hsome) as [Hmm' ?]. split; [|done].
        by eapply CompareTimestamp_trans.
    + intros Hsome. destruct Hstep as [(Heq & Hp1 & Hle)|(Heq & _)].
      * assert (Hs1 : is_Some m1).
        { destruct (positive_is_Some _ Hp1) as [t ->]. done. }
        destruct (Hm1 Hs1) as [Hmm' ?]. split; [|done].
        eapply CompareTimestamp_trans; [by apply Hle | done].
      * rewrite Heq in Hm1. by apply Hm1.
    + destruct Hfrom as [->|(r' & Hr' & Hts & Hp')].
      * destruct Hstep as [(Heq & Hp1 & _)|(Heq & _)].
        -- right. exists r. split_and!; [left | done | done].
        -- by left.
      * right. exists r'. split_and!; [by right | done | done].
Qed.

Lemma GetMinTS_cases answers :
  Forall (fun r => 0 <= KeyspaceGroupsServing r /\ 0 <= KeyspaceGroupsTotal r)
         (responses answers) ->
  sum_serving (responses answers) < 2 ^ 32 ->
  (exists ts, GetMinTSFromTSOService false answers = (Some ts, None)
     /\ consistent (responses answers) /\ min_positive ts (responses answers))
  \/ (exists fmt args,
        GetMinTSFromTSOService false answers
        = (Some emptyTS, Some (errs_ErrGetMinTS fmt args))
        /\ ~ consistent (responses answers)).
Proof.
  intros Hwf Hsum. unfold GetMinTSFromTSOService. fold (responses answers).
  case_bool_decide as Hnone.
  { right. eexists _, _. split; [done|]. intros (first & Hhead & _).
    rewrite length_fmap in Hnone. destruct answers; [done | done]. }
  destruct (responses answers) as [|first rs] eqn:Hresps.
  { right. eexists _, _. split; [done|]. by intros (first & Hhead & _). }
  pose proof (check_responses_spec (first :: rs) (KeyspaceGroupsTotal first) None 0) as Hloop.
  destruct (check_responses (first :: rs) (KeyspaceGroupsTotal first) None 0)
    as [e|[m asked]].
  { destruct Hloop as [(fmt & args & ->) Hnot]; [| lia | lia |].
    { eapply Forall_impl; [exact Hwf|]. by intros r [? ?]. }
    right. eexists _, _. split; [done|].
    intros (first' & [= <-] & Hpos & Hall & _). apply Hnot.
    eapply Forall_impl; [exact Hall|]. simpl. intros r ->. lia. }
  destruct Hloop as (Hall & -> & Hmin & _ & Hfrom); [| lia | lia |].
  { eapply Forall_impl; [exact Hwf|]. by intros r [? ?]. }
  case_bool_decide as Hasked.
  { right. eexists _, _. split; [done|].
    intros (first' & [= <-] & _ & _ & Hs & _). lia. }
  destruct m as [ts|].
  - left. exists ts. split; [done|].
    destruct Hfrom as [?|(r & Hr & Hts & Hp)]; [done|].
    split.
    + exists first. split_and!; [done | | | lia |].
      * inversion Hall as [|? ? [Hne _] _]; subst.
        inversion Hwf as [|? ? [_ Hge] _]; subst. lia.
      * eapply Forall_impl; [exact Hall|]. by intros r' [_ ?].
      * apply Exists_exists. exists r. split; [done|]. by rewrite Hts.
    + split_and!; [by exists r | done |].
      intros r' Hr' Hp'. by apply Hmin.
  - right. eexists _, _. split; [done|].
    intros (first' & _ & _ & _ & _ & Hex).
    apply Exists_exists in Hex as (r & Hr & Hp).
    destruct (Hmin r Hr Hp) as [_ [? ?]]. done.
Qed.

(** C4, for a started server and sums within a [uint32]. On a started
    server, with [uint32] fields whose sum of keyspace-groups-serving stays
    below 2^32: [GetMinTSFromTSOService] returns a timestamp without error
    exactly when at least one server responded, every response reports the
    same positive keyspace-groups-total, the keyspace-groups-serving add up
    to that total and some response carries a positive timestamp; it then
    returns a smallest positive timestamp of the responses, and otherwise an
    empty timestamp with a GetMinTS error. On a closed server it returns no
    timestamp and [ErrNotStarted]. *)
Theorem C4_min_ts_consistency (answers : list (string * option GetMinTSResponse)) :
  Forall (fun r => 0 <= KeyspaceGroupsServing r /\ 0 <= KeyspaceGroupsTotal r)
         (responses answers) ->
  sum_serving (responses answers) < 2 ^ 32 ->
  (consistent (responses answers) ->
     exists ts, GetMinTSFromTSOService false answers = (Some ts, None)
       /\ min_positive ts (responses answers))
  /\ (~ consistent (responses answers) ->
     exists fmt args,
       GetMinTSFromTSOService false answers
       = (Some emptyTS, Some (errs_ErrGetMinTS fmt args)))
  /\ (forall ts, GetMinTSFromTSOService false answers = (Some ts, None) ->
     consistent (responses answers))
  /\ GetMinTSFromTSOService true answers = (None, Some ErrNotStarted).
Proof.
  intros Hwf Hsum.
  destruct (GetMinTS_cases answers Hwf Hsum)
    as [(ts & Hrun & Hcons & Hmin)|(fmt & args & Hrun & Hcons)].
  - split_and!; [by exists ts | done | done | done].
  - split_and!; [done | by exists fmt, args | | done].
    intros ts Hts. rewrite Hrun in Hts. done.
Qed.

Lemma C4_min_ts_consistency_witness :
  consistent (responses three_of_three)
  /\ exists ts, GetMinTSFromTSOService false three_of_three = (Some ts, None)
                /\ min_positive ts (responses three_of_three).
Proof.
  assert (Hcons : consistent (responses three_of_three)).
  { eexists. split; [reflexivity|]. split_and!.
    - reflexivity.
    - repeat constructor.
    - reflexivity.
    - left. reflexivity. }
  split; [exact Hcons|].
  refine (proj1 (C4_min_ts_consistency three_of_three _ _) Hcons).
  - repeat constructor; simpl; lia.
  - reflexivity.
Defined.

Example three_of_three_min :
  GetMinTSFromTSOService false three_of_three = (Some (mkTimestamp 99 9 0), None).
Proof. reflexivity. Qed.

Example inconsistent_totals :
  GetMinTSFromTSOService false
    [("tso-0", Some (mkMinTS (Some (mkTimestamp 100 7 0)) 1 3));
     ("tso-1", Some (mkMinTS (Some (mkTimestamp 99 9 0)) 2 4))]
  = (Some emptyTS,
     Some (errs_ErrGetMinTS
             "the tso service has inconsistent keyspace group total count" [])).
Proof. reflexivity. Qed.

(** C4 outside these conditions. On a closed server the error is
    [ErrNotStarted], a gRPC Unavailable status and not a GetMinTS error, and
    no timestamp is returned; and as the keyspace groups asked are counted
    in a [uint32], two responses serving 2^31+1 and 2^31 groups out of a
    total of 1 pass the check although the sum is not the total. *)
Lemma C4_counterexample :
  let wrapped :=
    [("tso-0", Some (mkMinTS (Some (mkTimestamp 100 7 0)) (2 ^ 31 + 1) 1));
     ("tso-1", Some (mkMinTS (Some (mkTimestamp 99 9 0)) (2 ^ 31) 1))] in
  GetMinTSFromTSOService true [] = (None, Some ErrNotStarted)
  /\ (forall fmt args, ErrNotStarted <> errs_ErrGetMinTS fmt args)
  /\ GetMinTSFromTSOService false wrapped = (Some (mkTimestamp 99 9 0), None)
  /\ sum_serving (responses wrapped) <> 1
  /\ ~ consistent (responses wrapped).
Proof.
  split_and!; [done | done | done | by vm_compute |].
  intros (first & Hhead & _ & _ & Hs & _). injection Hhead as <-.
  vm_compute in Hs. done.
Qed.

(** ** Admission *)

Lemma validateRoleInRequest_mismatch s ctx header allowFollower :
  IsClosed s = false ->
  IsLeader s = true
  \/ (is_Some allowFollower /\ IsFollowerHandleEnabled ctx = true) ->
  GetClusterId header <> ClusterID s ->
  fst (validateRoleInRequest s ctx header allowFollower)
  = Some (mismatch_cluster_id (ClusterID s) (GetClusterId header)).
Proof.
  intros Hopen Hrole Hid. unfold validateRoleInRequest. rewrite Hopen.
  destruct (IsLeader s); simpl.
  - by rewrite bool_decide_eq_true_2.
  - destruct Hrole as [|[[b ->] ->]]; [done|]. simpl.
    by rewrite bool_decide_eq_true_2.
Qed.

(** C5, past the checks that come first. For a locally handled request whose
    cluster id differs from the server's, on a started server and past the
    role check (the server leads, or the handler permits follower handling
    and the context opts in; for the two heartbeat streams and for the four
    handlers that may hand over to the scheduling service: with a raft
    cluster, and for the four with the scheduling service in this process):
    every handler that enters through [unaryMiddleware],
    [unaryFollowerMiddleware] or [validateRequest], and the TSO loop of a
    server that allocates timestamps itself, refuses with FailedPrecondition
    "mismatch cluster id". The other handlers, [GetClusterInfo] and
    [GetMembers] among them, never compare the cluster id: their verdict is
    the same whatever cluster id the request carries. *)
Theorem C5_cluster_id_mismatch (s : Server) (r : RPC) (ctx : Ctx)
    (header : option RequestHeader) :
  GetClusterId header <> ClusterID s ->
  (checks_cluster_id r = true -> passes_role s r ctx = true ->
     local_verdict s r ctx header
     = Refuse (mismatch_cluster_id (ClusterID s) (GetClusterId header)))
  /\ (checks_cluster_id r = false ->
     forall id, local_verdict s r ctx (with_cluster_id header id)
                = local_verdict s r ctx header)
  /\ checks_cluster_id GetClusterInfo = false
  /\ checks_cluster_id GetMembers = false.
Proof.
  intros Hid. split_and!; [| | done | done].
  - unfold checks_cluster_id, passes_role, local_verdict, validateRequest.
    intros Hchecks Hrole. apply andb_prop in Hrole as [Hopen Hrole].
    apply negb_true_iff in Hopen.
    assert (Hleader : IsLeader s = true ->
              verdict_of (validateRoleInRequest s ctx header None)
              = Refuse (mismatch_cluster_id (ClusterID s) (GetClusterId header))).
    { intros Hl.
      pose proof (validateRoleInRequest_mismatch s ctx header None Hopen) as H.
      destruct (validateRoleInRequest s ctx header None) as [e allow].
      simpl in H. rewrite H; [done | by left | done]. }
    destruct (entry_of r); try done.
    + by apply Hleader.
    + apply andb_prop in Hrole as [Hrole Hl]. apply andb_prop in Hrole as [Hrc Hhere].
      rewrite Hrc. simpl. unfold scheduling_here in Hhere.
      destruct (scheduling s); try done; by apply Hleader.
    + pose proof (validateRoleInRequest_mismatch s ctx header (Some false) Hopen) as H.
      destruct (validateRoleInRequest s ctx header (Some false)) as [e allow].
      simpl in H. rewrite H; [done | | done].
      apply orb_prop in Hrole as [?|?]; [by left | by right].
    + apply andb_prop in Hrole as [Hrc Hl]. rewrite Hrc. simpl.
      pose proof (validateRoleInRequest_mismatch s context_TODO header None Hopen) as H.
      destruct (validateRoleInRequest s context_TODO header None) as [e allow].
      simpl in H |- *. rewrite H; [done | by left | done].
    + apply negb_true_iff in Hrole. rewrite Hopen, Hrole.
      by rewrite bool_decide_eq_true_2.
  - unfold checks_cluster_id, local_verdict. intros Hchecks id.
    destruct (entry_of r); done.
Qed.

Lemma C5_cluster_id_mismatch_witness :
  local_verdict leader_1 AllocID context_TODO header_of_cluster_2
  = Refuse (mismatch_cluster_id 1 2).
Proof.
  refine (proj1 (C5_cluster_id_mismatch leader_1 AllocID context_TODO
                   header_of_cluster_2 _) _ _);
    [discriminate | reflexivity | reflexivity].
Defined.

(** C5 before those checks, and for a handler without the check. With a
    foreign cluster id, [AllocID] answers NotStarted on a closed server and
    NotLeader on a follower, not FailedPrecondition; [IsSnapshotRecovering],
    which is neither [GetClusterInfo] nor [GetMembers], serves the request;
    and [ScatterRegion], next to a scheduling service of its own, hands the
    request over unchecked. *)
Lemma C5_counterexample :
  GetClusterId header_of_cluster_2 <> ClusterID closed_1
  /\ local_verdict closed_1 AllocID context_TODO header_of_cluster_2 = Refuse ErrNotStarted
  /\ local_verdict follower_1 AllocID context_TODO header_of_cluster_2 = Refuse ErrNotLeader
  /\ local_verdict leader_1 IsSnapshotRecovering context_TODO header_of_cluster_2
     = Serve false
  /\ local_verdict leader_with_scheduling ScatterRegion context_TODO header_of_cluster_2
     = HandedToSchedulingService.
Proof. by vm_compute. Qed.

(** C6, for a started server. On a started server that is not the leader: a
    handler that does not permit follower handling is refused with
    NotLeader; one that permits it, on a context that does not opt in, is
    refused with FollowerHandlingNotAllowed; one that permits it, on a
    context that opts in, has the follower flag set, and is let through when
    the cluster id of the request is the server's (refused with
    FailedPrecondition when it is not). On a closed server the answer is
    NotStarted in every case. *)
Theorem C6_follower_role (s : Server) (ctx : Ctx) (header : option RequestHeader)
    (flag : bool) :
  IsLeader s = false ->
  (IsClosed s = false ->
     validateRoleInRequest s ctx header None = (Some ErrNotLeader, None)
     /\ (IsFollowerHandleEnabled ctx = false ->
         validateRoleInRequest s ctx header (Some flag)
         = (Some ErrFollowerHandlingNotAllowed, Some flag))
     /\ (IsFollowerHandleEnabled ctx = true ->
         snd (validateRoleInRequest s ctx header (Some flag)) = Some true
         /\ (GetClusterId header = ClusterID s ->
             validateRoleInRequest s ctx header (Some flag) = (None, Some true))
         /\ (GetClusterId header <> ClusterID s ->
             validateRoleInRequest s ctx header (Some flag)
             = (Some (mismatch_cluster_id (ClusterID s) (GetClusterId header)),
                Some true))))
  /\ (IsClosed s = true ->
     forall allowFollower,
       validateRoleInRequest s ctx header allowFollower
       = (Some ErrNotStarted, allowFollower)).
Proof.
  intros Hfollower. unfold validateRoleInRequest. rewrite Hfollower. split.
  - intros ->. simpl. split_and!; [done | by intros -> |].
    intros ->. simpl. split_and!.
    + by case_bool_decide.
    + intros Hid. by rewrite bool_decide_eq_false_2 by (by intros ?).
    + intros Hid. by rewrite bool_decide_eq_true_2.
  - by intros ->.
Qed.

Lemma C6_follower_role_witness :
  validateRoleInRequest follower_1 (mkCtx "" true) (Some (mkHeader 1 0)) (Some false)
  = (None, Some true).
Proof.
  refine (proj1 (proj2 (proj2 (proj2 (proj1
            (C6_follower_role follower_1 (mkCtx "" true) (Some (mkHeader 1 0)) false _)
            _)) _)) _);
    reflexivity.
Defined.

(** C6 on a closed server, and with a foreign cluster id. A closed server
    that is not the leader answers NotStarted, not NotLeader; and a follower
    whose handler permits follower handling, on a context that opts in,
    still refuses a request of a foreign cluster. *)
Lemma C6_counterexample :
  IsLeader closed_1 = false
  /\ validateRoleInRequest closed_1 context_TODO (Some (mkHeader 1 0)) None
     = (Some ErrNotStarted, None)
  /\ ErrNotStarted <> ErrNotLeader
  /\ validateRoleInRequest follower_1 (mkCtx "" true) header_of_cluster_2 (Some false)
     = (Some (mismatch_cluster_id 1 2), Some true).
Proof. by vm_compute. Qed.

(** ** Forwarding *)

Lemma isLocalRequest_spec s forwardedHost :
  isLocalRequest s forwardedHost = true
  <-> forwardedHost = "" \/ forwardedHost ∈ ClientUrls s.
Proof.
  unfold isLocalRequest. case_bool_decide as Hempty; [naive_solver|].
  rewrite existsb_exists. split.
  - intros (addr & Hin & Heq). apply bool_decide_eq_true in Heq as ->.
    right. by apply list_elem_of_In.
  - intros [?|Hin]; [done|]. exists forwardedHost.
    split; [by apply list_elem_of_In | by apply bool_decide_eq_true].
Qed.

(** C7. A request whose forwarded host is empty or one of the client URLs of
    this server is local, and the middleware then neither dials nor calls
    the delegate: its answer is that of the role check, whatever the
    delegate and the dialer are. A request that is forwarded reaches the
    delegate with the forwarding metadata reset: the delegate is called on
    [ResetForwardContext ctx], whose forwarded host is empty, hence local to
    whichever server receives it. *)
Theorem C7_loop_free_forwarding {Rsp : Type} (s : Server) (dial : string -> nat + error)
    (ctx : Ctx) (header : option RequestHeader) (fn : forwardFn Rsp)
    (allowFollower : option bool) :
  (GetForwardedHost ctx = "" \/ GetForwardedHost ctx ∈ ClientUrls s ->
     isLocalRequest s (GetForwardedHost ctx) = true
     /\ forall (fn' : forwardFn Rsp) dial',
          unaryFollowerMiddleware s dial ctx header fn allowFollower
          = unaryFollowerMiddleware s dial' ctx header fn' allowFollower
          /\ unaryFollowerMiddleware s dial ctx header fn allowFollower
             = mkMiddleware s None
                 (fst (validateRoleInRequest s ctx header allowFollower))
                 (snd (validateRoleInRequest s ctx header allowFollower)))
  /\ (isLocalRequest s (GetForwardedHost ctx) = false ->
      forall s' client,
        getDelegateClient s dial (GetForwardedHost ctx) = (s', inl client) ->
        unaryFollowerMiddleware s dial ctx header fn allowFollower
        = mkMiddleware s' (fst (fn (ResetForwardContext ctx) client))
                       (snd (fn (ResetForwardContext ctx) client)) allowFollower
        /\ GetForwardedHost (ResetForwardContext ctx) = ""
        /\ forall receiver, isLocalRequest receiver
                              (GetForwardedHost (ResetForwardContext ctx)) = true)
  /\ unaryFollowerMiddleware s dial ctx header fn allowFollower
     = unaryFollowerMiddleware s dial ctx header
         (fun c client => fn (ResetForwardContext c) client) allowFollower.
Proof.
  split_and!.
  - intros Hlocal. apply isLocalRequest_spec in Hlocal. split; [done|].
    intros fn' dial'. unfold unaryFollowerMiddleware. rewrite Hlocal. simpl.
    by destruct (validateRoleInRequest s ctx header allowFollower).
  - intros Hremote s' client Hdial. unfold unaryFollowerMiddleware.
    rewrite Hremote, Hdial. simpl.
    by destruct (fn (ResetForwardContext ctx) client).
  - unfold unaryFollowerMiddleware.
    destruct (isLocalRequest s (GetForwardedHost ctx)); simpl; [done|].
    by destruct (getDelegateClient s dial (GetForwardedHost ctx)) as [s' [client|e]].
Qed.

Lemma C7_loop_free_forwarding_witness :
  unaryFollowerMiddleware follower_1 dial_ok forward_to_leader (Some (mkHeader 1 0))
    echo_host None
  = mkMiddleware
      (mkServer false false 1 ["http://pd-1:2379"] 10 true true true false
                SchedulingInProcess {["http://pd-0:2379" := 5%nat]})
      (Some "") None None
  /\ GetForwardedHost (ResetForwardContext forward_to_leader) = ""
  /\ forall receiver, isLocalRequest receiver
                        (GetForwardedHost (ResetForwardContext forward_to_leader)) = true.
Proof.
  refine (proj1 (proj2 (C7_loop_free_forwarding follower_1 dial_ok forward_to_leader
                          (Some (mkHeader 1 0)) echo_host None)) _ _ _ _);
    reflexivity.
Defined.

Example forwarded_to_self_is_local :
  unaryFollowerMiddleware leader_1 dial_ok forward_to_leader (Some (mkHeader 1 0))
    echo_host None
  = mkMiddleware leader_1 None None None.
Proof. reflexivity. Qed.

(** ** The life of a dispatcher queue *)

Lemma update_queue_lookup d addr f q :
  queues d !! addr = Some q ->
  queues (update_queue d addr f) !! addr = Some (f q).
Proof. intros H. unfold update_queue; simpl. by rewrite lookup_alter_eq, H. Qed.

Lemma dispatch_loop_exit addr events : forall requests d q exit d',
  queues d !! addr = Some q ->
  dispatch_loop events addr requests d = (exit, d') ->
  dispatchChs d' = dispatchChs d
  /\ is_Some (queues d' !! addr)
  /\ exit <> CreateStreamFailed
  /\ (abnormal exit ->
      exists e ctx0,
        exit_cause (true, None) events exit e
        /\ ctx <$> queues d' !! addr = Some (cancelCause ctx0 e)
        /\ context_then q events ctx0).
Proof.
  induction events as [|ev events IH]; intros requests d q exit d' Hq Hrun.
  - simpl in Hrun. injection Hrun as <- <-.
    split_and!; [done | by rewrite Hq | done |]. by intros [?|[?|?]].
  - assert (Hmono : forall exit e, exit_cause (true, None) events exit e ->
                                   exit_cause (true, None) (ev :: events) exit e).
    { intros [] e; simpl; try done.
      intros (arrivals & sent & reply & batch & p & Hin & Hp & He).
      exists arrivals, sent, reply, batch, p. split_and!; [by right | done | done]. }
    assert (Hnext : forall requests d1 q1,
              queues d1 !! addr = Some q1 ->
              Cause (ctx q1) = Cause (ctx q)
              \/ (ev = ServerShutdown /\ Cause (ctx q1) = Some context_Canceled) ->
              dispatchChs d1 = dispatchChs d ->
              dispatch_loop events addr requests d1 = (exit, d') ->
              dispatchChs d' = dispatchChs d
              /\ is_Some (queues d' !! addr)
              /\ exit <> CreateStreamFailed
              /\ (abnormal exit ->
                  exists e ctx0,
                    exit_cause (true, None) (ev :: events) exit e
                    /\ ctx <$> queues d' !! addr = Some (cancelCause ctx0 e)
                    /\ context_then q (ev :: events) ctx0)).
    { intros requests1 d1 q1 Hq1 Hc1 Hmap Hrun1.
      destruct (IH requests1 d1 q1 exit d' Hq1 Hrun1) as (Hm & Hsome & Hn1 & Hab).
      split_and!; [congruence | done | done |].
      intros Habn. destruct (Hab Habn) as (e & ctx0 & Hcause & Hctx & Hthen).
      exists e, ctx0. split_and!; [by apply Hmono | done |].
      destruct Hthen as [Hsame|[Hin Hcanc]].
      - destruct Hc1 as [Hc1|[-> Hc1]]; [left; congruence|].
        right. split; [left | congruence].
      - right. split; [by right | done]. }
    cbn [dispatch_loop] in Hrun. rewrite Hq in Hrun.
    destruct ev as [req| |arrivals sent reply| |].
    + refine (Hnext _ _ _ (update_queue_lookup d addr _ q Hq) _ _ Hrun); [by left | done].
    + refine (Hnext _ _ _ (update_queue_lookup d addr _ q Hq) _ _ Hrun); [|done].
      simpl. unfold cancelCause. destruct (Cause (ctx q)) eqn:Hc; [by left | by right].
    + destruct (collect (requestCh q) arrivals requests) as [pending requests1 ch|i|].
      * set (d1 := update_queue d addr (fun q0 => mkQueue ch (ctx q0))) in *.
        assert (Hq1 : queues d1 !! addr = Some (mkQueue ch (ctx q)))
          by exact (update_queue_lookup d addr _ q Hq).
        destruct (ctx_Done (ctx q) && negb sent).
        { injection Hrun as <- <-. split_and!; [done | by rewrite Hq1 | done |].
          by intros [?|[?|?]]. }
        destruct (processRequests reply (batch_of pending requests1)) as [p|] eqn:Hp.
        -- destruct (returned p) as [e|] eqn:He.
           ++ injection Hrun as <- <-. split_and!; [done | | done |].
              { by rewrite (update_queue_lookup d1 addr _ _ Hq1). }
              intros _. exists e, (ctx q). split_and!.
              { exists arrivals, sent, reply, (batch_of pending requests1), p.
                split_and!; [left | done | done]. }
              { by rewrite (update_queue_lookup d1 addr _ _ Hq1). }
              { by left. }
           ++ refine (Hnext _ _ _ Hq1 _ _ Hrun); [by left | done].
        -- injection Hrun as <- <-. split_and!; [done | by rewrite Hq1 | done |].
           by intros [?|[?|?]].
      * injection Hrun as <- <-. split_and!; [done | by rewrite Hq | done |].
        by intros [?|[?|?]].
      * refine (Hnext _ _ _ Hq _ _ Hrun); [by left | done].
    + injection Hrun as <- <-. split_and!; [done | | done |].
      { by rewrite (update_queue_lookup d addr _ _ Hq). }
      intros _. exists idle_error, (ctx q). split_and!; [done | | by left].
      by rewrite (update_queue_lookup d addr _ _ Hq).
    + destruct (ctx_Done (ctx q)).
      * injection Hrun as <- <-. split_and!; [done | by rewrite Hq | done |].
        by intros [?|[?|?]].
      * refine (Hnext _ _ _ Hq _ _ Hrun); [by left | done].
Qed.

Lemma dispatch_create_failure d addr host created events :
  created <> (true, None) ->
  fst (dispatch d addr host created events) = CreateStreamFailed.
Proof. by destruct created as [[|] [err|]]. Qed.

Lemma dispatch_idle_fires d addr host q events :
  queues d !! addr = Some q ->
  fst (dispatch d addr host (true, None) (SelectIdle :: events)) = IdleTimeout.
Proof. intros Hq. unfold dispatch. cbn [dispatch_loop]. by rewrite Hq. Qed.



Example shutdown_before_idle_keeps_first_cause :
  let run := dispatch one_queue 0 "tso-0" (true, None) [ServerShutdown; SelectIdle] in
  fst run = IdleTimeout
  /\ observed_cause (snd run) 0 = Some context_Canceled
  /\ dispatchChs (snd run) !! "tso-0" = None.
Proof. by vm_compute. Qed.

Example batch_failure_cause :
  let run := dispatch one_queue 0 "tso-0" (true, None)
               [SelectRequest [] true upstream_down] in
  fst run = BatchFailed
  /\ observed_cause (snd run) 0 = Some (status_Errorf Unavailable "not leader" [])
  /\ dispatchChs (snd run) !! "tso-0" = None.
Proof. by vm_compute. Qed.

(** ** The store heartbeat and the scheduling client *)





Example heartbeat_with_failed_tee :
  let sent := Some (status_Errorf Unavailable "scheduling down" []) in
  StoreHeartbeatHandler leader_1 empty_cache context_TODO (Some (mkHeader 1 0))
    (heartbeat_env "http://scheduling-0" (inl 3%nat) sent)
  = mkHeartbeat (Some (mkHeartbeatResponse (wrapHeader leader_1) true true)) None
                (mkCache (Some (mkSchedulingClient 1 None "")) 2) 1.
Proof. reflexivity. Qed.

Example heartbeat_without_scheduling_primary :
  StoreHeartbeatHandler leader_1 empty_cache context_TODO (Some (mkHeader 1 0))
    (heartbeat_env "" (inl 3%nat) None)
  = mkHeartbeat (Some (mkHeartbeatResponse (wrapHeader leader_1) true true)) None
                empty_cache 0.
Proof. reflexivity. Qed.

(** * Further properties *)

(** ** The split, past the range of the claim *)




Lemma finishRequest_from_accepted requests : forall c0 physical fl s,
  Forall accepted requests ->
  exists resps,
    finishRequest_from requests c0 physical fl s = (resps, None)
    /\ resp_Count <$> resps = getCount <$> requests
    /\ Forall (fun resp => Physical (resp_Timestamp resp) = physical
                           /\ SuffixBits (resp_Timestamp resp) = s) resps.
Proof.
  induction requests as [|r rs IH]; intros c0 physical fl s Hall.
  - exists []. by split_and!.
  - inversion Hall as [|? ? Hsend Hrs]; subst.
    destruct (IH (wrap_i64 (c0 + getCount r)) physical fl s Hrs) as (resps & Hrun & Hc & Hp).
    eexists. simpl. unfold postProcess. rewrite Hsend, Hrun. simpl.
    split_and!; [reflexivity | cbn; f_equal; exact Hc | by constructor].
Qed.

Lemma finishRequest_from_failed before : forall r after e c0 physical fl s,
  Forall accepted before -> send_result r = Some e ->
  finishRequest_from (before ++ r :: after) c0 physical fl s
  = (fst (finishRequest_from before c0 physical fl s), Some e).
Proof.
  induction before as [|b bs IH]; intros r after e c0 physical fl s Hall Hsend.
  - simpl. unfold postProcess. by rewrite Hsend.
  - inversion Hall as [|? ? Hb Hbs]; subst. simpl. unfold postProcess. rewrite Hb.
    rewrite (IH r after e _ physical fl s Hbs Hsend).
    by destruct (finishRequest_from bs _ physical fl s).
Qed.

(** X1. When the downstream send of one request of a batch fails,
    [processRequests] returns that error; the requests before it in the
    batch have received their responses, with their own counts and the
    physical part and suffix bits of the upstream response, and neither the
    failing request nor any request after it receives one, although the
    merged request that went upstream counted them all. *)
Theorem X1_split_stops_at_failed_send (forwardStream : stream)
    (before after : list Request) (r : Request) (e : error) (ts : Timestamp) :
  Forall accepted before ->
  send_result r = Some e ->
  forwardStream (mergeCount (before ++ r :: after)) = inl ts ->
  exists p,
    processRequests forwardStream (before ++ r :: after) = Some p
    /\ sent_count p = mergeCount (before ++ r :: after)
    /\ returned p = Some e
    /\ resp_Count <$> delivered p = getCount <$> before
    /\ Forall (fun resp => Physical (resp_Timestamp resp) = Physical ts
                           /\ SuffixBits (resp_Timestamp resp) = SuffixBits ts)
              (delivered p).
Proof.
  intros Hall Hsend Hreply.
  pose proof (fun fl => finishRequest_from_failed before r after e 0 (Physical ts) fl
                          (SuffixBits ts) Hall Hsend) as Hfail.
  assert (Hne : before ++ r :: after <> []) by (by destruct before).
  remember (before ++ r :: after) as batch eqn:Hbatch. clear Hbatch.
  unfold processRequests, process. rewrite Hreply.
  destruct batch as [|x xs]; [done|].
  unfold finishRequest. rewrite Hfail.
  match goal with
  | |- context [finishRequest_from before 0 _ ?fl _] =>
    destruct (finishRequest_from_accepted before 0 (Physical ts) fl (SuffixBits ts) Hall)
      as (resps & -> & Hc & Hp)
  end.
  eexists. split; [reflexivity|]. by simpl.
Qed.

Lemma X1_split_stops_at_failed_send_witness :
  exists p,
    processRequests scenario_stream
      ([mkRequest "tso-0" 3 None] ++ mkRequest "tso-0" 5 (Some io_EOF) :: [one_request])
    = Some p
    /\ sent_count p
       = mergeCount ([mkRequest "tso-0" 3 None] ++ mkRequest "tso-0" 5 (Some io_EOF)
                       :: [one_request])
    /\ returned p = Some io_EOF
    /\ resp_Count <$> delivered p = getCount <$> [mkRequest "tso-0" 3 None]
    /\ Forall (fun resp => Physical (resp_Timestamp resp) = 100
                           /\ SuffixBits (resp_Timestamp resp) = 0)
              (delivered p).
Proof.
  apply (X1_split_stops_at_failed_send scenario_stream [mkRequest "tso-0" 3 None]
           [one_request] (mkRequest "tso-0" 5 (Some io_EOF)) io_EOF (mkTimestamp 100 80 0)).
  - repeat constructor.
  - reflexivity.
  - reflexivity.
Defined.




(** ** The batch, in order *)

Lemma chan_send_all {A} (xs : list A) : forall (ch : chan A),
  sendq ch = [] -> Z.of_nat (length (buf ch) + length xs) <= cap ch ->
  fold_left chan_send xs ch = mkChan (buf ch ++ xs) [] (cap ch).
Proof.
  induction xs as [|x xs IH]; intros [b q c] Hq Hroom; simpl in *; subst.
  - by rewrite app_nil_r.
  - unfold chan_send at 2, chan_len. simpl.
    rewrite bool_decide_eq_true_2 by lia.
    rewrite IH; simpl; [by rewrite <- app_assoc | done | rewrite length_app; simpl; lia].
Qed.

(** The drain loop over a channel nobody is parked on: the slice receives
    the first [n] buffered requests at the indices [i..i+n), in order. *)
Lemma drain_content n : forall i requests ch,
  sendq ch = [] -> (n <= length (buf ch))%nat -> (i + n <= length requests)%nat ->
  drain (seq i n) requests ch
  = inl (Some (take i requests ++ (Some <$> take n (buf ch)) ++ drop (i + n) requests,
               mkChan (drop n (buf ch)) [] (cap ch))).
Proof.
  induction n as [|n IH]; intros i requests [b q c] Hq Hbuf Hi; simpl in *; subst.
  - by rewrite Nat.add_0_r, take_drop, drop_0.
  - destruct b as [|x rest]; simpl in *; [lia|].
    unfold chan_recv. simpl. unfold slice_set.
    rewrite bool_decide_eq_true_2 by lia.
    rewrite IH; simpl; [|done|lia|rewrite length_insert; lia].
    do 3 f_equal.
    assert (Hx : (<[i := Some x]> requests) !! i = Some (Some x))
      by (apply list_lookup_insert_eq; lia).
    rewrite (take_S_r _ _ _ Hx), take_insert_ge by lia.
    rewrite drop_insert_lt by lia. rewrite <- app_assoc. simpl.
    by replace (i + S n)%nat with (S (i + n)) by lia.
Qed.

(** X3. A batch keeps the order of arrival and loses nothing. With nobody
    parked on the request channel and room in it for the requests that
    arrive before its length is read, the first-request branch collects
    exactly the buffered requests followed by the arrivals, in that order,
    and leaves the channel empty. *)
Theorem X3_batch_is_fifo (ch : chan Request) (arrivals : list Request) :
  sendq ch = [] ->
  buf ch <> [] ->
  cap ch = maxMergeRequests + 1 ->
  Z.of_nat (length (buf ch) + length arrivals) <= maxMergeRequests + 1 ->
  exists requests ch',
    collect ch arrivals make_requests
    = Batch (length (buf ch) + length arrivals) requests ch'
    /\ batch_of (length (buf ch) + length arrivals) requests = buf ch ++ arrivals
    /\ buf ch' = [] /\ sendq ch' = [].
Proof.
  destruct ch as [b q c]. simpl. intros -> Hne -> Hroom.
  destruct b as [|first rest]; [done|]. simpl in Hroom.
  assert (Hmk : length make_requests = Z.to_nat (maxMergeRequests + 1))
    by apply length_replicate.
  unfold collect, chan_recv. cbn [buf sendq cap].
  rewrite chan_send_all; cbn [buf sendq cap]; [|done|lia].
  unfold chan_len. cbn [buf]. rewrite length_app.
  replace (Z.to_nat (Z.of_nat (length rest + length arrivals) + 1))
    with (S (length rest + length arrivals)) by lia.
  unfold slice_set. rewrite bool_decide_eq_true_2
    by (rewrite Hmk; unfold maxMergeRequests; lia).
  replace (S (length rest + length arrivals) - 1)%nat
    with (length (rest ++ arrivals)) by (rewrite length_app; lia).
  rewrite drain_content; cbn [buf sendq cap];
    [|done|done|rewrite length_insert, Hmk, length_app; unfold maxMergeRequests in *; lia].
  eexists _, _. split; [reflexivity|].
  rewrite firstn_all, drop_all. split; [|done].
  unfold batch_of.
  assert (Hfirst : take 1 (<[0%nat := Some first]> make_requests) = [Some first]).
  { unfold make_requests.
    replace (Z.to_nat (maxMergeRequests + 1)) with (S (Z.to_nat maxMergeRequests))
      by (unfold maxMergeRequests; lia).
    reflexivity. }
  rewrite Hfirst. cbn [app length].
  rewrite app_comm_cons, take_app_length'
    by (cbn [length]; rewrite length_fmap, length_app; lia).
  cbn [omap list_omap id]. f_equal.
  induction (rest ++ arrivals) as [|y ys IHy]; [done|]. simpl. by f_equal.
Qed.

Lemma X3_batch_is_fifo_witness :
  exists requests ch',
    collect (mkChan [mkRequest "tso-0" 3 None] [] (maxMergeRequests + 1))
            [mkRequest "tso-0" 5 None] make_requests
    = Batch (1 + 1) requests ch'
    /\ batch_of (1 + 1) requests = [mkRequest "tso-0" 3 None] ++ [mkRequest "tso-0" 5 None]
    /\ buf ch' = [] /\ sendq ch' = [].
Proof.
  apply (X3_batch_is_fifo (mkChan [mkRequest "tso-0" 3 None] [] (maxMergeRequests + 1))
           [mkRequest "tso-0" 5 None]).
  - reflexivity.
  - discriminate.
  - reflexivity.
  - simpl. unfold maxMergeRequests. lia.
Defined.

(** ** Queues and their dispatchers *)

(** X4. One dispatcher per host. When a host has no queue, the first request
    to it creates one, under a context derived from the caller's server
    context, and starts its dispatcher; a second request to the same host
    starts nothing: it is handed the same queue and context, whatever
    server context it brings, and the channel of the queue then holds the
    two requests in the order of the calls. No other queue changes. *)
Theorem X4_one_dispatcher_per_host (d : TSODispatcher) (serverCtx1 serverCtx2 : Context)
    (req1 req2 : Request) :
  dispatchChs d !! getForwardedHost req1 = None ->
  getForwardedHost req2 = getForwardedHost req1 ->
  let r1 := DispatchRequest d serverCtx1 req1 in
  let r2 := DispatchRequest (after r1) serverCtx2 req2 in
  started r1 = true
  /\ started r2 = false
  /\ queue_addr r2 = queue_addr r1
  /\ dispatchChs (after r2) = <[getForwardedHost req1 := queue_addr r1]> (dispatchChs d)
  /\ queues (after r2) !! queue_addr r1
     = Some (mkQueue (mkChan [req1; req2] [] (maxMergeRequests + 1))
                     (WithCancelCause serverCtx1))
  /\ forall a, a <> queue_addr r1 -> queues (after r2) !! a = queues d !! a.
Proof.
  intros Hnew Hhost r1 r2. subst r2.
  assert (Hr1 : r1 = mkDispatched
                  (mkDispatcher
                     (<[getForwardedHost req1 := fresh (dom (queues d))]> (dispatchChs d))
                     (<[fresh (dom (queues d)) :=
                          mkQueue (chan_send (make_chan (maxMergeRequests + 1)) req1)
                                  (WithCancelCause serverCtx1)]> (queues d)))
                  (fresh (dom (queues d))) true).
  { unfold r1, DispatchRequest. by rewrite Hnew. }
  clearbody r1. subst r1. cbn [after queue_addr started].
  unfold DispatchRequest. rewrite Hhost. cbn [dispatchChs].
  rewrite lookup_insert_eq. cbn [after queue_addr started dispatchChs].
  split_and!; [done | done | done | done | |].
  - unfold update_queue. cbn [queues]. by rewrite lookup_alter_eq, lookup_insert_eq.
  - intros a Ha. unfold update_queue. cbn [queues].
    by rewrite lookup_alter_ne, lookup_insert_ne.
Qed.

Lemma X4_one_dispatcher_per_host_witness :
  let r1 := DispatchRequest (mkDispatcher ∅ ∅) running first_request in
  let r2 := DispatchRequest (after r1) (mkContext (Some context_Canceled)) one_request in
  started r1 = true
  /\ started r2 = false
  /\ queue_addr r2 = queue_addr r1
  /\ dispatchChs (after r2) = <[getForwardedHost first_request := queue_addr r1]> ∅
  /\ queues (after r2) !! queue_addr r1
     = Some (mkQueue (mkChan [first_request; one_request] [] (maxMergeRequests + 1))
                     (WithCancelCause running))
  /\ forall a, a <> queue_addr r1 -> queues (after r2) !! a = (∅ : gmap nat _) !! a.
Proof.
  apply (X4_one_dispatcher_per_host (mkDispatcher ∅ ∅) running
           (mkContext (Some context_Canceled)) first_request one_request).
  - reflexivity.
  - reflexivity.
Defined.

(** The loop of a dispatcher works on its own queue: the dispatch mapping
    and the queues of the other hosts are as it found them. *)
Lemma dispatch_loop_frame addr events : forall requests d exit d',
  dispatch_loop events addr requests d = (exit, d') ->
  dispatchChs d' = dispatchChs d
  /\ forall a, a <> addr -> queues d' !! a = queues d !! a.
Proof.
  assert (Hupd : forall d f a, a <> addr ->
            queues (update_queue d addr f) !! a = queues d !! a).
  { intros d f a Ha. unfold update_queue. cbn [queues]. by rewrite lookup_alter_ne. }
  induction events as [|ev events IH]; intros requests d exit d' Hrun.
  - injection Hrun as <- <-. done.
  - assert (Hnext : forall requests d1,
              dispatchChs d1 = dispatchChs d ->
              (forall a, a <> addr -> queues d1 !! a = queues d !! a) ->
              dispatch_loop events addr requests d1 = (exit, d') ->
              dispatchChs d' = dispatchChs d
              /\ forall a, a <> addr -> queues d' !! a = queues d !! a).
    { intros requests1 d1 Hm Hq Hrun1.
      destruct (IH requests1 d1 exit d' Hrun1) as [Hm' Hq'].
      split; [congruence|]. intros a Ha. by rewrite Hq', Hq. }
    cbn [dispatch_loop] in Hrun.
    destruct (queues d !! addr) as [q|]; [|by injection Hrun as <- <-].
    destruct ev as [req| |arrivals sent reply| |].
    + eapply Hnext in Hrun; [exact Hrun | done | apply Hupd].
    + eapply Hnext in Hrun; [exact Hrun | done | apply Hupd].
    + destruct (collect (requestCh q) arrivals requests) as [pending requests1 ch|i|].
      * destruct (ctx_Done (ctx q) && negb sent).
        { injection Hrun as <- <-. split; [done|]. apply Hupd. }
        destruct (processRequests reply (batch_of pending requests1)) as [p|].
        -- destruct (returned p) as [e|].
           ++ injection Hrun as <- <-. split; [done|].
              intros a Ha. by rewrite !Hupd.
           ++ eapply Hnext in Hrun; [exact Hrun | done | apply Hupd].
        -- injection Hrun as <- <-. split; [done|]. apply Hupd.
      * by injection Hrun as <- <-.
      * eapply Hnext in Hrun; [exact Hrun | done | done].
    + injection Hrun as <- <-. split; [done|]. apply Hupd.
    + destruct (ctx_Done (ctx q)).
      * by injection Hrun as <- <-.
      * eapply Hnext in Hrun; [exact Hrun | done | done].
Qed.

(** X5. A dispatcher goroutine that has left has removed the entry of its
    host from the dispatch mapping, however it left: after a failure, but
    also when its context was done or when it panicked. While it runs the
    mapping is as it was. In either case the entries of the other hosts and
    the queues of the other dispatchers are untouched. *)
Theorem X5_dispatch_leaves_others_alone (d d' : TSODispatcher) (addr : nat)
    (host : string) (created : bool * option error) (events : list Event) (exit : Exit) :
  dispatch d addr host created events = (exit, d') ->
  dispatchChs d'
  = (if still_running exit then dispatchChs d
     else delete host (dispatchChs d))
  /\ (forall other, other <> host -> dispatchChs d' !! other = dispatchChs d !! other)
  /\ (forall a, a <> addr -> queues d' !! a = queues d !! a).
Proof.
  intros Hrun.
  assert (Hloop : exists d0,
            dispatchChs d0 = dispatchChs d
            /\ (forall a, a <> addr -> queues d0 !! a = queues d !! a)
            /\ d' = if still_running exit then d0 else delete_host host d0).
  { unfold dispatch in Hrun. destruct created as [[|] [err|]].
    - injection Hrun as <- <-. eexists. split_and!; [| |reflexivity]; [done|].
      intros a Ha. unfold update_queue. cbn [queues]. by rewrite lookup_alter_ne.
    - destruct (dispatch_loop events addr make_requests d) as [exit0 d0] eqn:Hl.
      destruct (dispatch_loop_frame addr events _ _ _ _ Hl) as [Hm Hq].
      exists d0. split_and!; [done | done |].
      by destruct exit0; injection Hrun as <- <-.
    - injection Hrun as <- <-. eexists. split_and!; [| |reflexivity]; [done|].
      intros a Ha. unfold update_queue. cbn [queues]. by rewrite lookup_alter_ne.
    - injection Hrun as <- <-. eexists. split_and!; [| |reflexivity]; [done|].
      intros a Ha. unfold update_queue. cbn [queues]. by rewrite lookup_alter_ne. }
  destruct Hloop as (d0 & Hm & Hq & ->).
  destruct (still_running exit); cbn [delete_host dispatchChs queues]; rewrite ?Hm.
  - by split_and!.
  - split_and!; [done | | done]. intros other Ho. by rewrite lookup_delete_ne.
Qed.

Lemma X5_dispatch_leaves_others_alone_witness :
  let run := dispatch one_queue 0 "tso-0" (true, None) [ServerShutdown; SelectDone] in
  dispatchChs (snd run)
  = (if still_running (fst run) then dispatchChs one_queue
     else delete "tso-0" (dispatchChs one_queue))
  /\ (forall other, other <> "tso-0" ->
        dispatchChs (snd run) !! other = dispatchChs one_queue !! other)
  /\ (forall a, a <> 0%nat -> queues (snd run) !! a = queues one_queue !! a).
Proof.
  apply (X5_dispatch_leaves_others_alone one_queue _ 0 "tso-0" (true, None)
           [ServerShutdown; SelectDone] ContextDone).
  reflexivity.
Defined.

(** ** The deadline watcher *)

Lemma WatchTSDeadline_taken events :
  timers_put (WatchTSDeadline events) = (fun p => timer (fst p)) <$> taken events
  /\ cancels (WatchTSDeadline events)
     = (fun p => cancel (fst p))
         <$> filter (fun p => expired (snd p) = true) (taken events).
Proof.
  induction events as [|[d [| |]|] events [IHt IHc]]; simpl; try done.
  - split; f_equal; [exact IHt | exact IHc].
  - split; [f_equal; exact IHt|]. by rewrite filter_cons_False by done.
Qed.

(** X6. The deadline watcher puts back into the pool the timer of every
    deadline it takes, once each and in the order taken, whichever way the
    wait ends; it calls the cancel function of a deadline only when the
    timer of that deadline fired, never for a batch that was done in time;
    and once it has returned nothing that comes later makes it act. *)
Theorem X6_watcher_returns_every_timer (events later : list DeadlineEvent) :
  timers_put (WatchTSDeadline events) = (fun p => timer (fst p)) <$> taken events
  /\ (forall c, c ∈ cancels (WatchTSDeadline events) ->
        exists d, (d, TimerExpired) ∈ taken events /\ cancel d = c)
  /\ (forall d, (d, TimerExpired) ∈ taken events ->
        cancel d ∈ cancels (WatchTSDeadline events))
  /\ (watcher_returned (WatchTSDeadline events) = true ->
        WatchTSDeadline (events ++ later) = WatchTSDeadline events).
Proof.
  destruct (WatchTSDeadline_taken events) as [Ht Hc]. split_and!.
  - done.
  - intros c. rewrite Hc. intros ([d w] & -> & Hin)%list_elem_of_fmap.
    apply list_elem_of_filter in Hin as [Hw Hin]. simpl in Hw.
    destruct w; try done. by exists d.
  - intros d Hin. rewrite Hc. apply list_elem_of_fmap. exists (d, TimerExpired).
    split; [done|]. by apply list_elem_of_filter.
  - clear Ht Hc. induction events as [|[d [| |]|] events IH]; simpl; try done.
    + intros Hr. by rewrite IH.
    + intros Hr. by rewrite IH.
Qed.

(** ** The GetMinTS handler *)



(** ** Scatter progress *)

(** X8. For an operator count and a number of failures that are not
    negative and stay below 2^56 together, [scatterRegions] does not panic
    and answers a percentage between 0 and 100: 100 when nothing failed, and
    otherwise the share of the operators among operators and failures,
    rounded up, so that 100 is also the answer when fewer than one percent
    failed, and 0 only when no operator was created. An error of the
    scatterer comes back with percentage 0. *)
Theorem X8_scatter_percentage (opsCount failures : Z) :
  0 <= opsCount -> 0 <= failures -> opsCount + failures < 2 ^ 56 ->
  (forall e, scatterRegions opsCount failures (Some e) = Some (0, Some e))
  /\ exists p,
       scatterRegions opsCount failures None = Some (p, None)
       /\ 0 <= p <= 100
       /\ (failures = 0 -> p = 100)
       /\ (0 < failures ->
           100 * opsCount <= p * (opsCount + failures)
                          < 100 * opsCount + (opsCount + failures))
       /\ (p = 0 <-> 0 < failures /\ opsCount = 0).
Proof.
  intros Hops Hf Hsum. split; [done|]. unfold scatterRegions.
  case_bool_decide as Hfail.
  - rewrite (wrap_i64_small (opsCount + failures)) by lia.
    rewrite bool_decide_eq_false_2 by lia.
    rewrite (wrap_i64_small (100 * failures)) by lia.
    rewrite Z.quot_div_nonneg by lia.
    set (t := opsCount + failures) in *. set (q := 100 * failures / t).
    assert (Hq0 : 0 <= q) by (apply Z.div_pos; lia).
    assert (Hq1 : q * t <= 100 * failures) by (subst q; rewrite Z.mul_comm;
      apply Z.mul_div_le; lia).
    assert (Hq2 : 100 * failures < (q + 1) * t).
    { subst q. pose proof (Z.mod_pos_bound (100 * failures) t ltac:(lia)).
      pose proof (Z.div_mod (100 * failures) t ltac:(lia)). nia. }
    assert (Hq3 : q <= 100) by nia.
    rewrite (wrap_i64_small q), (wrap_i64_small (100 - q)) by lia.
    exists (100 - q). split; [done|]. split; [lia|]. split; [lia|].
    split; [intros _; nia|]. split.
    + intros Hp. split; [done|]. nia.
    + intros [_ ->]. subst t. nia.
  - exists 100. split; [done|]. split; [lia|]. split; [done|].
    split; [lia|]. split; [done | lia].
Qed.

Lemma X8_scatter_percentage_witness :
  (forall e, scatterRegions 100 1 (Some e) = Some (0, Some e))
  /\ exists p,
       scatterRegions 100 1 None = Some (p, None)
       /\ 0 <= p <= 100
       /\ (1 = 0 -> p = 100)
       /\ (0 < 1 -> 100 * 100 <= p * (100 + 1) < 100 * 100 + (100 + 1))
       /\ (p = 0 <-> 0 < 1 /\ 100 = 0).
Proof.
  apply (X8_scatter_percentage 100 1); lia.
Defined.

(** ** The pool of delegate connections *)

(** X9. One connection per host. Whatever the dial answers and whatever
    another goroutine publishes in between, a call of [getDelegateClient]
    leaves every pooled connection in place; the connection it returns is
    the one the pool holds for the host afterwards; it does not dial when
    the host is pooled, and leaves the pool as it is when the dial fails; a
    connection it closes is one it dialled itself and lost the race with,
    never the one it returns. Without a store in between it is the
    [getDelegateClient] of the middleware. *)
Theorem X9_delegate_pool (s : Server) (dial : string -> nat + error)
    (other : option nat) (host : string) :
  let r := getDelegateClient_LoadOrStore (clientConns s) dial other host in
  (forall h c, clientConns s !! h = Some c -> pool_after r !! h = Some c)
  /\ (forall h, h <> host -> pool_after r !! h = clientConns s !! h)
  /\ (forall c, delegate r = inl c -> pool_after r !! host = Some c)
  /\ (forall e, delegate r = inr e ->
        pool_after r = clientConns s /\ dial host = inr e /\ closed_conns r = [])
  /\ (is_Some (clientConns s !! host) -> dialled r = false /\ closed_conns r = [])
  /\ (forall c, c ∈ closed_conns r ->
        dial host = inl c /\ exists o, other = Some o /\ delegate r = inl o)
  /\ (other = None ->
        clientConns (fst (getDelegateClient s dial host)) = pool_after r
        /\ snd (getDelegateClient s dial host) = delegate r).
Proof.
  assert (Hkeep : forall (c0 : nat) h c, clientConns s !! host = None ->
            clientConns s !! h = Some c -> <[host := c0]> (clientConns s) !! h = Some c).
  { intros c0 h c Hnone Hh. rewrite lookup_insert_ne; [done|]. intros <-. congruence. }
  unfold getDelegateClient_LoadOrStore, getDelegateClient.
  destruct (clientConns s !! host) as [client|] eqn:Hpool; cbn zeta.
  - cbn [pool_after delegate dialled closed_conns].
    split_and!; try done.
    + by intros c [= <-].
    + by intros c Hc%elem_of_nil.
  - destruct (dial host) as [newConn|e] eqn:Hdial.
    + destruct other as [o|].
      * rewrite lookup_insert_eq. cbn [pool_after delegate dialled closed_conns].
        split_and!; try done; try (by intros [? ?]).
        -- intros h c Hh. by apply Hkeep.
        -- intros h Hh. by rewrite lookup_insert_ne.
        -- intros c [= <-]. by rewrite lookup_insert_eq.
        -- intros c Hc. apply list_elem_of_singleton in Hc as ->. eauto.
      * rewrite Hpool. cbn [pool_after delegate dialled closed_conns].
        split_and!; try done; try (by intros [? ?]).
        -- intros h c Hh. by apply Hkeep.
        -- intros h Hh. by rewrite lookup_insert_ne.
        -- intros c [= <-]. by rewrite lookup_insert_eq.
        -- by intros c Hc%elem_of_nil.
    + cbn [pool_after delegate dialled closed_conns].
      split_and!; try done; try (by intros [? ?]).
      by intros c Hc%elem_of_nil.
Qed.

(** ** Guards on a healthy stream, and the relays *)

Lemma guard_step_healthy g closed c :
  closed <> 1 -> healthy g c = true ->
  guard_step g closed c = (closed, mkReply None true (call_latency c)).
Proof.
  intros Hopen Hc.
  destruct g, c as [tie c|timeout tie c]; simpl in *;
    unfold tsoServer_send, tsoServer_recv, heartbeatServer_Send, heartbeatServer_Recv,
      bucketHeartbeatServer_send, bucketHeartbeatServer_recv;
    rewrite bool_decide_eq_false_2 by done.
  - by destruct (race _ tie c) as [[e|]|].
  - by destruct (race timeout tie c) as [[r [e|]]|].
  - by destruct (race _ tie c) as [[e|]|].
  - by destruct (result c) as [r [e|]].
  - by destruct (race _ tie c) as [[e|]|].
  - by destruct (result c) as [r [e|]].
Qed.

(** X10. A guard closes only when a call fails. From an open guard, any run
    of sends and receives that the underlying stream answers in time and
    without error leaves the flag as it was, and every one of the calls
    reaches the stream, returns no error and takes the time the stream
    took. *)
Theorem X10_guard_stays_open (g : Guard) (closed : Z) (calls : list GuardCall) :
  closed <> 1 ->
  Forall (fun c => healthy g c = true) calls ->
  guard_run g closed calls
  = (closed, (fun c => mkReply None true (call_latency c)) <$> calls).
Proof.
  intros Hopen Hall. induction Hall as [|c calls Hc _ IH]; [done|].
  cbn [guard_run]. rewrite (guard_step_healthy g closed c Hopen Hc), IH. done.
Qed.

Lemma X10_guard_stays_open_witness :
  guard_run tsoServer 0 [DoRecv (3 * second) false quick_recv; DoSend false quick_send]
  = (0, (fun c => mkReply None true (call_latency c))
          <$> [DoRecv (3 * second) false quick_recv; DoSend false quick_send]).
Proof.
  apply (X10_guard_stays_open tsoServer 0
           [DoRecv (3 * second) false quick_recv; DoSend false quick_send]).
  - discriminate.
  - repeat constructor.
Defined.

Lemma forwardClientToServer_relays {Resp} (g : Guard) (closed : Z)
    (good rest : list (RelayTurn Resp)) :
  closed <> 1 -> Forall (fun t => relays g t = true) good ->
  forwardClientToServer g closed (good ++ rest)
  = let r := forwardClientToServer g closed rest in
    mkRelayed (relay_closed r) (received good ++ relayed r) (errCh r) (relay_returned r).
Proof.
  intros Hopen Hall. induction Hall as [|t good Ht _ IH].
  - simpl. by destruct (forwardClientToServer g closed rest).
  - apply andb_prop in Ht as [[Hm%negb_true_iff Hrecv]%andb_prop Hsend].
    cbn [app forwardClientToServer]. rewrite Hm.
    destruct (relay_recv t) as [resp|e] eqn:Hr; [|done].
    rewrite (guard_step_healthy g closed (DoSend (relay_tie t) (relay_send t)) Hopen Hsend).
    cbn [reply_err]. rewrite IH. cbn zeta.
    cbn [relay_closed relayed errCh relay_returned].
    unfold received. cbn [omap list_omap]. by rewrite Hr.
Qed.

(** X11. A relay hands on what it receives until the first failure, and
    reports that failure once. From an open guard, after turns that go
    through and one that does not, the responses sent on are exactly those
    of the turns that went through, in order; the relay has returned, and
    [errCh] holds the error of the failing turn under a stack: the error of
    the forward stream if its [Recv] failed, and otherwise the error of the
    guard, which is then closed; when another goroutine had closed the
    guard, that is the closed answer of the guard and the underlying stream
    is not called. Turns that all go through leave the relay running with
    an empty [errCh]. *)
Theorem X11_relay_stops_at_first_error {Resp : Type} (g : Guard) (closed : Z)
    (good rest : list (RelayTurn Resp)) (bad : RelayTurn Resp) :
  closed <> 1 ->
  Forall (fun t => relays g t = true) good ->
  relays g bad = false ->
  let r := forwardClientToServer g closed (good ++ bad :: rest) in
  relayed r = received good
  /\ relay_returned r = true
  /\ (forall e, relay_recv bad = inr e -> errCh r = Some (WithStack e))
  /\ (forall resp, relay_recv bad = inl resp ->
        relay_closed r = 1
        /\ exists e, errCh r = Some (WithStack e)
           /\ (closed_meanwhile bad = true ->
               e = closed_answer g (DoSend (relay_tie bad) (relay_send bad))))
  /\ relayed (forwardClientToServer g closed good) = received good
  /\ relay_returned (forwardClientToServer g closed good) = false
  /\ errCh (forwardClientToServer g closed good) = None.
Proof.
  intros Hopen Hgood Hbad r. subst r.
  rewrite (forwardClientToServer_relays g closed good (bad :: rest) Hopen Hgood).
  pose proof (forwardClientToServer_relays g closed good [] Hopen Hgood) as Hrun.
  rewrite app_nil_r in Hrun. rewrite Hrun. clear Hrun.
  cbn zeta. cbn [forwardClientToServer relay_closed relayed errCh relay_returned].
  rewrite app_nil_r.
  destruct (relay_recv bad) as [resp|e] eqn:Hrecv.
  - destruct (closed_meanwhile bad) eqn:Hm.
    + rewrite guard_step_closed. cbn [closed_reply reply_err errors_WithStack].
      cbn [relay_closed relayed errCh relay_returned]. rewrite app_nil_r.
      split_and!; try done. intros resp' _. split; [done|]. eauto.
    + unfold relays in Hbad. rewrite Hm, Hrecv in Hbad. cbn [negb andb] in Hbad.
      assert (Hstep : exists e, guard_step g closed (DoSend (relay_tie bad) (relay_send bad))
                                = (1, mkReply (Some e) true
                                        (snd (guard_step g closed
                                                (DoSend (relay_tie bad) (relay_send bad)))).(reply_elapsed))).
      { destruct g; cbn [guard_step send_timeout] in *;
          unfold tsoServer_send, heartbeatServer_Send, bucketHeartbeatServer_send;
          rewrite bool_decide_eq_false_2 by done;
          destruct (race _ (relay_tie bad) (relay_send bad)) as [[e|]|]; try done;
          eexists; reflexivity. }
      destruct Hstep as (e & ->). cbn [reply_err errors_WithStack].
      cbn [relay_closed relayed errCh relay_returned]. rewrite app_nil_r.
      split_and!; try done. intros resp' _. split; [done|]. exists e. by split.
  - cbn [errors_WithStack relay_closed relayed errCh relay_returned].
    rewrite app_nil_r. split_and!; try done. by intros e' [= <-].
Qed.

Lemma X11_relay_stops_at_first_error_witness :
  let good := [mkRelayTurn false (inl 7) false quick_send] in
  let bad := mkRelayTurn false (inl 8) false slow_send in
  let r := forwardClientToServer heartbeatServer 0 (good ++ bad :: []) in
  relayed r = received good
  /\ relay_returned r = true
  /\ (forall e, relay_recv bad = inr e -> errCh r = Some (WithStack e))
  /\ (forall resp, relay_recv bad = inl resp ->
        relay_closed r = 1
        /\ exists e, errCh r = Some (WithStack e)
           /\ (closed_meanwhile bad = true ->
               e = closed_answer heartbeatServer (DoSend (relay_tie bad) (relay_send bad))))
  /\ relayed (forwardClientToServer heartbeatServer 0 good) = received good
  /\ relay_returned (forwardClientToServer heartbeatServer 0 good) = false
  /\ errCh (forwardClientToServer heartbeatServer 0 good) = None.
Proof.
  apply (X11_relay_stops_at_first_error heartbeatServer 0
           [mkRelayTurn false (inl 7) false quick_send] []
           (mkRelayTurn false (inl 8) false slow_send)).
  - discriminate.
  - repeat constructor.
  - reflexivity.
Defined.

(** ** The minimum timestamp, whatever the order of the answers *)

Lemma sum_serving_Permutation resps resps' :
  resps ≡ₚ resps' -> sum_serving resps = sum_serving resps'.
Proof.
  induction 1 as [|r l l' _ IH|r1 r2 l|l1 l2 l3 _ IH1 _ IH2]; simpl in *; lia.
Qed.

Lemma consistent_Permutation resps resps' :
  resps ≡ₚ resps' -> consistent resps -> consistent resps'.
Proof.
  intros Hperm (first & Hhead & Hpos & Hall & Hsum & Hex).
  destruct resps' as [|first' rest'].
  { apply Permutation_nil_r in Hperm. by subst. }
  assert (Hfirst : KeyspaceGroupsTotal first' = KeyspaceGroupsTotal first).
  { rewrite Forall_forall in Hall. apply Hall. rewrite Hperm. by left. }
  exists first'. rewrite Hfirst. split_and!; [done | done | | |].
  - by rewrite <- Hperm.
  - by rewrite <- (sum_serving_Permutation _ _ Hperm).
  - by rewrite <- Hperm.
Qed.

Lemma min_positive_Permutation ts resps resps' :
  resps ≡ₚ resps' -> min_positive ts resps -> min_positive ts resps'.
Proof.
  intros Hperm ((r & Hr & Hts) & Hp & Hmin). split_and!; [|done|].
  - exists r. by rewrite <- Hperm.
  - intros r' Hr'. apply Hmin. by rewrite Hperm.
Qed.

Lemma min_positive_unique ts ts' resps :
  min_positive ts resps -> min_positive ts' resps ->
  Physical ts = Physical ts' /\ Logical ts = Logical ts'.
Proof.
  intros ((r & Hr & Hts) & Hp & Hmin) ((r' & Hr' & Hts') & Hp' & Hmin').
  pose proof (Hmin r' Hr') as H1. rewrite Hts' in H1. specialize (H1 Hp').
  pose proof (Hmin' r Hr) as H2. rewrite Hts in H2. specialize (H2 Hp).
  destruct (CompareTimestamp_spec (Some ts) (Some ts')) as [[Hc Hl]|[[Hc Hl]|[Hc Hl]]],
           (CompareTimestamp_spec (Some ts') (Some ts)) as [[Hc' Hl']|[[Hc' Hl']|[Hc' Hl']]];
    unfold lex_lt in *; simpl in *; lia.
Qed.

(** X12. The order in which the TSO servers answer does not matter to the
    outcome. For [uint32] fields whose sum of keyspace-groups-serving stays
    below 2^32, two runs of [GetMinTSFromTSOService] over the same answers
    in different orders both succeed or both fail, and when they succeed
    they return timestamps with the same physical and logical parts. The
    error of a failing run may differ with the order. *)
Theorem X12_min_ts_order_independent
    (answers answers' : list (string * option GetMinTSResponse)) :
  answers ≡ₚ answers' ->
  Forall (fun r => 0 <= KeyspaceGroupsServing r /\ 0 <= KeyspaceGroupsTotal r)
         (responses answers) ->
  sum_serving (responses answers) < 2 ^ 32 ->
  (snd (GetMinTSFromTSOService false answers) = None
   <-> snd (GetMinTSFromTSOService false answers') = None)
  /\ (forall ts ts',
        GetMinTSFromTSOService false answers = (Some ts, None) ->
        GetMinTSFromTSOService false answers' = (Some ts', None) ->
        Physical ts = Physical ts' /\ Logical ts = Logical ts').
Proof.
  intros Hperm Hwf Hsum.
  assert (Hresps : responses answers ≡ₚ responses answers')
    by (unfold responses; by rewrite Hperm).
  assert (Hwf' : Forall (fun r => 0 <= KeyspaceGroupsServing r /\ 0 <= KeyspaceGroupsTotal r)
                        (responses answers')) by (by rewrite <- Hresps).
  assert (Hsum' : sum_serving (responses answers') < 2 ^ 32)
    by (by rewrite <- (sum_serving_Permutation _ _ Hresps)).
  destruct (GetMinTS_cases answers Hwf Hsum)
    as [(ts & Hrun & Hcons & Hmin)|(fmt & args & Hrun & Hcons)],
     (GetMinTS_cases answers' Hwf' Hsum')
    as [(ts' & Hrun' & Hcons' & Hmin')|(fmt' & args' & Hrun' & Hcons')];
    rewrite Hrun, Hrun'.
  - split; [done|]. intros t t' [= <-] [= <-].
    apply (min_positive_unique ts ts' (responses answers')); [|done].
    by apply (min_positive_Permutation ts (responses answers)).
  - destruct Hcons'. by apply (consistent_Permutation (responses answers)).
  - destruct Hcons. apply (consistent_Permutation (responses answers')); [|done].
    by symmetry.
  - split; [done|]. by intros t t' [= _ ?].
Qed.

Lemma X12_min_ts_order_independent_witness :
  (snd (GetMinTSFromTSOService false three_of_three) = None
   <-> snd (GetMinTSFromTSOService false (reverse three_of_three)) = None)
  /\ (forall ts ts',
        GetMinTSFromTSOService false three_of_three = (Some ts, None) ->
        GetMinTSFromTSOService false (reverse three_of_three) = (Some ts', None) ->
        Physical ts = Physical ts' /\ Logical ts = Logical ts').
Proof.
  apply (X12_min_ts_order_independent three_of_three (reverse three_of_three)).
  - apply Permutation_rev.
  - repeat constructor; simpl; lia.
  - reflexivity.
Defined.

(** ** The scheduling client, over time *)

(** X13. The cached scheduling client follows the primary. When the cache
    holds nothing, the empty record or a record built for a primary, and
    another goroutine stores nothing but such records:
    [updateSchedulingClient] fails, with no record and no change of the
    cache, exactly when there is no primary, or the cached record is for
    another primary (or empty, or missing) and the dial fails; otherwise it
    returns a record with a client for the current primary, which is the
    cached record itself when that one was built for this primary, and
    else a fresh record made from the dialled connection, which is also the
    record cached afterwards unless another goroutine stored one in
    between. The empty record left by a failed send is therefore never
    handed out: the next call dials again. In every case the cache again
    holds nothing, the empty record or a built one. *)
Theorem X13_scheduling_client_follows_primary (c c' : SchedulingCache)
    (primaryAddr : string) (dialed : nat + error) (other r : option schedulingClient)
    (e : option error) :
  cache_ok (stored c) -> cache_ok other ->
  updateSchedulingClient c primaryAddr dialed other = (c', r, e) ->
  cache_ok (stored c')
  /\ (e <> None -> r = None /\ c' = c)
  /\ (e = None <->
      primaryAddr <> ""
      /\ (getPrimaryAddr (stored c) = primaryAddr \/ exists conn, dialed = inl conn))
  /\ (e = None ->
      exists rec, r = Some rec /\ built rec /\ primary rec = primaryAddr
        /\ (getPrimaryAddr (stored c) = primaryAddr -> r = stored c /\ c' = c)
        /\ (getPrimaryAddr (stored c) <> primaryAddr ->
            dialed = inl (default 0%nat (client rec))
            /\ address rec = next_address c
            /\ (other = None -> stored c' = Some rec))).
Proof.
  intros Hc Ho. unfold updateSchedulingClient.
  case_bool_decide as Hempty.
  { intros [= <- <- <-]. split_and!; [done | done | | done]. split; [done|]. by intros [? _]. }
  destruct (stored c) as [pre|] eqn:Hpre; cbn [getPrimaryAddr].
  - rewrite (bool_decide_eq_true_2 (is_Some (Some pre))) by done. cbn [andb].
    case_bool_decide as Hsame.
    + intros [= <- <- <-]. split_and!; [by rewrite Hpre | done | | ].
      { split; [|done]. intros _. split; [done|]. by left. }
      intros _. exists pre. destruct Hc as [[_ Hp]|Hb]; [congruence|].
      split_and!; [done | done | done | done | done].
    + destruct dialed as [conn|err].
      * unfold CompareAndSwap, interfere. intros [= <- <- <-].
        split_and!.
        -- destruct other as [o|]; cbn [stored same_pointer].
           ++ destruct (bool_decide (address o = address pre)); cbn [fst stored];
                [right; by split | done].
           ++ rewrite bool_decide_eq_true_2 by done. cbn [fst stored]. right. by split.
        -- done.
        -- split; [|done]. intros _. split; [done|]. right. by exists conn.
        -- intros _. eexists. split; [reflexivity|].
           split_and!; [by split | done | done |].
           intros _. split_and!; [done | done |]. intros ->. cbn [stored same_pointer].
           by rewrite bool_decide_eq_true_2.
      * intros [= <- <- <-]. split_and!; [by rewrite Hpre | done | | done].
        split; [done|]. intros [_ [?|[conn ?]]]; congruence.
  - cbn [andb]. rewrite (bool_decide_eq_false_2 (is_Some None)) by (by intros [? ?]).
    cbn [andb]. destruct dialed as [conn|err].
    + unfold CompareAndSwap, interfere. intros [= <- <- <-].
      split_and!.
      * destruct other as [o|]; cbn [stored same_pointer fst]; [done|].
        right. by split.
      * done.
      * split; [|done]. intros _. split; [done|]. right. by exists conn.
      * intros _. eexists. split; [reflexivity|].
        split_and!; [by split | done | done |].
        intros _. split_and!; [done | done |]. by intros ->.
    + intros [= <- <- <-]. split_and!; [by rewrite Hpre | done | | done].
      split; [done|]. intros [_ [?|[conn ?]]]; congruence.
Qed.

Lemma X13_scheduling_client_follows_primary_witness :
  let c := mkCache (Some (mkSchedulingClient 0 None "")) 1 in
  let rec := mkSchedulingClient 1 (Some 3%nat) "http://scheduling-0" in
  let c' := mkCache (Some rec) 2 in
  cache_ok (stored c')
  /\ ((None : option error) <> None -> Some rec = None /\ c' = c)
  /\ ((None : option error) = None <->
      "http://scheduling-0" <> ""
      /\ (getPrimaryAddr (stored c) = "http://scheduling-0"
          \/ exists conn, (inl 3%nat : nat + error) = inl conn))
  /\ ((None : option error) = None ->
      exists rec0, Some rec = Some rec0 /\ built rec0
        /\ primary rec0 = "http://scheduling-0"
        /\ (getPrimaryAddr (stored c) = "http://scheduling-0" ->
            Some rec = stored c /\ c' = c)
        /\ (getPrimaryAddr (stored c) <> "http://scheduling-0" ->
            (inl 3%nat : nat + error) = inl (default 0%nat (client rec0))
            /\ address rec0 = next_address c
            /\ ((None : option schedulingClient) = None -> stored c' = Some rec0))).
Proof.
  apply (X13_scheduling_client_follows_primary
           (mkCache (Some (mkSchedulingClient 0 None "")) 1)
           (mkCache (Some (mkSchedulingClient 1 (Some 3%nat) "http://scheduling-0")) 2)
           "http://scheduling-0" (inl 3%nat) None
           (Some (mkSchedulingClient 1 (Some 3%nat) "http://scheduling-0")) None).
  - left. split; reflexivity.
  - exact I.
  - reflexivity.
Defined.

(** X14. The scheduling service is only shown store heartbeats that this
    server has handled itself and to the end. With a delegate that answers
    a forwarded call with a response or an error: whenever [StoreHeartbeat]
    calls the scheduling service or touches the cached scheduling client,
    the heartbeat was not forwarded, had passed the rate limiter and the
    entry check, carried statistics that the cluster handled, and is
    answered with the regular response and no error; and no heartbeat is
    sent on more than once. *)
Theorem X14_tee_only_for_handled_heartbeats (s : Server) (c : SchedulingCache) (ctx : Ctx)
    (header : option RequestHeader) (env : HeartbeatEnv) :
  (forall ctx' client, forwarded env ctx' client <> (None, None)) ->
  let h := StoreHeartbeatHandler s c ctx header env in
  (tee_calls h <= 1)%nat
  /\ (tee_calls h <> 0%nat \/ cache_after h <> c ->
      reaches_tee s ctx header env
      /\ reply h = Some (mkHeartbeatResponse (wrapHeader s) true true)
      /\ reply_error h = None).
Proof.
  intros Hfn. cbn zeta. unfold StoreHeartbeatHandler, reaches_tee.
  destruct (rateLimitDenied env); [split; [simpl; lia | by intros [?|?]]|].
  unfold unaryMiddleware, unaryFollowerMiddleware.
  destruct (isLocalRequest s (GetForwardedHost ctx)); cbn [negb].
  - destruct (validateRoleInRequest s ctx header None) as [[e|] allow] eqn:Hrole;
      cbn [middleware_err rsp]; [split; [simpl; lia | by intros [?|?]]|].
    assert (allow = None) as ->.
    { unfold validateRoleInRequest in Hrole.
      destruct (IsClosed s), (IsLeader s); simpl in Hrole; try done;
        case_bool_decide; by injection Hrole. }
    destruct (hasStats env); cbn [negb]; [|split; [simpl; lia | by intros [?|?]]].
    destruct (raftCluster env); cbn [negb]; [|split; [simpl; lia | by intros [?|?]]].
    destruct (checkStoreError env); [split; [simpl; lia | by intros [?|?]]|].
    destruct (storeFound env); cbn [negb]; [|split; [simpl; lia | by intros [?|?]]].
    destruct (hasStoreReport env); cbn [negb]; [split; [simpl; lia | by intros [?|?]]|].
    destruct (handleHeartbeatFails env); [split; [simpl; lia | by intros [?|?]]|].
    destruct (schedulingIndependent env); [|split; [simpl; lia | by intros [?|?]]].
    destruct (tee_heartbeat c env) as [c1 calls] eqn:Htee.
    cbn [tee_calls cache_after reply reply_error Header stats_handled].
    split; [|by intros _].
    unfold tee_heartbeat in Htee.
    destruct (updateSchedulingClient c (schedulingPrimary env) (schedulingDialed env)
                (otherStoreInUpdate env)) as [[c2 forwardCli] e2].
    destruct (getClient forwardCli); [|injection Htee as <- <-; lia].
    destruct (teeResult env); injection Htee as <- <-; lia.
  - destruct (getDelegateClient s (dial env) (GetForwardedHost ctx)) as [s1 [client|e]].
    + pose proof (Hfn (ResetForwardContext ctx) client) as Hans.
      destruct (forwarded env (ResetForwardContext ctx) client) as [[r|] [e|]];
        cbn [middleware_err rsp]; try done; (split; [simpl; lia | by intros [?|?]]).
    + cbn [middleware_err rsp]. split; [simpl; lia | by intros [?|?]].
Qed.

Lemma X14_tee_only_for_handled_heartbeats_witness :
  let env := mkHeartbeatEnv false dial_ok (fun _ _ => (None, Some io_EOF)) true true false
               true false false true "http://scheduling-0" (inl 3%nat) None None None in
  let h := StoreHeartbeatHandler leader_1 empty_cache context_TODO (Some (mkHeader 1 0)) env in
  (tee_calls h <= 1)%nat
  /\ (tee_calls h <> 0%nat \/ cache_after h <> empty_cache ->
      reaches_tee leader_1 context_TODO (Some (mkHeader 1 0)) env
      /\ reply h = Some (mkHeartbeatResponse (wrapHeader leader_1) true true)
      /\ reply_error h = None).
Proof.
  apply (X14_tee_only_for_handled_heartbeats leader_1 empty_cache context_TODO
           (Some (mkHeader 1 0))
           (mkHeartbeatEnv false dial_ok (fun _ _ => (None, Some io_EOF)) true true false
              true false false true "http://scheduling-0" (inl 3%nat) None None None)).
  intros ctx' client. discriminate.
Defined.

(** ** A closed server *)

(** X15. A closed server serves nothing itself but the global
    configuration. For every RPC other than StoreGlobalConfig,
    LoadGlobalConfig and WatchGlobalConfig the entry check of a closed
    server does not let a locally handled request through (it is refused,
    answered with an error header, or handed to a service that runs on its
    own); these three ask for the etcd client alone, and are served by a
    closed server that still holds one. *)
Theorem X15_closed_server_serves_no_request (s : Server) (r : RPC) (ctx : Ctx)
    (header : option RequestHeader) :
  IsClosed s = true ->
  serves (local_verdict s r ctx header) = global_config r && etcdClient s.
Proof.
  intros Hclosed.
  assert (Hrole : forall allow,
            validateRoleInRequest s ctx header allow = (Some ErrNotStarted, allow)).
  { intros allow. unfold validateRoleInRequest. by rewrite Hclosed. }
  assert (Hreq : validateRequest s header = Some ErrNotStarted).
  { unfold validateRequest, validateRoleInRequest. by rewrite Hclosed. }
  assert (Hint : forall only, validateInternalRequest s header only = Some ErrNotStarted).
  { intros only. unfold validateInternalRequest. by rewrite Hclosed. }
  destruct r; unfold local_verdict; cbn [entry_of global_config andb];
    rewrite ?Hrole, ?Hreq, ?Hint, ?Hclosed; cbn [verdict_of serves orb]; try done.
  - by destruct (tsoIndependent s).
  - by destruct (hasRaftCluster s).
  - by destruct (hasRaftCluster s).
  - destruct (hasRaftCluster s); [|done]. by destruct (scheduling s).
  - destruct (hasRaftCluster s); [|done]. by destruct (scheduling s).
  - destruct (hasRaftCluster s); [|done]. by destruct (scheduling s).
  - destruct (hasRaftCluster s); [|done]. by destruct (scheduling s).
  - by destruct (etcdClient s).
  - by destruct (etcdClient s).
  - by destruct (etcdClient s).
Qed.

Lemma X15_closed_server_serves_no_request_witness :
  serves (local_verdict closed_1 StoreGlobalConfig context_TODO (Some (mkHeader 1 0)))
  = global_config StoreGlobalConfig && etcdClient closed_1.
Proof.
  apply (X15_closed_server_serves_no_request closed_1 StoreGlobalConfig context_TODO
           (Some (mkHeader 1 0))).
  reflexivity.
Defined.

(** ** Heartbeat streams *)

Lemma keepalive_fold_unbound store send id (l : list (Z * nat)) :
  forall s,
    Forall (fun e => fst e <> id) l ->
    hbstream.streams s !! id = None ->
    let s' := foldl (hbstream.keepalive_step store send) s l in
    hbstream.streams s' !! id = None
    /\ exists new, hbstream.calls s' = hbstream.calls s ++ new
         /\ Forall (fun c => hbstream.call_store c <> id) new.
Proof.
  induction l as [|[k stream] l IH]; intros s Hl Hid; cbn zeta.
  - split; [done|]. exists []. by rewrite app_nil_r.
  - inversion Hl as [|? ? Hk Hl']; subst. simpl in Hk. cbn [foldl].
    set (s1 := hbstream.keepalive_step store send s (k, stream)).
    assert (Hs1 : hbstream.streams s1 !! id = None
                  /\ exists added, hbstream.calls s1 = hbstream.calls s ++ added
                       /\ Forall (fun c => hbstream.call_store c <> id) added).
    { subst s1. unfold hbstream.keepalive_step.
      destruct (store k); cbn [negb].
      - destruct (send k) as [err|]; simpl.
        + rewrite lookup_delete_ne by done. split; [done|].
          eexists [_]. split; [done|]. by constructor.
        + split; [done|]. eexists [_]. split; [done|]. by constructor.
      - simpl. rewrite lookup_delete_ne by done. split; [done|].
        exists []. by rewrite app_nil_r. }
    destruct Hs1 as (H1 & added & Hc1 & Ha).
    destruct (IH s1 Hl' H1) as (Hnone & new & Hcalls & Hnew).
    split; [done|]. exists (added ++ new). rewrite Hcalls, Hc1, <- app_assoc.
    split; [done | by apply Forall_app].
Qed.

Lemma run_unbound id turns :
  forall s,
    no_binding id turns ->
    hbstream.streams s !! id = None ->
    hbstream.streams (hbstream.run turns s).1 !! id = None
    /\ exists new, hbstream.calls (hbstream.run turns s).1 = hbstream.calls s ++ new
         /\ Forall (fun c => hbstream.call_store c <> id) new.
Proof.
  induction turns as [|turn turns IH]; intros s Hno Hid.
  - split; [done|]. exists []. by rewrite app_nil_r.
  - assert (Hno' : no_binding id turns).
    { intros stream Hin. apply (Hno stream). by right. }
    assert (Hstep : forall s1 added,
              hbstream.streams s1 !! id = None ->
              hbstream.calls s1 = hbstream.calls s ++ added ->
              Forall (fun c => hbstream.call_store c <> id) added ->
              hbstream.streams (hbstream.run turns s1).1 !! id = None
              /\ exists new, hbstream.calls (hbstream.run turns s1).1 = hbstream.calls s ++ new
                   /\ Forall (fun c => hbstream.call_store c <> id) new).
    { intros s1 added Hid1 Hcalls Hadded.
      destruct (IH s1 Hno' Hid1) as (Hnone & new & Hc & Hnew).
      split; [done|]. exists (added ++ new). rewrite Hc, Hcalls, <- app_assoc.
      split; [done|]. by apply Forall_app. }
    destruct turn as [k stream|msg store send|store send|]; cbn [hbstream.run].
    + apply (Hstep _ []); [|by rewrite app_nil_r|done]. simpl.
      rewrite lookup_insert_ne; [done|]. intros ->. apply (Hno stream). by left.
    + destruct store; cbn [negb].
      * destruct (hbstream.streams s !! hbstream.GetStoreId (hbstream.GetTargetPeer msg))
          as [stream|] eqn:Hk.
        -- assert (Hne : hbstream.GetStoreId (hbstream.GetTargetPeer msg) <> id)
             by congruence.
           destruct send as [err|].
           ++ eapply Hstep;
                [simpl; by rewrite lookup_delete_ne | simpl; reflexivity | by constructor].
           ++ eapply Hstep; [done | simpl; reflexivity | by constructor].
        -- apply (Hstep _ []); [done|by rewrite app_nil_r|done].
      * apply (Hstep _ []); [|by rewrite app_nil_r|done]. simpl.
        destruct (decide (hbstream.GetStoreId (hbstream.GetTargetPeer msg) = id)) as [->|Hne].
        -- by rewrite lookup_delete_eq.
        -- by rewrite lookup_delete_ne.
    + destruct (keepalive_fold_unbound store send id (map_to_list (hbstream.streams s)) s)
        as (Hnone & added & Hcalls & Hadded); [|done|].
      { apply Forall_forall. intros [k stream] Hin%elem_of_map_to_list. simpl.
        congruence. }
      by apply (Hstep _ added).
    + split; [done|]. exists []. by rewrite app_nil_r.
Qed.

(** X16. A store that lost its stream hears nothing until it binds again.
    When a message for a store meets an unknown store or a failing [Send],
    the stream of the store is dropped; from then on, as long as no new
    stream is bound to the store, the store has no stream and no [Send] is
    made on its behalf, be it for a message or for a keepalive, whatever
    else the loop goes through. *)
Theorem X16_unbound_store_hears_nothing (s : hbstream.HeartbeatStreams)
    (msg : hbstream.RegionHeartbeatResponse) (store : bool) (send : option error)
    (turns : list hbstream.Turn) :
  store = false \/ is_Some send ->
  no_binding (hbstream.GetStoreId (hbstream.GetTargetPeer msg)) turns ->
  let id := hbstream.GetStoreId (hbstream.GetTargetPeer msg) in
  let s1 := (hbstream.run [hbstream.Message msg store send] s).1 in
  let s' := (hbstream.run (hbstream.Message msg store send :: turns) s).1 in
  hbstream.streams s1 !! id = None
  /\ hbstream.streams s' !! id = None
  /\ exists later,
       hbstream.calls s' = hbstream.calls s1 ++ later
       /\ Forall (fun c => hbstream.call_store c <> id) later.
Proof.
  intros Hfail Hno id s1 s'.
  assert (Hs1 : hbstream.streams s1 !! id = None).
  { subst s1. cbn [hbstream.run]. fold id.
    destruct store; cbn [negb]; [|simpl; by rewrite lookup_delete_eq].
    destruct Hfail as [?|[err ->]]; [done|].
    destruct (hbstream.streams s !! id) eqn:Hid; simpl; [by rewrite lookup_delete_eq|done]. }
  assert (Hrun : s' = (hbstream.run turns s1).1).
  { subst s' s1. cbn [hbstream.run].
    destruct store; cbn [negb]; [|done].
    destruct (hbstream.streams s !! _); [|done]. by destruct send. }
  split; [done|]. rewrite Hrun. by apply run_unbound.
Qed.

Lemma X16_unbound_store_hears_nothing_witness :
  let msg := hbstream.mkResponse 100 (Some (hbstream.mkPeer 2)) in
  let turns := [hbstream.Message msg true None;
                hbstream.KeepAliveTick (fun _ => true) (fun _ => None)] in
  let id := hbstream.GetStoreId (hbstream.GetTargetPeer msg) in
  let s1 := (hbstream.run [hbstream.Message msg true (Some io_EOF)] three_streams).1 in
  let s' := (hbstream.run (hbstream.Message msg true (Some io_EOF) :: turns)
               three_streams).1 in
  hbstream.streams s1 !! id = None
  /\ hbstream.streams s' !! id = None
  /\ exists later,
       hbstream.calls s' = hbstream.calls s1 ++ later
       /\ Forall (fun c => hbstream.call_store c <> id) later.
Proof.
  apply (X16_unbound_store_hears_nothing three_streams
           (hbstream.mkResponse 100 (Some (hbstream.mkPeer 2))) true (Some io_EOF)
           [hbstream.Message (hbstream.mkResponse 100 (Some (hbstream.mkPeer 2))) true None;
            hbstream.KeepAliveTick (fun _ => true) (fun _ => None)]).
  - right. by eexists.
  - intros stream Hin. repeat (apply elem_of_cons in Hin as [Hin|Hin]; [discriminate|]).
    by apply elem_of_nil in Hin.
Defined.

Lemma keepalive_fold store send (l : list (Z * nat)) : forall s,
  foldl (hbstream.keepalive_step store send) s l
  = hbstream.mkStreams
      (foldl (fun m e => if alive store send (fst e) then m else delete (fst e) m)
             (hbstream.streams s) l)
      (hbstream.calls s
       ++ omap (fun e => if store (fst e)
                         then Some (hbstream.mkSendCall (fst e) (snd e) hbstream.keepAlive
                                      (send (fst e)))
                         else None) l).
Proof.
  induction l as [|[k stream] l IH]; intros s.
  - simpl. rewrite app_nil_r. by destruct s.
  - cbn [foldl omap list_omap fst snd]. rewrite IH. unfold hbstream.keepalive_step, alive.
    destruct (store k); cbn [negb andb]; [|done].
    destruct (send k); simpl; by rewrite <- app_assoc.
Qed.

Lemma fold_delete_lookup (keep : Z -> bool) (l : list (Z * nat)) : forall (m : gmap Z nat) id,
  foldl (fun m e => if keep (fst e) then m else delete (fst e) m) m l !! id
  = if keep id then m !! id
    else if bool_decide (id ∈ l.*1) then None else m !! id.
Proof.
  induction l as [|[k stream] l IH]; intros m id.
  - cbn [foldl]. destruct (keep id); [done|].
    rewrite bool_decide_eq_false_2; [done|]. rewrite fmap_nil. apply not_elem_of_nil.
  - cbn [foldl fst]. rewrite fmap_cons. cbn [fst]. rewrite IH.
    destruct (keep id) eqn:Hid.
    + destruct (keep k) eqn:Hk; [done|]. rewrite lookup_delete_ne; [done|congruence].
    + destruct (decide (id ∈ l.*1)) as [Hin|Hin].
      * rewrite !bool_decide_eq_true_2; [done | by right | done].
      * rewrite (bool_decide_eq_false_2 (id ∈ l.*1)) by done.
        destruct (decide (k = id)) as [->|Hne].
        -- rewrite Hid, lookup_delete_eq, bool_decide_eq_true_2; [done | by left].
        -- rewrite (bool_decide_eq_false_2 (id ∈ k :: l.*1)).
           ++ destruct (keep k); [done | by rewrite lookup_delete_ne].
           ++ intros [?|?]%elem_of_cons; congruence.
Qed.

(** X17. A keepalive tick keeps exactly the streams that are alive. After a
    tick the store of every remaining stream is known to the store informer
    and its stream has taken the keepalive, every other binding is gone and
    none is added or changed, although the loop deletes from the map it
    ranges over; and the tick has sent one keepalive, no more, on the
    stream of every bound store that is known, and nothing else. *)
Theorem X17_keepalive_keeps_live_streams (s : hbstream.HeartbeatStreams)
    (store : Z -> bool) (send : Z -> option error) :
  let s' := (hbstream.run [hbstream.KeepAliveTick store send] s).1 in
  (forall id, hbstream.streams s' !! id
              = if alive store send id then hbstream.streams s !! id else None)
  /\ exists new,
       hbstream.calls s' = hbstream.calls s ++ new
       /\ (forall c, c ∈ new <->
             exists stream,
               hbstream.streams s !! hbstream.call_store c = Some stream
               /\ store (hbstream.call_store c) = true
               /\ c = hbstream.mkSendCall (hbstream.call_store c) stream hbstream.keepAlive
                        (send (hbstream.call_store c)))
       /\ NoDup (hbstream.call_store <$> new).
Proof.
  cbn zeta. cbn [hbstream.run fst]. rewrite keepalive_fold. cbn [hbstream.streams hbstream.calls].
  split.
  - intros id. rewrite fold_delete_lookup.
    destruct (alive store send id); [done|]. case_bool_decide as Hin; [done|].
    apply not_elem_of_dom. intros Hdom. apply Hin.
    apply elem_of_dom in Hdom as [stream Hs].
    apply list_elem_of_fmap. exists (id, stream). split; [done|].
    by apply elem_of_map_to_list.
  - eexists. split; [reflexivity|]. split.
    + intros c. rewrite list_elem_of_omap. split.
      * intros ([k stream] & Hin%elem_of_map_to_list & Hc). simpl in Hc.
        destruct (store k) eqn:Hk; [|done]. injection Hc as <-. simpl. eauto.
      * intros (stream & Hs & Hk & ->). exists (hbstream.call_store c, stream).
        split; [by apply elem_of_map_to_list|]. simpl. by rewrite Hk.
    + pose proof (NoDup_fst_map_to_list (hbstream.streams s)) as Hnd.
      induction (map_to_list (hbstream.streams s)) as [|[k stream] l IH]; [constructor|].
      cbn [fmap list_fmap fst] in Hnd. apply NoDup_cons in Hnd as [Hk Hnd].
      cbn [omap list_omap fst snd]. destruct (store k); [|by apply IH].
      cbn [fmap list_fmap hbstream.call_store]. apply NoDup_cons. split; [|by apply IH].
      intros Hin. apply Hk.
      apply list_elem_of_fmap in Hin as (c & Hc & Hin).
      apply list_elem_of_omap in Hin as ([k' stream'] & Hin & Hsome). simpl in Hsome.
      destruct (store k'); [|done]. injection Hsome as <-. simpl in Hc. subst k'.
      apply list_elem_of_fmap. by exists (k, stream').
Qed.

(** ** The TSO proxy of a server without an allocator *)

Lemma tsoServer_recv_open {Req} closed timeout tie (c : Call (option Req * option error)) :
  closed <> 1 ->
  let o := tsoServer_recv closed timeout tie c in
  err o <> Some io_EOF /\ (err o = None -> closed_after o = closed).
Proof.
  intros Hopen. unfold tsoServer_recv. rewrite bool_decide_eq_false_2 by done.
  destruct (race timeout tie c) as [[r [e|]]|]; simpl; by split.
Qed.

Lemma tsoServer_send_open closed tie (c : Call (option error)) :
  closed <> 1 ->
  let o := tsoServer_send closed tie c in
  err o = None -> closed_after o = closed.
Proof.
  intros Hopen. unfold tsoServer_send. rewrite bool_decide_eq_false_2 by done.
  by destruct (race _ tie c) as [[e|]|].
Qed.

Lemma forwardTSORequestWithDeadLine_sent t resp sent forced :
  forwardTSORequestWithDeadLine t = (inl resp, sent, forced) -> sent = true.
Proof.
  unfold forwardTSORequestWithDeadLine.
  destruct (done_at_deadline t); [done|].
  destruct (forwardTSORequest t); by intros [= _ <- _].
Qed.

Lemma forwardTSO_loop_inv counter turns : forall p r p',
  proxy_inv counter p ->
  forwardTSO_loop turns p = (r, p') ->
  r <> Return None
  /\ concurrentTSOProxyStreamings p' = counter
  /\ (forall c, c ∈ created_ctxs p' -> c ∈ cancelled_ctxs p' \/ cancelForward p' = Some c)
  /\ (length (proxied p') <= deadlines p')%nat.
Proof.
  induction turns as [|t turns IH]; intros p r p' (Hcount & Hopen & Hctx & Hlen) Hrun.
  - injection Hrun as <- <-. done.
  - destruct p as [cnt srv closed fs host cf created cancelled dl fl prox].
    cbn [concurrentTSOProxyStreamings proxy_closed created_ctxs cancelled_ctxs
         cancelForward proxied deadlines] in Hcount, Hopen, Hctx, Hlen.
    cbn [forwardTSO_loop] in Hrun.
    cbn [concurrentTSOProxyStreamings proxy_server proxy_closed forwardStream
         lastForwardedHost cancelForward created_ctxs cancelled_ctxs deadlines
         ForceLoads proxied] in Hrun.
    destruct (ctx_check t) as [|e|e];
      [|by injection Hrun as <- <-|by injection Hrun as <- <-].
    destruct (tsoServer_recv_open closed (recv_timeout t) (recv_tie t) (recv_call t) Hopen)
      as [Hneof Hsame].
    destruct (err (tsoServer_recv closed (recv_timeout t) (recv_tie t) (recv_call t)))
      as [e|] eqn:Herr.
    { destruct e; injection Hrun as <- <-; done. }
    rewrite (Hsame eq_refl) in Hrun. clear Hneof Hsame.
    case_bool_decide; [by injection Hrun as <- <-|].
    destruct (tso_primary t) as [forwardedHost ok].
    destruct (negb ok || _); [by injection Hrun as <- <-|].
    match type of Hrun with
    | match ?R with inl _ => _ | inr _ => _ end = _ => remember R as renewed eqn:Hren
    end.
    assert (Hinv : proxy_inv counter match renewed with inl p1 => p1 | inr (_, p1) => p1 end).
    { assert (Hcancel : forall c, c ∈ created ->
                c ∈ cancelled ++ from_option (fun c => [c]) [] cf).
      { intros c Hc. apply elem_of_app. destruct (Hctx c Hc) as [?| ->]; [by left|].
        right. simpl. by left. }
      subst renewed. destruct (_ || _); [|done].
      destruct (getDelegateClient srv (proxy_dial t) forwardedHost) as [s1 [conn|e]].
      - destruct (created_stream t) as [stream|e]; (split_and!; [done | done | | done]);
          intros c Hc; apply elem_of_app in Hc as [Hc|Hc]; simpl;
          [left; by apply Hcancel | apply list_elem_of_singleton in Hc as ->; by right
          |left; by apply Hcancel | apply list_elem_of_singleton in Hc as ->; by right].
      - split_and!; [done | done | | done]. intros c Hc. left. by apply Hcancel. }
    clear Hren Hctx.
    destruct renewed as [p1|[e p1]];
      [|injection Hrun as <- <-; destruct Hinv as (? & ? & ? & ?); by split_and!].
    destruct p1 as [cnt1 srv1 closed1 fs1 host1 cf1 created1 cancelled1 dl1 fl1 prox1].
    destruct Hinv as (Hcount1 & Hopen1 & Hctx1 & Hlen1).
    cbn [concurrentTSOProxyStreamings proxy_server proxy_closed forwardStream
         lastForwardedHost cancelForward created_ctxs cancelled_ctxs deadlines
         ForceLoads proxied] in *.
    destruct (forwardTSORequestWithDeadLine t) as [[[resp|e] sent] forced] eqn:Hfwd.
    2:{ injection Hrun as <- <-. split_and!; [done | done | done |].
        simpl. destruct sent; lia. }
    apply forwardTSORequestWithDeadLine_sent in Hfwd as ->.
    pose proof (tsoServer_send_open closed1 (send_tie t) (send_call t) Hopen1) as Hsend.
    cbn zeta in Hsend.
    destruct (err (tsoServer_send closed1 (send_tie t) (send_call t))) as [e|].
    { injection Hrun as <- <-. split_and!; [done | done | done |]. simpl. lia. }
    rewrite (Hsend eq_refl) in Hrun.
    apply IH in Hrun; [done|].
    split_and!; [done | done | done |]. simpl. rewrite length_app. simpl. lia.
Qed.

(** X18. The counter of concurrent proxy streams. With a limit that is not
    negative, a stream counts while it runs and no longer once
    [forwardTSO] has returned, also when it was refused; it is refused,
    before anything is done for it, when the counter would exceed the
    limit, and enters its loop otherwise. With a negative limit the stream
    is not counted when it comes in but is counted out when it leaves:
    every such stream leaves the counter one lower than it found it. *)
Theorem X18_proxy_stream_counter (s : Server) (counter maxStreamings : Z)
    (turns : list ProxyTurn) :
  - 2 ^ 31 < counter < 2 ^ 31 - 1 ->
  - 2 ^ 31 <= maxStreamings < 2 ^ 31 ->
  let run := forwardTSO s counter maxStreamings turns in
  (0 <= maxStreamings ->
     (run.1 = Running -> concurrentTSOProxyStreamings run.2 = counter + 1)
     /\ (forall e, run.1 = Return e -> concurrentTSOProxyStreamings run.2 = counter)
     /\ (maxStreamings < counter + 1 ->
         run.1 = Return (Some (WithStack ErrMaxCountTSOProxyRoutinesExceeded))
         /\ proxied run.2 = [] /\ created_ctxs run.2 = [] /\ deadlines run.2 = 0%nat)
     /\ (counter + 1 <= maxStreamings ->
         (forwardTSO s counter maxStreamings []).1 = Running))
  /\ (maxStreamings < 0 ->
      (run.1 = Running -> concurrentTSOProxyStreamings run.2 = counter)
      /\ (forall e, run.1 = Return e ->
            concurrentTSOProxyStreamings run.2 = counter - 1)).
Proof.
  intros Hc Hmax.
  assert (Hw : forall z, - 2 ^ 31 <= z < 2 ^ 31 -> wrap_i32 z = z).
  { intros z Hz. unfold wrap_i32. rewrite Z.mod_small; lia. }
  assert (Hloop : forall c0 r p',
            forwardTSO_loop turns (mkProxy c0 s 0 None "" None [] [] 0 0 []) = (r, p') ->
            concurrentTSOProxyStreamings p' = c0).
  { intros c0 r p' Hrun.
    eapply (forwardTSO_loop_inv c0) in Hrun as (_ & Hcount & _); [done|].
    split_and!; try done. by intros c Hin%elem_of_nil. }
  cbn zeta. unfold forwardTSO. rewrite (Hw maxStreamings), (Hw (counter + 1)) by lia.
  split.
  - intros Hpos. rewrite (bool_decide_eq_true_2 (0 <= maxStreamings)) by done.
    case_bool_decide as Hfull.
    + cbn [fst snd forwardTSO_deferred concurrentTSOProxyStreamings proxied created_ctxs
           deadlines].
      rewrite Hw by lia. split_and!; try done; try lia; intros e _; lia.
    + destruct (forwardTSO_loop turns _) as [r p'] eqn:Hrun.
      pose proof (Hloop _ _ _ Hrun) as Hcount.
      destruct r as [|e]; cbn [fst snd forwardTSO_deferred concurrentTSOProxyStreamings].
      * split_and!; try done; try lia.
      * rewrite Hcount, Hw by lia. split_and!; try done; try lia; intros e' _; lia.
  - intros Hneg. rewrite (bool_decide_eq_false_2 (0 <= maxStreamings)) by lia.
    destruct (forwardTSO_loop turns _) as [r p'] eqn:Hrun.
    pose proof (Hloop _ _ _ Hrun) as Hcount.
    destruct r as [|e]; cbn [fst snd forwardTSO_deferred concurrentTSOProxyStreamings].
    + by split.
    + rewrite Hcount, Hw by lia. by split.
Qed.

Lemma X18_proxy_stream_counter_witness :
  let run := forwardTSO leader_1 0 (-1) [proxy_turn] in
  (0 <= -1 ->
     (run.1 = Running -> concurrentTSOProxyStreamings run.2 = 0 + 1)
     /\ (forall e, run.1 = Return e -> concurrentTSOProxyStreamings run.2 = 0)
     /\ (-1 < 0 + 1 ->
         run.1 = Return (Some (WithStack ErrMaxCountTSOProxyRoutinesExceeded))
         /\ proxied run.2 = [] /\ created_ctxs run.2 = [] /\ deadlines run.2 = 0%nat)
     /\ (0 + 1 <= -1 -> (forwardTSO leader_1 0 (-1) []).1 = Running))
  /\ (-1 < 0 ->
      (run.1 = Running -> concurrentTSOProxyStreamings run.2 = 0)
      /\ (forall e, run.1 = Return e -> concurrentTSOProxyStreamings run.2 = 0 - 1)).
Proof.
  apply (X18_proxy_stream_counter leader_1 0 (-1) [proxy_turn]); lia.
Defined.

(** X19. A [forwardTSO] never returns nil, and leaves no forward context
    behind. It returns nil only for a bare [io.EOF] of the guard, which the
    guard answers only once it is closed, and its guard is closed only by a
    failure that makes it return; an error of the client stream, the end of
    the stream included, comes back under a stack and so as an error. When
    it has returned every forward context it created has been cancelled;
    while it runs, every one but the current. And every response passed on
    to the client was watched by a deadline. *)
Theorem X19_proxy_returns_an_error (s : Server) (counter maxStreamings : Z)
    (turns : list ProxyTurn) :
  let run := forwardTSO s counter maxStreamings turns in
  run.1 <> Return None
  /\ (forall e c, run.1 = Return e -> c ∈ created_ctxs run.2 -> c ∈ cancelled_ctxs run.2)
  /\ (forall c, run.1 = Running -> c ∈ created_ctxs run.2 ->
        c ∈ cancelled_ctxs run.2 \/ cancelForward run.2 = Some c)
  /\ (length (proxied run.2) <= deadlines run.2)%nat.
Proof.
  assert (Hloop : forall c0 r p',
            forwardTSO_loop turns (mkProxy c0 s 0 None "" None [] [] 0 0 []) = (r, p') ->
            r <> Return None
            /\ (forall c, c ∈ created_ctxs p' ->
                  c ∈ cancelled_ctxs p' \/ cancelForward p' = Some c)
            /\ (length (proxied p') <= deadlines p')%nat).
  { intros c0 r p' Hrun.
    eapply (forwardTSO_loop_inv c0) in Hrun as (Hr & _ & Hctx & Hlen); [done|].
    split_and!; try done. by intros c Hin%elem_of_nil. }
  assert (Hdefer : forall p c,
            (forall c, c ∈ created_ctxs p -> c ∈ cancelled_ctxs p \/ cancelForward p = Some c) ->
            c ∈ created_ctxs (forwardTSO_deferred p) ->
            c ∈ cancelled_ctxs (forwardTSO_deferred p)).
  { intros p c Hctx Hc. cbn [forwardTSO_deferred created_ctxs cancelled_ctxs] in *.
    apply elem_of_app. destruct (Hctx c Hc) as [?| ->]; [by left|]. right. simpl. by left. }
  cbn zeta. unfold forwardTSO.
  destruct (bool_decide (0 <= wrap_i32 maxStreamings)).
  - case_bool_decide.
    + cbn [fst snd forwardTSO_deferred created_ctxs proxied deadlines].
      split_and!; [done | | done | done]. by intros e c _ Hin%elem_of_nil.
    + destruct (forwardTSO_loop turns _) as [r p'] eqn:Hrun.
      destruct (Hloop _ _ _ Hrun) as (Hr & Hctx & Hlen).
      destruct r as [|e]; cbn [fst snd].
      * split_and!; [done | done | intros c _; apply Hctx | done].
      * split_and!; [done | | done | done]. intros e' c _. by apply Hdefer.
  - destruct (forwardTSO_loop turns _) as [r p'] eqn:Hrun.
    destruct (Hloop _ _ _ Hrun) as (Hr & Hctx & Hlen).
    destruct r as [|e]; cbn [fst snd].
    + split_and!; [done | done | intros c _; apply Hctx | done].
    + split_and!; [done | | done | done]. intros e' c _. by apply Hdefer.
Qed.

(** ** The TSO stream and its proxy *)

Lemma dispatch_abnormal_cause d d' addr host q created events exit :
  queues d !! addr = Some q ->
  Cause (ctx q) = None ->
  ServerShutdown ∉ events ->
  dispatch d addr host created events = (exit, d') ->
  abnormal exit ->
  dispatchChs d' = delete host (dispatchChs d)
  /\ exists e, exit_cause created events exit e /\ observed_cause d' addr = Some e.
Proof.
  intros Hq Hc Hquiet Hrun Habn.
  assert (Hexit : exists d0,
            d' = delete_host host d0 /\ dispatchChs d0 = dispatchChs d
            /\ exists e ctx0,
                 exit_cause created events exit e
                 /\ ctx <$> queues d0 !! addr = Some (cancelCause ctx0 e)
                 /\ context_then q events ctx0).
  { unfold dispatch in Hrun. destruct created as [[|] [err|]].
    - injection Hrun as <- <-. eexists. split_and!; [done | done |].
      exists err, (ctx q). split_and!; [done | | by left].
      by rewrite (update_queue_lookup d addr _ _ Hq).
    - destruct (dispatch_loop events addr make_requests d) as [exit0 d0] eqn:Hloop.
      destruct (dispatch_loop_exit addr events _ _ _ _ _ Hq Hloop) as (Hm & _ & _ & Hab).
      assert (exit0 = exit /\ d' = delete_host host d0) as [-> ->].
      { destruct exit0; injection Hrun as <- <-; try done.
        by destruct Habn as [?|[?|?]]. }
      eexists. split_and!; [done | done |]. by apply Hab.
    - injection Hrun as <- <-. eexists. split_and!; [done | done |].
      exists err, (ctx q). split_and!; [done | | by left].
      by rewrite (update_queue_lookup d addr _ _ Hq).
    - injection Hrun as <- <-. eexists. split_and!; [done | done |].
      exists empty_stream_error, (ctx q). split_and!; [done | | by left].
      by rewrite (update_queue_lookup d addr _ _ Hq). }
  destruct Hexit as (d0 & -> & Hm & e & ctx0 & Hcause & Hctx & Hthen).
  split; [by rewrite <- Hm|]. exists e. split; [done|].
  unfold observed_cause. cbn [delete_host queues].
  destruct (queues d0 !! addr) as [q0|]; [|done]. simpl in *.
  injection Hctx as ->. unfold cancelCause.
  destruct Hthen as [Hsame|[Hin _]]; [|done].
  by rewrite Hsame, Hc.
Qed.

Lemma DispatchRequest_ready d serverCtx req :
  host_ready d (getForwardedHost req) -> Cause serverCtx = None ->
  let r := DispatchRequest d serverCtx req in
  exists q, queues (after r) !! queue_addr r = Some q /\ Cause (ctx q) = None.
Proof.
  intros Hready Hc. unfold host_ready in Hready. cbn zeta. unfold DispatchRequest.
  destruct (dispatchChs d !! getForwardedHost req) as [addr|].
  - destruct Hready as (q & Hq & Hcq). cbn [after queue_addr].
    eexists. split; [exact (update_queue_lookup d addr _ q Hq)|]. done.
  - cbn [after queue_addr queues]. eexists. rewrite lookup_insert_eq. split; [done|].
    done.
Qed.

(** X20. The failure of the proxy reaches the client of a forwarded TSO
    stream. On a server that allocates timestamps itself and is running, a
    request of a stream forwarded to another host is handed to the
    dispatcher of that host; when that dispatcher then leaves because its
    stream could not be created, its batch failed or it was idle, the
    handler, which waits on the context of the queue, returns the error the
    dispatcher left with, under a stack (nil if that error is [io.EOF]),
    without having sent anything to the client itself, and the host has no
    queue any more. *)
Theorem X20_proxy_failure_reaches_client (s : Server) (d : TSODispatcher) (streamCtx : Ctx)
    (request : option TsoRequest) (t : TsoTurn) (conn : nat)
    (created : bool * option error) (devents : list Event) (exit : Exit) :
  tsoIndependent s = false ->
  isLocalRequest s (GetForwardedHost streamCtx) = false ->
  tso_is_closed t = false ->
  (getDelegateClient s (tso_dial t) (GetForwardedHost streamCtx)).2 = inl conn ->
  Cause (tso_server_ctx t) = None ->
  host_ready d (GetForwardedHost streamCtx) ->
  ServerShutdown ∉ devents ->
  let host := GetForwardedHost streamCtx in
  let r := DispatchRequest d (tso_server_ctx t)
             (mkRequest host (TsoRequest_GetCount request) (tso_downstream t)) in
  (dispatch (after r) (queue_addr r) host created devents).1 = exit ->
  abnormal exit ->
  let run := Tso_loop streamCtx
               [StreamRecv request None t;
                DispatcherRuns (queue_addr r) host created devents;
                ProxyCtxDone]
               (mkTsoStream None s d []) in
  exists e,
    exit_cause created devents exit e
    /\ run.1 = Return (reported e)
    /\ tso_sent run.2 = []
    /\ dispatchChs (tsoDispatcher run.2) !! host = None.
Proof.
  intros Hmode Hlocal Hopen Hdial Hctx Hready Hquiet host r Hexit Habn run.
  subst run. subst host.
  assert (Hlen : (0 < String.length (GetForwardedHost streamCtx))%nat).
  { unfold isLocalRequest in Hlocal.
    destruct (GetForwardedHost streamCtx); [done | simpl; lia]. }
  destruct (DispatchRequest_ready d (tso_server_ctx t)
              (mkRequest (GetForwardedHost streamCtx) (TsoRequest_GetCount request)
                         (tso_downstream t)) Hready Hctx)
    as (q & Hq & Hcq).
  fold r in Hq.
  destruct (dispatch (after r) (queue_addr r) (GetForwardedHost streamCtx) created devents)
    as [exit0 d'] eqn:Hrun.
  simpl in Hexit. subst exit0.
  destruct (dispatch_abnormal_cause _ _ _ _ _ _ _ _ Hq Hcq Hquiet Hrun Habn)
    as (Hmap & e & Hcause & Hobs).
  exists e. split; [done|].
  cbn [Tso_loop tsoRequestProxyCtx tso_server tsoDispatcher tso_sent].
  rewrite Hopen. unfold GrpcServer_getForwardedHost. rewrite Hmode, Hlocal.
  cbn [negb]. rewrite bool_decide_eq_true_2 by done.
  destruct (getDelegateClient s (tso_dial t) (GetForwardedHost streamCtx))
    as [s1 [c|err]] eqn:Hd; [|done].
  fold r. cbn [Tso_loop tsoRequestProxyCtx tso_server tsoDispatcher tso_sent].
  rewrite Hrun. cbn [snd]. rewrite Hobs.
  split_and!.
  - by destruct e.
  - by destruct e.
  - destruct e; cbn [snd tsoDispatcher]; rewrite Hmap; apply lookup_delete_eq.
Qed.

Lemma X20_proxy_failure_reaches_client_witness :
  let host := GetForwardedHost forward_to_leader in
  let r := DispatchRequest (mkDispatcher ∅ ∅) (tso_server_ctx tso_turn)
             (mkRequest host (TsoRequest_GetCount None) (tso_downstream tso_turn)) in
  let run := Tso_loop forward_to_leader
               [StreamRecv None None tso_turn;
                DispatcherRuns (queue_addr r) host (true, None)
                               [SelectRequest [] true upstream_down];
                ProxyCtxDone]
               (mkTsoStream None follower_1 (mkDispatcher ∅ ∅) []) in
  exists e,
    exit_cause (true, None) [SelectRequest [] true upstream_down] BatchFailed e
    /\ run.1 = Return (reported e)
    /\ tso_sent run.2 = []
    /\ dispatchChs (tsoDispatcher run.2) !! host = None.
Proof.
  apply (X20_proxy_failure_reaches_client follower_1 (mkDispatcher ∅ ∅) forward_to_leader
           None tso_turn 5%nat (true, None) [SelectRequest [] true upstream_down]
           BatchFailed).
  - reflexivity.
  - reflexivity.
  - reflexivity.
  - reflexivity.
  - reflexivity.
  - exact I.
  - intros Hin. apply elem_of_cons in Hin as [Hin|Hin]; [discriminate|].
    by apply elem_of_nil in Hin.
  - reflexivity.
  - right. left. reflexivity.
Defined.

Lemma Tso_loop_local s streamCtx events : forall d sent,
  tsoIndependent s = false ->
  isLocalRequest s (GetForwardedHost streamCtx) = true ->
  no_dispatcher_runs events ->
  let run := Tso_loop streamCtx events (mkTsoStream None s d sent) in
  tsoRequestProxyCtx run.2 = None
  /\ tso_server run.2 = s
  /\ tsoDispatcher run.2 = d
  /\ exists new, tso_sent run.2 = sent ++ new /\ Forall (answers_checked s events) new.
Proof.
  induction events as [|ev events IH]; intros d sent Hmode Hlocal Hno; cbn zeta.
  - split_and!; try done. exists []. by rewrite app_nil_r.
  - assert (Hno' : no_dispatcher_runs events).
    { intros addr host created devents Hin. apply (Hno addr host created devents). by right. }
    assert (Hmono : forall resp, answers_checked s events resp ->
                                 answers_checked s (ev :: events) resp).
    { intros resp (request & t & Hin & Hrest). exists request, t. split; [by right | done]. }
    assert (Hstay :
              tsoRequestProxyCtx (mkTsoStream None s d sent) = None
              /\ tso_server (mkTsoStream None s d sent) = s
              /\ tsoDispatcher (mkTsoStream None s d sent) = d
              /\ exists new, tso_sent (mkTsoStream None s d sent) = sent ++ new
                   /\ Forall (answers_checked s (ev :: events)) new).
    { split_and!; try done. exists []. by rewrite app_nil_r. }
    assert (Hskip :
              let run := Tso_loop streamCtx events (mkTsoStream None s d sent) in
              tsoRequestProxyCtx run.2 = None /\ tso_server run.2 = s
              /\ tsoDispatcher run.2 = d
              /\ exists new, tso_sent run.2 = sent ++ new
                   /\ Forall (answers_checked s (ev :: events)) new).
    { destruct (IH d sent Hmode Hlocal Hno') as (H1 & H2 & H3 & new & H4 & H5).
      split_and!; try done. exists new. split; [done|].
      eapply Forall_impl; [exact H5 | exact Hmono]. }
    destruct ev as [request err t| |addr host created devents].
    + cbn [Tso_loop tsoRequestProxyCtx tso_server tsoDispatcher tso_sent].
      destruct err as [e|].
      { destruct e; exact Hstay. }
      destruct (tso_is_closed t) eqn:Hclosed; [exact Hstay|].
      unfold GrpcServer_getForwardedHost. rewrite Hmode, Hlocal. cbn [negb].
      rewrite bool_decide_eq_false_2 by (simpl; lia).
      case_bool_decide as Hid; [exact Hstay|].
      destruct (tso_allocated t) as [ts [e|]] eqn:Halloc; [exact Hstay|].
      destruct (tso_stream_send t) as [e|] eqn:Hsend; [exact Hstay|].
      destruct (IH d (sent ++ [mkLocalTsoResponse (wrapHeader s) ts
                                  (TsoRequest_GetCount request)]) Hmode Hlocal Hno')
        as (H1 & H2 & H3 & new & H4 & H5).
      split_and!; try done. eexists (_ :: new). rewrite H4, <- app_assoc.
      split; [done|]. constructor.
      * assert (Hsame : GetClusterId (TsoRequest_GetHeader request) = ClusterID s).
        { destruct (decide (GetClusterId (TsoRequest_GetHeader request) = ClusterID s));
            [done|]. by destruct Hid. }
        exists request, t. split_and!; try done. by left.
      * eapply Forall_impl; [exact H5 | exact Hmono].
    + exact Hskip.
    + destruct (Hno addr host created devents). by left.
Qed.

(** X21. A TSO stream that is not forwarded is served here and nowhere
    else. On a server that allocates timestamps itself, whatever the
    stream of a client without a forwarded host receives, the handler
    never takes up a proxy context, and leaves the dispatcher and the pool
    of connections alone; and every response it sends answers a request it
    received, on a turn on which the server was not closed, the cluster id
    of the request was that of the server and the allocator answered
    without error, with the regular header, the count of that request and
    the timestamp of the allocator. *)
Theorem X21_local_tso_stream (s : Server) (d : TSODispatcher) (streamCtx : Ctx)
    (events : list TsoEvent) :
  tsoIndependent s = false ->
  isLocalRequest s (GetForwardedHost streamCtx) = true ->
  no_dispatcher_runs events ->
  let run := Tso_loop streamCtx events (mkTsoStream None s d []) in
  tsoRequestProxyCtx run.2 = None
  /\ tso_server run.2 = s
  /\ tsoDispatcher run.2 = d
  /\ Forall (answers_checked s events) (tso_sent run.2).
Proof.
  intros Hmode Hlocal Hno.
  destruct (Tso_loop_local s streamCtx events d [] Hmode Hlocal Hno)
    as (H1 & H2 & H3 & new & H4 & H5).
  cbn zeta. split_and!; try done. by rewrite H4.
Qed.

Lemma X21_local_tso_stream_witness :
  let events := [StreamRecv (Some (mkTsoRequest (Some (mkHeader 1 0)) 3)) None tso_turn;
                 StreamRecv None (Some io_EOF) tso_turn] in
  let run := Tso_loop context_TODO events (mkTsoStream None leader_1 (mkDispatcher ∅ ∅) []) in
  tsoRequestProxyCtx run.2 = None
  /\ tso_server run.2 = leader_1
  /\ tsoDispatcher run.2 = mkDispatcher ∅ ∅
  /\ Forall (answers_checked leader_1 events) (tso_sent run.2).
Proof.
  apply (X21_local_tso_stream leader_1 (mkDispatcher ∅ ∅) context_TODO
           [StreamRecv (Some (mkTsoRequest (Some (mkHeader 1 0)) 3)) None tso_turn;
            StreamRecv None (Some io_EOF) tso_turn]).
  - reflexivity.
  - reflexivity.
  - intros addr host created devents Hin.
    repeat (apply elem_of_cons in Hin as [Hin|Hin]; [discriminate|]).
    by apply elem_of_nil in Hin.
Defined.

(** ** The global timestamp of a server without an allocator *)

Lemma getTSOForwardStream_counts st a host :
  let r := getTSOForwardStream st a host in
  iterations r.1 = iterations st /\ sleeps r.1 = sleeps st
  /\ forced_loads r.1 = forced_loads st.
Proof.
  cbn zeta. unfold getTSOForwardStream.
  destruct (tsoClientPool st !! host); [done|].
  destruct (_ !! host); [done|].
  destruct (getDelegateClient _ _ _) as [s [c|e]]; [|done].
  by destruct (attempt_stream a).
Qed.

Lemma handleStreamError_counts st host e :
  let r := handleStreamError st host e in
  iterations r.1 = iterations st /\ sleeps r.1 = sleeps st
  /\ (forced_loads st <= forced_loads r.1 <= S (forced_loads st))%nat
  /\ r.2 = retryable e.
Proof.
  cbn zeta. unfold handleStreamError, retryable.
  destruct (is_not_leader e); [simpl; split_and!; try done; lia|].
  destruct (need_rebuild e); simpl; split_and!; try done; lia.
Qed.

Lemma getGlobalTSO_loop_spec attempt fuel : forall i err st res st',
  (fuel = 0%nat -> is_Some err) ->
  getGlobalTSO_loop fuel i attempt err st = (res, st') ->
  exists k,
    iterations st' = (iterations st + k)%nat
    /\ (k <= fuel)%nat /\ (0 < fuel -> 0 < k)%nat
    /\ (sleeps st' + (if bool_decide (i = 0 /\ 0 < k)%nat then 1 else 0)
        = sleeps st + k)%nat
    /\ (forced_loads st <= forced_loads st' <= forced_loads st + k)%nat
    /\ (forall j, (i <= j < i + k - 1)%nat -> is_Some (retried (attempt j)))
    /\ (forall ts, res = GlobalTSOReturn ts None ->
          (0 < k)%nat
          /\ attempt_send (attempt (i + k - 1)%nat) = None
          /\ attempt_recv (attempt (i + k - 1)%nat) = inl (Some ts))
    /\ (forall ts e, res = GlobalTSOReturn ts (Some e) -> ts = emptyTS).
Proof.
  induction fuel as [|fuel IH]; intros i err st res st' Herr Hrun.
  - injection Hrun as <- <-. exists 0%nat.
    destruct (Herr eq_refl) as [e ->].
    rewrite bool_decide_eq_false_2 by lia.
    split_and!; try done; try lia. by intros ts e' [= <- _].
  - cbn [getGlobalTSO_loop] in Hrun.
    set (st1 := mkTSOClients _ _ _ _ _) in Hrun.
    assert (Hst1 : iterations st1 = S (iterations st)
                   /\ (sleeps st1 + (if bool_decide (i = 0)%nat then 1 else 0)
                       = sleeps st + 1)%nat
                   /\ forced_loads st1 = forced_loads st).
    { subst st1. simpl. split_and!; try done.
      destruct (decide (i = 0)%nat) as [->|Hi].
      - rewrite bool_decide_eq_false_2, bool_decide_eq_true_2 by lia. lia.
      - rewrite bool_decide_eq_true_2, bool_decide_eq_false_2 by lia. lia. }
    destruct Hst1 as (Hit1 & Hsl1 & Hfl1). clearbody st1.
    assert (Hone : forall res0 st0,
              iterations st0 = iterations st1 -> sleeps st0 = sleeps st1 ->
              (forced_loads st1 <= forced_loads st0 <= S (forced_loads st1))%nat ->
              (forall ts, res0 = GlobalTSOReturn ts None ->
                 attempt_send (attempt i) = None
                 /\ attempt_recv (attempt i) = inl (Some ts)) ->
              (forall ts e, res0 = GlobalTSOReturn ts (Some e) -> ts = emptyTS) ->
              (res0, st0) = (res, st') ->
              exists k,
                iterations st' = (iterations st + k)%nat
                /\ (k <= S fuel)%nat /\ (0 < S fuel -> 0 < k)%nat
                /\ (sleeps st' + (if bool_decide (i = 0 /\ 0 < k)%nat then 1 else 0)
                    = sleeps st + k)%nat
                /\ (forced_loads st <= forced_loads st' <= forced_loads st + k)%nat
                /\ (forall j, (i <= j < i + k - 1)%nat -> is_Some (retried (attempt j)))
                /\ (forall ts, res = GlobalTSOReturn ts None ->
                      (0 < k)%nat
                      /\ attempt_send (attempt (i + k - 1)%nat) = None
                      /\ attempt_recv (attempt (i + k - 1)%nat) = inl (Some ts))
                /\ (forall ts e, res = GlobalTSOReturn ts (Some e) -> ts = emptyTS)).
    { intros res0 st0 Hi0 Hs0 Hf0 Hok Hfail [= -> ->]. exists 1%nat.
      replace (i + 1 - 1)%nat with i by lia.
      split_and!; try done; try lia.
      - destruct (decide (i = 0)%nat) as [->|Hi].
        + rewrite bool_decide_eq_true_2 in * by lia. lia.
        + rewrite bool_decide_eq_false_2 in * by lia. lia.
      - intros ts Hres. split; [lia|]. by apply Hok. }
    assert (Hretry : forall e st0,
              iterations st0 = iterations st1 -> sleeps st0 = sleeps st1 ->
              (forced_loads st1 <= forced_loads st0 <= S (forced_loads st1))%nat ->
              retried (attempt i) = Some e ->
              getGlobalTSO_loop fuel (S i) attempt (Some (stream_error e)) st0 = (res, st') ->
              exists k,
                iterations st' = (iterations st + k)%nat
                /\ (k <= S fuel)%nat /\ (0 < S fuel -> 0 < k)%nat
                /\ (sleeps st' + (if bool_decide (i = 0 /\ 0 < k)%nat then 1 else 0)
                    = sleeps st + k)%nat
                /\ (forced_loads st <= forced_loads st' <= forced_loads st + k)%nat
                /\ (forall j, (i <= j < i + k - 1)%nat -> is_Some (retried (attempt j)))
                /\ (forall ts, res = GlobalTSOReturn ts None ->
                      (0 < k)%nat
                      /\ attempt_send (attempt (i + k - 1)%nat) = None
                      /\ attempt_recv (attempt (i + k - 1)%nat) = inl (Some ts))
                /\ (forall ts e, res = GlobalTSOReturn ts (Some e) -> ts = emptyTS)).
    { intros e st0 Hi0 Hs0 Hf0 Hret Hloop.
      apply IH in Hloop as (k & Hk1 & Hk2 & Hk3 & Hk4 & Hk5 & Hk6 & Hk7 & Hk8); [|done].
      exists (S k). rewrite (bool_decide_eq_false_2 (S i = 0 /\ _)%nat) in Hk4 by lia.
      replace (i + S k - 1)%nat with (S i + k - 1)%nat
        by (destruct k; [|lia]; destruct fuel; [|lia]; lia).
      assert (Hk : (k = 0 -> fuel = 0)%nat) by lia.
      split_and!; try lia.
      - destruct (decide (i = 0)%nat) as [->|Hi].
        + rewrite bool_decide_eq_true_2 in * by lia. lia.
        + rewrite (bool_decide_eq_false_2 (i = 0)%nat) in Hsl1 by lia.
          rewrite bool_decide_eq_false_2 by lia. lia.
      - intros j Hj. destruct (decide (j = i)) as [->|Hne]; [by rewrite Hret|].
        apply Hk6. lia.
      - intros ts Hres. destruct (Hk7 ts Hres) as (? & ? & ?). split_and!; [lia|done|done].
      - done. }
    destruct (attempt_primary (attempt i)) as [forwardedHost ok].
    destruct (negb ok || _).
    { refine (Hone _ _ _ _ _ _ _ Hrun); [done | done | lia | done | by intros ts e [= <- _]]. }
    pose proof (getTSOForwardStream_counts st1 (attempt i) forwardedHost) as Hfs.
    cbn zeta in Hfs.
    destruct (getTSOForwardStream st1 (attempt i) forwardedHost) as [st2 [fs|e]];
      destruct Hfs as (Hi2 & Hs2 & Hf2); cbn [fst] in *.
    2:{ refine (Hone _ _ _ _ _ _ _ Hrun);
          [done | done | lia | done | by intros ts e' [= <- _]]. }
    destruct (attempt_send (attempt i)) as [e|] eqn:Hsend.
    { pose proof (handleStreamError_counts st2 forwardedHost e) as Hh. cbn zeta in Hh.
      destruct (handleStreamError st2 forwardedHost e) as [st3 retry];
        destruct Hh as (Hi3 & Hs3 & Hf3 & Hr3); cbn [fst snd] in *.
      destruct retry.
      - refine (Hretry e _ _ _ _ _ Hrun); [congruence | congruence | lia |].
        unfold retried. by rewrite Hsend, <- Hr3.
      - refine (Hone _ _ _ _ _ _ _ Hrun);
          [congruence | congruence | lia | done | by intros ts e' [= <- _]]. }
    destruct (attempt_recv (attempt i)) as [[ts|]|e] eqn:Hrecv.
    + refine (Hone _ _ _ _ _ _ _ Hrun); [done | done | lia | | done].
      by intros ts' [= <-].
    + refine (Hone _ _ _ _ _ _ _ Hrun); [done | done | lia | done | done].
    + pose proof (handleStreamError_counts st2 forwardedHost e) as Hh. cbn zeta in Hh.
      destruct (handleStreamError st2 forwardedHost e) as [st3 retry];
        destruct Hh as (Hi3 & Hs3 & Hf3 & Hr3); cbn [fst snd] in *.
      destruct retry.
      * refine (Hretry e _ _ _ _ _ Hrun); [congruence | congruence | lia |].
        unfold retried. by rewrite Hsend, Hrecv, <- Hr3.
      * refine (Hone _ _ _ _ _ _ _ Hrun);
          [congruence | congruence | lia | done | by intros ts e' [= <- _]].
Qed.

(** X22. The retries of [getGlobalTSO]. On a server that allocates
    timestamps itself the answer is that of the allocator and nothing is
    tried. Otherwise the loop makes between one and three turns, sleeping
    before each but the first; every turn before the last got its stream
    and failed, in its send or else its receive, with an error that is
    not-leader or asks for a new connection; the primary is force-loaded at
    most once a turn; a timestamp returned without error is the one
    received on the last turn, after a send that succeeded; and an error is
    always returned with the empty timestamp. *)
Theorem X22_global_tso_retries (s : Server) (clients : gmap string nat)
    (allocated : Timestamp * option error) (attempt : nat -> GlobalTSOAttempt) :
  let run := getGlobalTSO s clients allocated attempt in
  (tsoIndependent s = false ->
     run.1 = GlobalTSOReturn allocated.1 allocated.2 /\ iterations run.2 = 0%nat)
  /\ (tsoIndependent s = true ->
      (1 <= iterations run.2 <= maxRetryTimesRequestTSOServer)%nat
      /\ (sleeps run.2 = iterations run.2 - 1)%nat
      /\ (forced_loads run.2 <= iterations run.2)%nat
      /\ (forall j, (j < iterations run.2 - 1)%nat -> is_Some (retried (attempt j)))
      /\ (forall ts, run.1 = GlobalTSOReturn ts None ->
            attempt_send (attempt (iterations run.2 - 1)%nat) = None
            /\ attempt_recv (attempt (iterations run.2 - 1)%nat) = inl (Some ts))
      /\ (forall ts e, run.1 = GlobalTSOReturn ts (Some e) -> ts = emptyTS)).
Proof.
  cbn zeta. unfold getGlobalTSO. split; intros ->; cbn [negb]; [done|].
  destruct (getGlobalTSO_loop _ 0 attempt None _) as [res st'] eqn:Hrun.
  apply getGlobalTSO_loop_spec in Hrun
    as (k & Hk1 & Hk2 & Hk3 & Hk4 & Hk5 & Hk6 & Hk7 & Hk8); [|done].
  cbn [fst snd iterations sleeps forced_loads] in *.
  unfold maxRetryTimesRequestTSOServer in *.
  assert (Hpos : (0 < k)%nat) by (apply Hk3; lia).
  rewrite bool_decide_eq_true_2 in Hk4 by lia.
  rewrite Hk1. split_and!; try lia.
  - intros j Hj. apply Hk6. lia.
  - intros ts Hres. destruct (Hk7 ts Hres) as (_ & Hs & Hr). by split.
  - done.
Qed.

Lemma getGlobalTSO_loop_step fuel i attempt err st host stream :
  attempt_primary (attempt i) = (host, true) ->
  host <> "" ->
  let st1 := mkTSOClients (tsoClientPool st) (clients_server st) (S (iterations st))
               (if bool_decide (0 < i)%nat then S (sleeps st) else sleeps st)
               (forced_loads st) in
  forall st2, getTSOForwardStream st1 (attempt i) host = (st2, inl stream) ->
  getGlobalTSO_loop (S fuel) i attempt err st
  = match attempt_send (attempt i) with
    | Some e =>
      let '(st, needRetry) := handleStreamError st2 host e in
      if needRetry
      then getGlobalTSO_loop fuel (S i) attempt (Some (stream_error e)) st
      else (GlobalTSOReturn emptyTS (Some (stream_error e)), st)
    | None =>
      match attempt_recv (attempt i) with
      | inr e =>
        let '(st, needRetry) := handleStreamError st2 host e in
        if needRetry
        then getGlobalTSO_loop fuel (S i) attempt (Some (stream_error e)) st
        else (GlobalTSOReturn emptyTS (Some (stream_error e)), st)
      | inl None => (GlobalTSOPanic, st2)
      | inl (Some ts) => (GlobalTSOReturn ts None, st2)
      end
    end.
Proof.
  intros Hp Hhost st1 st2 Hfs. cbn [getGlobalTSO_loop]. rewrite Hp. cbn [negb orb].
  rewrite (bool_decide_eq_false_2 (host = "")) by done.
  fold st1. by rewrite Hfs.
Qed.

Lemma getTSOForwardStream_new st a host conn new :
  tsoClientPool st !! host = None ->
  attempt_other a = None ->
  (getDelegateClient (clients_server st) (attempt_dial a) host).2 = inl conn ->
  attempt_stream a = inl new ->
  exists st2,
    getTSOForwardStream st a host = (st2, inl new)
    /\ tsoClientPool st2 = <[host := new]> (tsoClientPool st)
    /\ iterations st2 = iterations st
    /\ forced_loads st2 = forced_loads st.
Proof.
  intros Hnone Ho Hdial Hstream. unfold getTSOForwardStream.
  rewrite Hnone, Ho, Hnone.
  destruct (getDelegateClient (clients_server st) (attempt_dial a) host) as [s1 [c|err]];
    [|done].
  rewrite Hstream. eexists. by split_and!.
Qed.

(** X23. What an error does to the pooled stream. With a stream of the
    primary in the pool and a first turn whose send fails: a not-leader
    error force-loads the primary and leaves the stream in the pool, and
    the next turn uses it again; an error that asks for a new connection
    (and is not not-leader) takes the stream out of the pool, and the next
    turn dials, creates a stream and pools it; any other error is returned
    at once, with the pool as it was. *)
Theorem X23_stream_error_and_pool (s : Server) (clients : gmap string nat)
    (allocated : Timestamp * option error) (attempt : nat -> GlobalTSOAttempt)
    (host : string) (old new conn : nat) (e : StreamError) (ts : Timestamp) :
  tsoIndependent s = true ->
  host <> "" ->
  clients !! host = Some old ->
  attempt_primary (attempt 0%nat) = (host, true) ->
  attempt_send (attempt 0%nat) = Some e ->
  attempt_primary (attempt 1%nat) = (host, true) ->
  attempt_other (attempt 1%nat) = None ->
  (getDelegateClient s (attempt_dial (attempt 1%nat)) host).2 = inl conn ->
  attempt_stream (attempt 1%nat) = inl new ->
  attempt_send (attempt 1%nat) = None ->
  attempt_recv (attempt 1%nat) = inl (Some ts) ->
  let run := getGlobalTSO s clients allocated attempt in
  (is_not_leader e = true ->
     run.1 = GlobalTSOReturn ts None
     /\ tsoClientPool run.2 = clients
     /\ forced_loads run.2 = 1%nat /\ iterations run.2 = 2%nat)
  /\ (is_not_leader e = false -> need_rebuild e = true ->
      run.1 = GlobalTSOReturn ts None
      /\ tsoClientPool run.2 = <[host := new]> (delete host clients)
      /\ forced_loads run.2 = 0%nat /\ iterations run.2 = 2%nat)
  /\ (is_not_leader e = false -> need_rebuild e = false ->
      run.1 = GlobalTSOReturn emptyTS (Some (stream_error e))
      /\ tsoClientPool run.2 = clients
      /\ forced_loads run.2 = 0%nat /\ iterations run.2 = 1%nat).
Proof.
  intros Hmode Hhost Hold Hp0 Hs0 Hp1 Ho1 Hdial Hstream Hs1 Hr1. cbn zeta.
  unfold getGlobalTSO, maxRetryTimesRequestTSOServer. rewrite Hmode. cbn [negb].
  erewrite (getGlobalTSO_loop_step 2 0 attempt None _ host old Hp0 Hhost);
    [|unfold getTSOForwardStream; cbn [tsoClientPool]; by rewrite Hold].
  rewrite Hs0. unfold handleStreamError.
  cbn [tsoClientPool clients_server iterations sleeps forced_loads].
  split_and!.
  - intros ->.
    erewrite (getGlobalTSO_loop_step 1 1 attempt _ _ host old Hp1 Hhost);
      [|unfold getTSOForwardStream; cbn [tsoClientPool]; by rewrite Hold].
    rewrite Hs1, Hr1. done.
  - intros -> ->.
    match goal with
    | |- context [getGlobalTSO_loop 2 1 attempt ?err ?st] =>
      pose proof (getGlobalTSO_loop_step 1 1 attempt err st host new Hp1 Hhost) as Hstep;
      cbn zeta in Hstep;
      destruct (getTSOForwardStream_new
                  (mkTSOClients (tsoClientPool st) (clients_server st) (S (iterations st))
                     (if bool_decide (0 < 1)%nat then S (sleeps st) else sleeps st)
                     (forced_loads st))
                  (attempt 1%nat) host conn new)
        as (st2 & Hfs & Hpool & Hit & Hfl);
      [cbn [tsoClientPool]; apply lookup_delete_eq | done | exact Hdial | done |]
    end.
    rewrite (Hstep st2 Hfs), Hs1, Hr1. cbn [fst snd].
    split_and!; [done | by rewrite Hpool | by rewrite Hfl | by rewrite Hit].
  - intros -> ->. done.
Qed.

Lemma X23_stream_error_and_pool_witness :
  let clients : gmap string nat := {[ "http://tso-0" := 20%nat ]} in
  let run := getGlobalTSO
               (mkServer false true 1 ["http://pd-0:2379"] 10 true true true true
                  SchedulingInProcess ∅)
               clients (mkTimestamp 0 0 0, None) reset_then_ok in
  (is_not_leader connection_reset = true ->
     run.1 = GlobalTSOReturn (mkTimestamp 100 80 0) None
     /\ tsoClientPool run.2 = clients
     /\ forced_loads run.2 = 1%nat /\ iterations run.2 = 2%nat)
  /\ (is_not_leader connection_reset = false -> need_rebuild connection_reset = true ->
      run.1 = GlobalTSOReturn (mkTimestamp 100 80 0) None
      /\ tsoClientPool run.2 = <["http://tso-0" := 22%nat]> (delete "http://tso-0" clients)
      /\ forced_loads run.2 = 0%nat /\ iterations run.2 = 2%nat)
  /\ (is_not_leader connection_reset = false -> need_rebuild connection_reset = false ->
      run.1 = GlobalTSOReturn emptyTS (Some (stream_error connection_reset))
      /\ tsoClientPool run.2 = clients
      /\ forced_loads run.2 = 0%nat /\ iterations run.2 = 1%nat).
Proof.
  apply (X23_stream_error_and_pool
           (mkServer false true 1 ["http://pd-0:2379"] 10 true true true true
              SchedulingInProcess ∅)
           {[ "http://tso-0" := 20%nat ]} (mkTimestamp 0 0 0, None) reset_then_ok
           "http://tso-0" 20%nat 22%nat 5%nat connection_reset (mkTimestamp 100 80 0));
    try reflexivity.
  discriminate.
Defined.

(** ** The watch on the global configuration *)

Lemma WatchGlobalConfig_loop_goes_on pre : forall rest revision,
  Forall (fun t => goes_on t = true) pre ->
  WatchGlobalConfig_loop (pre ++ rest) revision
  = let '(sent, r) := WatchGlobalConfig_loop rest (last_revision pre revision) in
    (change_responses pre ++ sent, r).
Proof.
  induction pre as [|t pre IH]; intros rest revision Hall.
  - simpl. by destruct (WatchGlobalConfig_loop rest revision).
  - inversion Hall as [|? ? Ht Hpre]; subst.
    destruct t as [| |res send]; try done.
    cbn [app WatchGlobalConfig_loop last_revision foldl change_responses omap list_omap].
    cbn [goes_on] in Ht.
    destruct (watch_Err res); [done|].
    fold (change_responses pre). fold (last_revision pre (watch_Revision res)).
    destruct (watch_changes (watch_Events res)) as [|cfg cfgs] eqn:Hcfgs.
    + rewrite bool_decide_eq_false_2 by (simpl; lia). by apply IH.
    + rewrite bool_decide_eq_true_2 by (simpl; lia).
      destruct send; [done|]. rewrite (IH rest _ Hpre).
      by destruct (WatchGlobalConfig_loop rest _).
Qed.

(** X24. What a watch on the global configuration sends. After turns that
    keep the watch going, the client has been sent one response for every
    watch response that had changes, in order and with its revision, and
    none for a watch response without changes; every change sent is a put
    event with its value, or a delete event with the value of its previous
    pair, and a delete event whose previous pair is gone is no change. If a context is done next, the
    handler returns nil and sends nothing more. If a watch response with an
    error comes next, the handler sends one last response, which reports
    compacted data exactly when the revision of the last watch response
    before it (or of the request, if there was none) is smaller than the
    compact revision, and an unknown error otherwise, and returns the error
    of that send or else the error of the watch. *)
Theorem X24_watch_global_config (pre rest : list WatchTurn) (revision : Z)
    (res : WatchResponse) (send : option error) (e : error) :
  Forall (fun t => goes_on t = true) pre ->
  watch_Err res = Some e ->
  WatchGlobalConfig_loop pre revision = (change_responses pre, Running)
  /\ WatchGlobalConfig_loop (pre ++ WatchCtxDone :: rest) revision
     = (change_responses pre, Return None)
  /\ WatchGlobalConfig_loop (pre ++ WatchServerDone :: rest) revision
     = (change_responses pre, Return None)
  /\ WatchGlobalConfig_loop (pre ++ WatchChan res send :: rest) revision
     = (change_responses pre ++ [error_response (last_revision pre revision) res],
        Return (Some (default e send)))
  /\ Forall (fun resp => watch_Header resp = None /\ watch_Changes resp <> [])
            (change_responses pre)
  /\ (forall events item, item ∈ watch_changes events ->
        exists ev, ev ∈ events
          /\ item_Name item = kv_Key (event_Kv ev)
          /\ item_Kind item = event_Type ev
          /\ match event_Type ev with
             | EventTypePut => item_Payload item = kv_Value (event_Kv ev)
             | EventTypeDelete =>
               exists prev, event_PrevKv ev = Some prev /\ item_Payload item = kv_Value prev
             end).
Proof.
  intros Hpre Herr. split_and!.
  - rewrite <- (app_nil_r pre) at 1. rewrite (WatchGlobalConfig_loop_goes_on pre [] _ Hpre).
    simpl. by rewrite app_nil_r.
  - rewrite (WatchGlobalConfig_loop_goes_on pre _ _ Hpre). simpl. by rewrite app_nil_r.
  - rewrite (WatchGlobalConfig_loop_goes_on pre _ _ Hpre). simpl. by rewrite app_nil_r.
  - rewrite (WatchGlobalConfig_loop_goes_on pre _ _ Hpre).
    cbn [WatchGlobalConfig_loop]. rewrite Herr. unfold error_response.
    by destruct send.
  - clear. induction pre as [|t pre IH]; [constructor|].
    cbn [change_responses omap list_omap]. fold (change_responses pre).
    destruct t as [| |r s]; try done.
    destruct (watch_changes (watch_Events r)); [done|]. by constructor.
  - clear. intros events. induction events as [|ev events IH]; intros item Hin.
    + by apply elem_of_nil in Hin.
    + assert (Hrest : item ∈ watch_changes events ->
                exists ev0, ev0 ∈ ev :: events
                  /\ item_Name item = kv_Key (event_Kv ev0)
                  /\ item_Kind item = event_Type ev0
                  /\ match event_Type ev0 with
                     | EventTypePut => item_Payload item = kv_Value (event_Kv ev0)
                     | EventTypeDelete =>
                       exists prev, event_PrevKv ev0 = Some prev
                                    /\ item_Payload item = kv_Value prev
                     end).
      { intros Hin'. destruct (IH item Hin') as (ev0 & Hev & Hrest).
        exists ev0. split; [by right | done]. }
      cbn [watch_changes] in Hin. destruct (event_Type ev) eqn:Hty.
      * apply elem_of_cons in Hin as [->|Hin]; [|by apply Hrest].
        exists ev. rewrite Hty. split_and!; [by left | done | done | done].
      * destruct (event_PrevKv ev) as [prev|] eqn:Hprev; [|by apply Hrest].
        apply elem_of_cons in Hin as [->|Hin]; [|by apply Hrest].
        exists ev. rewrite Hty. split_and!; [by left | done | done |]. by exists prev.
Qed.

Lemma X24_watch_global_config_witness :
  let pre := [put_k; stale_delete] in
  WatchGlobalConfig_loop pre 5 = (change_responses pre, Running)
  /\ WatchGlobalConfig_loop (pre ++ WatchCtxDone :: []) 5
     = (change_responses pre, Return None)
  /\ WatchGlobalConfig_loop (pre ++ WatchServerDone :: []) 5
     = (change_responses pre, Return None)
  /\ WatchGlobalConfig_loop (pre ++ WatchChan compacted None :: []) 5
     = (change_responses pre ++ [error_response (last_revision pre 5) compacted],
        Return (Some (default (errors_New "required revision has been compacted") None)))
  /\ Forall (fun resp => watch_Header resp = None /\ watch_Changes resp <> [])
            (change_responses pre)
  /\ (forall events item, item ∈ watch_changes events ->
        exists ev, ev ∈ events
          /\ item_Name item = kv_Key (event_Kv ev)
          /\ item_Kind item = event_Type ev
          /\ match event_Type ev with
             | EventTypePut => item_Payload item = kv_Value (event_Kv ev)
             | EventTypeDelete =>
               exists prev, event_PrevKv ev = Some prev /\ item_Payload item = kv_Value prev
             end).
Proof.
  apply (X24_watch_global_config [put_k; stale_delete] [] 5 compacted None
           (errors_New "required revision has been compacted")).
  - repeat constructor.
  - reflexivity.
Defined.

(** ** Bucket reports *)

Lemma bucket_relayed_log (resps : list ReportBucketsResponse) :
  bucket_contexts (RelayedToClient <$> resps) = []
  /\ bucket_cancels (RelayedToClient <$> resps) = []
  /\ bucket_forwarded (RelayedToClient <$> resps) = []
  /\ bucket_handled (RelayedToClient <$> resps) = []
  /\ bucket_answers (RelayedToClient <$> resps) = []
  /\ bucket_relayed (RelayedToClient <$> resps) = resps.
Proof.
  induction resps as [|r resps (IH1 & IH2 & IH3 & IH4 & IH5 & IH6)]; [done|].
  split_and!; try done. cbn. f_equal. exact IH6.
Qed.

Ltac bucket_unfold :=
  unfold bucket_contexts, bucket_cancels, bucket_forwarded, bucket_relayed,
    bucket_handled, bucket_answers in *.

Lemma bucket_relay_keeps host turns st :
  bucket_keeps host st -> bucket_keeps host (bucket_relay turns st).
Proof.
  intros Hk. unfold bucket_relay. destruct (bucket_relay_runs st) eqn:Hruns; [|done].
  destruct Hk as (Hc & Ha & Hh & Hs).
  destruct Hs as [(_ & _ & _ & _ & Hr & _)|(client & Hctx & Hcan & Hfs & Hlast & Hhost)];
    [congruence|].
  destruct (bucket_relayed_log
              (relayed (forwardReportBucketClientToServer (bucket_closed st) turns)))
    as (R1 & R2 & R3 & R4 & R5 & R6).
  unfold bucket_keeps. cbn. bucket_unfold.
  rewrite !omap_app, R1, R2, R4, R5, !app_nil_r.
  split_and!; try done. right. by exists client.
Qed.

Lemma bucket_keeps_left host st :
  bucket_keeps host st -> bucket_left host Running st.
Proof.
  intros (Hc & Ha & Hh & Hs). unfold bucket_left.
  destruct Hs as [(Hctx & Hcan & _ & _ & _ & Hr & Hf)|(client & Hctx & Hcan & _ & _ & Hhost)].
  - rewrite Hctx, Hr, Hf. split_and!; try done. by left.
  - rewrite Hctx. split_and!; try done. right. by exists client.
Qed.

Lemma bucket_keeps_returns host st e closed :
  bucket_keeps host st ->
  (e = None -> bucket_contexts (bucket_log st) <> [] /\ closed = 1) ->
  bucket_left host (Return e)
    (mkBucketStream closed (bucket_forwardStream st) (bucket_cancel st)
       (bucket_lastForwardedHost st) (bucket_errCh st) (bucket_relay_runs st)
       (bucket_log st)).
Proof.
  intros Hk He. destruct (bucket_keeps_left _ _ Hk) as (Hc & Hh & Hf & Hr & Hs & Ha).
  unfold bucket_left. cbn. split_and!; try done; [by left|].
  intros ->. right. by apply He.
Qed.

Lemma bucket_keeps_fails host st e :
  bucket_keeps host st -> bucket_left host (Return (Some e)) st.
Proof.
  intros Hk. pose proof (bucket_keeps_returns host st (Some e) (bucket_closed st) Hk) as H.
  destruct st. by apply H.
Qed.

Lemma bucket_forward_stream_keeps host t st :
  host <> "" ->
  bucket_keeps host st ->
  match bucket_forward_stream t host st with
  | inl st => bucket_keeps host st
  | inr (e, st) => bucket_left host (Return (Some e)) st
  end.
Proof.
  intros Hhost Hk. unfold bucket_forward_stream.
  destruct Hk as (Hc & Ha & Hh & Hs).
  destruct Hs as [(Hctx & Hcan & Hfs & Hclosed & Hruns & Hrel & Hf)
                 |(client & Hctx & Hcan & Hfs & Hlast & _)].
  - rewrite Hfs. rewrite bool_decide_eq_true_2 by done. cbn [orb].
    unfold bucket_cancel_if_set. rewrite Hcan.
    destruct (getDelegateClient (bucket_server t) (bucket_dial t) host) as [s [client|e]].
    + rewrite Hctx. cbn [length].
      destruct (bucket_create t) as [e|].
      * unfold bucket_left. cbn. bucket_unfold.
        rewrite !omap_app, Hc, Ha, Hctx, Hrel, Hf. cbn. rewrite !app_nil_r.
        split_and!; try done; try (by left). right. by exists client.
      * unfold bucket_keeps. cbn. bucket_unfold.
        rewrite !omap_app, Hc, Ha, Hctx. cbn. rewrite !app_nil_r.
        split_and!; try done. right. by exists client.
    + unfold bucket_left, bucket_logged. cbn. bucket_unfold.
      rewrite !omap_app, Hc, Ha, Hctx, Hrel, Hf. cbn. rewrite !app_nil_r.
      split_and!; try done; by left.
  - rewrite Hfs, Hlast. rewrite bool_decide_eq_false_2 by done.
    rewrite bool_decide_eq_false_2 by (intros ?; done). cbn [orb].
    unfold bucket_keeps. split_and!; try done. right. by exists client.
Qed.

Lemma bucket_forwarded_keeps host st request :
  bucket_keeps host st ->
  bucket_forwardStream st <> None ->
  bucket_keeps host (bucket_logged [ForwardSent request] st).
Proof.
  intros (Hc & Ha & Hh & Hs) Hfs.
  destruct Hs as [(_ & _ & Hnone & _)|(client & Hctx & Hcan & Hfs' & Hlast & Hhost)]; [done|].
  unfold bucket_keeps, bucket_logged. cbn. bucket_unfold.
  rewrite !omap_app, Hc, Ha, Hctx. cbn. rewrite !app_nil_r.
  split_and!; try done. right. by exists client.
Qed.

Lemma bucket_handled_keeps host st s request buckets :
  bucket_keeps host st ->
  report_accepted host (s, request, buckets) ->
  bucket_keeps host (bucket_logged [ReportHandled s request buckets] st).
Proof.
  intros (Hc & Ha & Hh & Hs) Hok.
  unfold bucket_keeps, bucket_logged. cbn. bucket_unfold.
  rewrite !omap_app, Hc, Ha. cbn. rewrite !app_nil_r.
  split_and!; try done.
  apply Forall_app. split; [done|]. by constructor.
Qed.

Lemma ReportBuckets_loop_left streamCtx turns st :
  bucket_keeps (GetForwardedHost streamCtx) st ->
  bucket_left (GetForwardedHost streamCtx)
    (ReportBuckets_loop streamCtx turns st).1 (ReportBuckets_loop streamCtx turns st).2.
Proof.
  revert st. induction turns as [|t turns IH]; intros st Hk.
  { by apply bucket_keeps_left. }
  cbn [ReportBuckets_loop].
  apply (bucket_relay_keeps _ (relay_before_recv t)) in Hk.
  set (st1 := bucket_relay (relay_before_recv t) st) in *. clearbody st1. clear st.
  unfold bucketHeartbeatServer_recv.
  case_bool_decide as Hclosed.
  { cbn. apply (bucket_keeps_returns _ _ None _ Hk). intros _. split; [|done].
    destruct Hk as (_ & _ & _ & [(_ & _ & _ & H0 & _)|(client & -> & _)]); [lia|done]. }
  destruct (result (bucket_recv t)) as [request [e|]].
  { cbn. apply (bucket_keeps_returns _ _ _ _ Hk). done. }
  cbn [err value closed_after].
  assert (Hst : mkBucketStream (bucket_closed st1) (bucket_forwardStream st1)
                  (bucket_cancel st1) (bucket_lastForwardedHost st1) (bucket_errCh st1)
                  (bucket_relay_runs st1) (bucket_log st1) = st1) by by destruct st1.
  rewrite Hst. clear Hst.
  destruct (isLocalRequest (bucket_server t) (GetForwardedHost streamCtx)) eqn:Hlocal;
    cbn [negb].
  - destruct (hasRaftCluster (bucket_server t)) eqn:Hrc; cbn [negb].
    + destruct (validateRequest _ _) as [e|] eqn:Hval.
      { cbn. by apply bucket_keeps_fails. }
      destruct (ReportBucketsRequest_GetBuckets request) as [buckets|] eqn:Hb; [|by apply IH].
      case_bool_decide as Hkeys; [by apply IH|].
      assert (Hk' : bucket_keeps (GetForwardedHost streamCtx)
                      (bucket_logged [ReportHandled (bucket_server t) request buckets] st1)).
      { apply bucket_handled_keeps; [done|]. split_and!; try done.
        intros Hnil. by rewrite Hnil in Hkeys. }
      destruct (HandleReportBuckets t); by apply IH.
    + cbn. destruct (bucket_keeps_left _ _ Hk) as (Hc & Hh & Hf & Hr & Hs & Ha).
      unfold bucket_left. cbn. bucket_unfold.
      rewrite !omap_app, Ha. cbn. rewrite !app_nil_r.
      split_and!; try done.
      * right. eexists. split; [done|]. by exists (bucket_server t).
      * intros _. by left.
  - assert (Hhost : GetForwardedHost streamCtx <> "").
    { intros Hempty. by rewrite Hempty in Hlocal. }
    pose proof (bucket_forward_stream_keeps _ t _ Hhost Hk) as Hfs.
    assert (Hsome : match bucket_forward_stream t (GetForwardedHost streamCtx) st1 with
                    | inl st => bucket_forwardStream st <> None
                    | inr _ => True
                    end).
    { unfold bucket_forward_stream.
      destruct (bucket_forwardStream st1) eqn:Hf1; cbn [bool_decide orb].
      - rewrite (bool_decide_eq_false_2 (Some n = None)) by done. cbn [orb].
        case_bool_decide; [|by rewrite Hf1].
        destruct (getDelegateClient _ _ _) as [s [client|e]]; [|done].
        by destruct (bucket_create t).
      - rewrite (bool_decide_eq_true_2 (None = None)) by done. cbn [orb].
        destruct (getDelegateClient _ _ _) as [s [client|e]]; [|done].
        by destruct (bucket_create t). }
    destruct (bucket_forward_stream t (GetForwardedHost streamCtx) st1) as [st2|[e st2]];
      [|done].
    destruct (bucket_forward_send t) as [e|].
    { cbn. by apply bucket_keeps_fails. }
    apply (bucket_forwarded_keeps _ _ request) in Hfs; [|done].
    apply (bucket_relay_keeps _ (relay_before_select t)) in Hfs.
    set (st3 := bucket_relay _ _) in *. clearbody st3.
    destruct (bucket_errCh st3) as [e|] eqn:Herr; [|by apply IH].
    cbn. by apply bucket_keeps_fails.
Qed.

(** Turns that the handler serves itself leave the loop running, whatever
    the cluster answers to the reports. *)
Lemma ReportBuckets_loop_served streamCtx turns st :
  bucket_relay_runs st = false ->
  bucket_closed st <> 1 ->
  Forall (served_here (GetForwardedHost streamCtx)) turns ->
  exists st', ReportBuckets_loop streamCtx turns st = (Running, st')
    /\ bucket_relay_runs st' = false /\ bucket_closed st' = bucket_closed st
    /\ bucket_handled (bucket_log st') = bucket_handled (bucket_log st) ++ reports_of turns
    /\ bucket_contexts (bucket_log st') = bucket_contexts (bucket_log st)
    /\ bucket_forwarded (bucket_log st') = bucket_forwarded (bucket_log st)
    /\ bucket_relayed (bucket_log st') = bucket_relayed (bucket_log st).
Proof.
  intros Hruns Hclosed Hall. revert st Hruns Hclosed.
  induction Hall as [|t turns (Hrecv & Hlocal & Hrc & Hval) _ IH]; intros st Hruns Hclosed.
  { exists st. by rewrite app_nil_r. }
  cbn [ReportBuckets_loop].
  assert (Hrelay : bucket_relay (relay_before_recv t) st = st)
    by (unfold bucket_relay; by rewrite Hruns).
  rewrite Hrelay. clear Hrelay.
  unfold bucketHeartbeatServer_recv. rewrite bool_decide_eq_false_2 by done.
  destruct (result (bucket_recv t)) as [request e] eqn:Hres.
  cbn [fst snd] in Hrecv, Hval. subst e.
  cbn [err value closed_after]. rewrite Hlocal, Hrc. cbn [negb]. rewrite Hval.
  assert (Hst : mkBucketStream (bucket_closed st) (bucket_forwardStream st)
                  (bucket_cancel st) (bucket_lastForwardedHost st) (bucket_errCh st)
                  (bucket_relay_runs st) (bucket_log st) = st) by by destruct st.
  rewrite Hst. clear Hst.
  unfold reports_of. cbn [omap list_omap]. fold (reports_of turns). rewrite Hres. cbn [fst].
  destruct (ReportBucketsRequest_GetBuckets request) as [buckets|] eqn:Hb.
  - destruct (decide (buckets_Keys buckets = [])) as [Hnil|Hkeys].
    + rewrite (bool_decide_eq_true_2 (length _ = 0%nat)) by by rewrite Hnil.
      rewrite (bool_decide_eq_true_2 (buckets_Keys buckets = [])) by done.
      by apply IH.
    + rewrite (bool_decide_eq_false_2 (length _ = 0%nat))
        by (by intros ?%length_zero_iff_nil).
      rewrite (bool_decide_eq_false_2 (buckets_Keys buckets = [])) by done.
      destruct (IH (bucket_logged [ReportHandled (bucket_server t) request buckets] st))
        as (st' & Hrun & Hr' & Hc' & Hh' & Hx' & Hf' & Hy'); [done|done|].
      exists st'. split; [by destruct (HandleReportBuckets t)|].
      split_and!; try done.
      * rewrite Hh'. unfold bucket_logged. cbn. bucket_unfold.
        rewrite omap_app. cbn. by rewrite <- app_assoc.
      * rewrite Hx'. unfold bucket_logged. cbn. bucket_unfold.
        rewrite omap_app. cbn. by rewrite app_nil_r.
      * rewrite Hf'. unfold bucket_logged. cbn. bucket_unfold.
        rewrite omap_app. cbn. by rewrite app_nil_r.
      * rewrite Hy'. unfold bucket_logged. cbn. bucket_unfold.
        rewrite omap_app. cbn. by rewrite app_nil_r.
  - by apply IH.
Qed.

(** X25. What a [ReportBuckets] stream does and never does. Refused by the
    rate limiter, it returns the limiter's error and does nothing. Otherwise:
    a report reaches the cluster only from a request that arrived on a turn
    where the forwarded host was local, the server had a cluster and
    accepted the header, and only if its buckets have keys; the stream
    creates at most one forward stream, forwards and relays only over it,
    cancels nothing while it runs and on return has cancelled the context
    it created, once; it answers the client itself at most once, with the
    not-bootstrapped header of a server without a cluster, and then
    returns; it returns nil only after such an answer, or when it had a
    forward stream and found the guard closed; the token of the rate
    limiter is given back exactly on return. Turns that the server serves
    itself keep the stream running whatever the cluster answers, and hand
    the cluster exactly the reports with keys, in order. *)
Theorem X25_report_buckets (limit : RateLimit) (streamCtx : Ctx)
    (turns : list BucketTurn) :
  let '(ret, st, released) := ReportBucketsHandler limit streamCtx turns in
  let host := GetForwardedHost streamCtx in
  let log := bucket_log st in
  (forall e, limit = RateLimitDenied e ->
     ret = Return (Some e) /\ log = [] /\ released = false)
  /\ Forall (report_accepted host) (bucket_handled log)
  /\ (length (bucket_contexts log) <= 1)%nat
  /\ (bucket_forwarded log <> [] -> host <> "" /\ bucket_contexts log <> [])
  /\ (bucket_relayed log <> [] -> bucket_contexts log <> [])
  /\ match ret with
     | Running =>
       bucket_cancels log = [] /\ bucket_answers log = [] /\ released = false
     | Return e =>
       bucket_cancels log = seq 0 (length (bucket_contexts log))
       /\ (bucket_answers log = []
           \/ exists resp, bucket_answers log = [resp] /\ not_bootstrapped_answer resp)
       /\ (e = None ->
           bucket_answers log <> []
           \/ (bucket_contexts log <> [] /\ bucket_closed st = 1))
       /\ (released = true <-> limit = RateLimitAllowed)
     end
  /\ ((forall e, limit <> RateLimitDenied e) ->
      Forall (served_here host) turns ->
      ret = Running /\ bucket_handled log = reports_of turns
      /\ bucket_contexts log = [] /\ bucket_forwarded log = []
      /\ bucket_relayed log = []).
Proof.
  assert (Hstart : bucket_keeps (GetForwardedHost streamCtx) bucket_stream_start).
  { unfold bucket_keeps. cbn. split_and!; try done. by left. }
  pose proof (ReportBuckets_loop_left streamCtx turns _ Hstart) as Hleft.
  pose proof (ReportBuckets_loop_served streamCtx turns bucket_stream_start
                eq_refl ltac:(done)) as Hserved.
  unfold ReportBucketsHandler.
  destruct limit as [| |denied].
  3: { cbn. split_and!; try done; try lia; try (by left).
       - by intros e [= ->].
       - intros H. by destruct (H denied). }
  all: destruct (ReportBuckets_loop streamCtx turns bucket_stream_start) as [ret st];
    cbn [fst snd] in Hleft;
    destruct Hleft as (Hc & Hh & Hf & Hr & Hs & Hret);
    destruct ret as [|e].
  all: try (split_and!; try done;
            [ destruct Hs as [(-> & _)|(client & -> & _)]; cbn; lia
            | intros _ Hall; destruct (Hserved Hall) as (st' & [= <-] & _ & _ & Hh' & Hx' & Hf' & Hy');
              by rewrite Hh', Hx', Hf', Hy' ]).
  all: assert (Hcancel :
      bucket_cancels (bucket_log (bucket_cancel_if_set st))
      = seq 0 (length (bucket_contexts (bucket_log st)))
      /\ bucket_contexts (bucket_log (bucket_cancel_if_set st)) = bucket_contexts (bucket_log st)
      /\ bucket_handled (bucket_log (bucket_cancel_if_set st)) = bucket_handled (bucket_log st)
      /\ bucket_forwarded (bucket_log (bucket_cancel_if_set st)) = bucket_forwarded (bucket_log st)
      /\ bucket_relayed (bucket_log (bucket_cancel_if_set st)) = bucket_relayed (bucket_log st)
      /\ bucket_answers (bucket_log (bucket_cancel_if_set st)) = bucket_answers (bucket_log st)
      /\ bucket_closed (bucket_cancel_if_set st) = bucket_closed st)
    by (unfold bucket_cancel_if_set;
        destruct Hs as [(Hctx & ->)|(client & Hctx & ->)];
        [ by rewrite Hctx, Hc
        | unfold bucket_logged; cbn; bucket_unfold;
          rewrite !omap_app, Hc, Hctx; cbn; by rewrite !app_nil_r ]).
  all: destruct Hcancel as (K1 & K2 & K3 & K4 & K5 & K6 & K7);
    rewrite K1, K2, K3, K4, K5, K6, K7; destruct Hret as [Hans Hnil].
  all: split_and!; try done.
  all: try (destruct Hs as [(-> & _)|(client & -> & _)]; cbn; lia).
  all: try (intros _ Hall; by destruct (Hserved Hall) as (st' & [= ] & _)).
Qed.

(** ** Region heartbeats *)

Ltac hb_unfold :=
  unfold hb_cancels, hb_cancel1s, hb_forwarded, hb_scheduled, hb_handovers,
    hb_send_errs, hb_handled, hb_answers, forward_contexts, scheduling_contexts in *.

Ltac hb_norm :=
  hb_unfold; rewrite ?omap_app in *;
  cbn [omap list_omap is_cancel is_cancel1 is_forwarded is_scheduled is_handover
       is_send_err is_handled is_answer is_forward_context is_scheduling_context
       app] in *;
  rewrite ?app_nil_r in *.

Lemma seq_pred_snoc (n : nat) :
  n <> 0%nat -> seq 0 (pred n) ++ [pred n] = seq 0 n.
Proof.
  intros Hn. destruct n as [|n]; [done|]. cbn [pred]. by rewrite seq_S.
Qed.

Lemma heartbeat_scheduled_mono handled more h :
  heartbeat_scheduled handled h -> heartbeat_scheduled (handled ++ more) h.
Proof.
  intros (Hin & Hapi & Hok). split_and!; try done. apply elem_of_app. by left.
Qed.

Lemma hb_keeps_left host st exit :
  hb_keeps host st ->
  match exit with HbReturn None => False | _ => True end ->
  hb_left host exit st.
Proof.
  intros (Hc & Ha & Hh & Hs & He & Hc1 & Hv1 & Hcl & Hsh & Hf) Hexit.
  unfold hb_left. split_and!; try done.
  - destruct Hf as [(_ & _ & _ & ->)|(client & -> & _ & _ & _ & Hhost)]; by intros.
  - destruct Hf as [(? & ? & _)|(client & ? & ? & _)]; [by left|right; by exists client].
  - destruct exit as [|[e|]| |]; try done. split; [by left|done].
Qed.

Lemma hb_left_closed host st exit closed :
  hb_left host exit st ->
  match exit with HbReturn None => False | _ => True end ->
  hb_left host exit (hb_with_closed closed st).
Proof.
  intros (Hc & Hh & Hs & He & Hc1 & Hfw & Hf & Hexit) Hne.
  unfold hb_left, hb_with_closed. cbn. split_and!; try done.
  destruct exit as [|[e|]| |]; try done.
  destruct Hexit as [Hans _]. by split.
Qed.

Lemma hb_keeps_closed host st closed :
  hb_keeps host st ->
  (closed = 1 -> hb_shared st = true) ->
  hb_keeps host (hb_with_closed closed st).
Proof.
  intros (Hc & Ha & Hh & Hs & He & Hc1 & Hv1 & Hcl & Hsh & Hf) Hclosed.
  unfold hb_keeps, hb_with_closed. cbn. split_and!; done.
Qed.

Lemma hb_keeps_eof host st :
  hb_keeps host st ->
  hb_shared st = true ->
  hb_left host (HbReturn None) (hb_with_closed 1 st).
Proof.
  intros Hk Hshared.
  destruct (hb_keeps_left _ _ HbRunning Hk I) as (Hc & Hh & Hs & He & Hc1 & Hfw & Hf & Ha).
  destruct Hk as (_ & _ & _ & _ & _ & _ & _ & _ & Hsh & _).
  unfold hb_left, hb_with_closed. cbn. split_and!; try done; [by left|].
  intros _. right. split; [done|]. by apply Hsh.
Qed.


Lemma hb_logged_neutral host st ev :
  hb_keeps host st ->
  match ev with
  | HbDelegateFetched _ => True
  | HbBindStream _ taken => taken = false
  | HbSendErr ErrorType_UNKNOWN _ _ => True
  | _ => False
  end ->
  hb_keeps host (hb_logged [ev] st).
Proof.
  intros (Hc & Ha & Hh & Hs & He & Hc1 & Hv1 & Hcl & Hsh & Hf) Hev.
  unfold hb_keeps, hb_logged. cbn. hb_unfold.
  rewrite !omap_app.
  destruct ev as [| | | | | | | |storeID taken|errType peer taken| |]; try done.
  - cbn. rewrite !app_nil_r. split_and!; done.
  - subst taken. cbn. rewrite !app_nil_r. split_and!; done.
  - destruct errType; try done. cbn. rewrite !app_nil_r. split_and!; try done.
    apply Forall_app. split; [done|]. by constructor.
Qed.

Lemma hb_bind_keeps host t storeID st :
  hb_keeps host st -> hb_keeps host (hb_bind t storeID st).
Proof.
  intros Hk. unfold hb_bind. case_bool_decide; [|done].
  destruct Hk as (Hc & Ha & Hh & Hs & He & Hc1 & Hv1 & Hcl & Hsh & Hf).
  unfold hb_keeps. cbn. hb_unfold. rewrite !omap_app.
  destruct (hb_bind_taken t); cbn; rewrite ?app_nil_r, ?orb_true_r, ?orb_false_r;
    split_and!; try done.
  all: try (intros H1; by rewrite (Hcl H1)).
  all: try (intros _ Hnil; by apply app_eq_nil in Hnil as [_ ?]).
Qed.

Lemma hb_forward_stream_keeps host t st :
  host <> "" ->
  hb_keeps host st ->
  match hb_forward_stream t host st with
  | inl st => hb_keeps host st /\ hb_forwardStream st <> None
  | inr (e, st) => hb_left host (HbReturn (Some e)) st
  end.
Proof.
  intros Hhost Hk. unfold hb_forward_stream.
  pose proof Hk as (Hc & Ha & Hh & Hs & He & Hc1 & Hv1 & Hcl & Hsh & Hf).
  destruct Hf as [(Hctx & Hcan & Hfs & Hfw)|(client & Hctx & Hcan & Hfs & Hlast & _)].
  - rewrite Hfs. rewrite bool_decide_eq_true_2 by done. cbn [orb].
    unfold hb_cancel_if_set. rewrite Hcan.
    destruct (getDelegateClient (hb_server t) (hb_dial t) host) as [s [client|e]].
    + rewrite Hctx. cbn [length].
      destruct (hb_create t) as [e|].
      * unfold hb_left. cbn. hb_unfold.
        rewrite !omap_app, Hc, Ha, Hctx, Hfw. cbn. rewrite !app_nil_r.
        split_and!; try done; try (by left). right. by exists client.
      * split; [|done]. unfold hb_keeps. cbn. hb_unfold.
        rewrite !omap_app, Hc, Ha, Hctx. cbn. rewrite !app_nil_r.
        split_and!; try done.
        -- intros _ Hnil. by apply app_eq_nil in Hnil as [_ ?].
        -- right. by exists client.
    + apply hb_keeps_left; [|done]. by apply hb_logged_neutral.
  - rewrite Hfs, Hlast. rewrite bool_decide_eq_false_2 by done.
    rewrite bool_decide_eq_false_2 by (intros ?; done). cbn [orb].
    split; [done|]. by rewrite Hfs.
Qed.

Lemma hb_forwarded_keeps host st request :
  hb_keeps host st ->
  hb_forwardStream st <> None ->
  hb_keeps host (hb_logged [HbForwardSent request] st).
Proof.
  intros (Hc & Ha & Hh & Hs & He & Hc1 & Hv1 & Hcl & Hsh & Hf) Hfs.
  destruct Hf as [(_ & _ & Hnone & _)|(client & Hctx & Hcan & Hfs' & Hlast & Hhost)]; [done|].
  unfold hb_keeps, hb_logged. cbn. hb_unfold.
  rewrite !omap_app, Hc, Ha, Hctx. cbn. rewrite !app_nil_r.
  split_and!; try done. right. by exists client.
Qed.

Lemma hb_handled_keeps host st t request :
  hb_keeps host st ->
  heartbeat_accepted host (t, request) ->
  hb_keeps host (hb_logged [HbHandled t request] st)
  /\ (t, request) ∈ hb_handled (hb_log (hb_logged [HbHandled t request] st)).
Proof.
  intros (Hc & Ha & Hh & Hs & He & Hc1 & Hv1 & Hcl & Hsh & Hf) Hok.
  unfold hb_keeps, hb_logged. cbn. hb_unfold.
  rewrite !omap_app. cbn. rewrite !app_nil_r.
  split_and!; try done.
  - apply Forall_app. split; [done|]. by constructor.
  - eapply Forall_impl; [exact Hs|]. intros h. apply heartbeat_scheduled_mono.
  - apply elem_of_app. right. by apply list_elem_of_singleton.
Qed.

Lemma hb_left_same host exit st st' :
  hb_left host exit st ->
  hb_log st' = hb_log st -> hb_cancel st' = hb_cancel st -> hb_closed st' = hb_closed st ->
  hb_left host exit st'.
Proof.
  unfold hb_left. intros H Hlog Hcancel Hclosed. by rewrite Hlog, Hcancel, Hclosed.
Qed.

Lemma scheduling_context_step {A} (scs : list A) (conn : A) (cancels : list nat) :
  cancels = seq 0 (pred (length scs)) ->
  cancels ++ (if bool_decide (scs = []) then [] else [pred (length scs)])
  = seq 0 (pred (length (scs ++ [conn])))
  /\ Some (length scs)
     = (if bool_decide (scs ++ [conn] = []) then None
        else Some (pred (length (scs ++ [conn])))).
Proof.
  intros ->. rewrite length_app, Nat.add_1_r. cbn [pred length]. split.
  - case_bool_decide as Hnil; [by rewrite Hnil|].
    apply seq_pred_snoc. by intros ?%length_zero_iff_nil.
  - rewrite bool_decide_eq_false_2; [done|]. by intros [_ ?]%app_eq_nil.
Qed.

Lemma hb_to_scheduling_keeps host t request st :
  hb_keeps host st ->
  heartbeat_scheduled (hb_handled (hb_log st)) (t, request) ->
  match hb_to_scheduling t request st with
  | (true, st) => hb_left host HbPanic st
  | (false, st) => hb_keeps host st
  end.
Proof.
  intros Hk Hsched. unfold hb_to_scheduling.
  assert (Hsent : forall st', hb_keeps host st' ->
            hb_handled (hb_log st') = hb_handled (hb_log st) ->
            hb_keeps host (hb_logged [HbSchedulingSent t request] st')).
  { intros st' (Hc & Ha & Hh & Hs & He & Hc1 & Hv1 & Hcl & Hsh & Hf) Heq.
    unfold hb_keeps, hb_logged. cbn. hb_unfold.
    rewrite !omap_app. cbn. rewrite !app_nil_r.
    split_and!; try done.
    apply Forall_app. split; [done|]. constructor; [|done].
    unfold hb_handled in Heq. by rewrite Heq. }
  destruct (bool_decide (hb_schedulingStream st = None)
            || bool_decide (hb_lastPrimaryAddr st <> hb_primary t)).
  2: { destruct (hb_schedulingStream st); [by apply Hsent|done]. }
  destruct (getDelegateClient (hb_server t) (hb_sched_dial t) (hb_primary t)) as [s client].
  set (conn := match client with inl c => Some c | inr _ => None end). clearbody conn.
  clear client.
  assert (Hstep : forall ss addr shared more,
    (hb_shared st = true -> shared = true) ->
    (shared = true -> hb_handovers (hb_log st) = [] -> hb_handovers more <> []) ->
    hb_cancels more = [] -> hb_answers more = [] -> hb_handled more = [] ->
    hb_scheduled more = [] -> hb_send_errs more = [] -> forward_contexts more = [] ->
    hb_forwarded more = [] -> hb_cancel1s more = [] -> scheduling_contexts more = [] ->
    let st1 := hb_cancel1_if_set st in
    let st2 := mkHeartbeatStream (hb_closed st1) (hb_forwardStream st1) (hb_cancel st1)
                 (hb_lastForwardedHost st1) (hb_lastBind st1) ss
                 (Some (length (scheduling_contexts (hb_log st1)))) addr shared
                 ((hb_log st1 ++ [HbDelegateFetched s; HbSchedulingContext conn]) ++ more) in
    hb_keeps host st2 /\ hb_handled (hb_log st2) = hb_handled (hb_log st)).
  { intros ss addr shared more Hmono Hshared M1 M2 M3 M4 M5 M6 M7 M8 M9.
    destruct st as [closed fs cancel last lastBind ss0 c1 addr0 shared0 log].
    destruct Hk as (Hc & Ha & Hh & Hs & He & Hc1 & Hv1 & Hcl & Hsh & Hf).
    cbn [hb_log hb_cancel1 hb_closed hb_shared hb_cancel hb_forwardStream
         hb_lastForwardedHost] in *.
    unfold hb_cancel1_if_set. cbn [hb_cancel1]. rewrite Hv1.
    destruct (scheduling_context_step (scheduling_contexts log) conn _ Hc1) as [K1 K2].
    destruct (decide (scheduling_contexts log = [])) as [Hnil|Hnil].
    - rewrite (bool_decide_eq_true_2 _ Hnil) in *.
      unfold hb_keeps. cbn [hb_log hb_cancel1 hb_closed hb_shared hb_cancel
        hb_forwardStream hb_lastForwardedHost hb_schedulingStream].
      hb_norm. rewrite ?M1, ?M2, ?M3, ?M4, ?M5, ?M6, ?M7, ?M8, ?M9, ?app_nil_r.
      split; [|done]. split_and!; try done.
      + intros H1. by apply Hmono, Hcl.
      + intros H1 [H2 H3]%app_eq_nil. by apply (Hshared H1).
    - rewrite (bool_decide_eq_false_2 _ Hnil) in *.
      unfold hb_keeps, hb_logged. cbn [hb_log hb_cancel1 hb_closed hb_shared hb_cancel
        hb_forwardStream hb_lastForwardedHost hb_schedulingStream].
      hb_norm. rewrite ?M1, ?M2, ?M3, ?M4, ?M5, ?M6, ?M7, ?M8, ?M9, ?app_nil_r.
      split; [|done]. split_and!; try done.
      + intros H1. by apply Hmono, Hcl.
      + intros H1 [H2 H3]%app_eq_nil. by apply (Hshared H1). }
  assert (Hfields : hb_shared (hb_cancel1_if_set st) = hb_shared st)
    by (unfold hb_cancel1_if_set; by destruct (hb_cancel1 st)).
  pose proof Hk as (_ & _ & _ & _ & _ & _ & _ & _ & Hsh & _).
  cbn zeta in Hstep.
  destruct (hb_sched_create t conn) as [|e|].
  - destruct (Hstep (Some (length (scheduling_contexts (hb_log (hb_cancel1_if_set st)))))
                    (hb_primary t) true [HbRelayStarted]) as [Hk' Hh']; try done.
    by apply Hsent.
  - destruct (Hstep None (hb_lastPrimaryAddr (hb_cancel1_if_set st))
                    (hb_shared (hb_cancel1_if_set st)) []) as [Hk' Hh']; try done.
    + by rewrite Hfields.
    + rewrite Hfields. intros H1 H2. by apply Hsh in H1.
    + by rewrite app_nil_r in Hk'.
  - destruct (Hstep None (hb_lastPrimaryAddr (hb_cancel1_if_set st))
                    (hb_shared (hb_cancel1_if_set st)) []) as [Hk' Hh']; try done.
    + by rewrite Hfields.
    + rewrite Hfields. intros H1 H2. by apply Hsh in H1.
    + rewrite app_nil_r in Hk'.
      eapply hb_left_same; [apply (hb_keeps_left _ _ HbPanic Hk' I)|done..].
Qed.

Lemma RegionHeartbeat_loop_left streamCtx turns st :
  hb_keeps (GetForwardedHost streamCtx) st ->
  hb_left (GetForwardedHost streamCtx)
    (RegionHeartbeat_loop streamCtx turns st).1 (RegionHeartbeat_loop streamCtx turns st).2.
Proof.
  revert st. induction turns as [|t turns IH]; intros st Hk.
  { by apply hb_keeps_left. }
  cbn [RegionHeartbeat_loop].
  set (closed := if hb_shared st && hb_closed_meanwhile t then 1 else hb_closed st).
  assert (Hclosed : closed = 1 -> hb_shared st = true).
  { destruct Hk as (_ & _ & _ & _ & _ & _ & _ & Hcl & _).
    subst closed. destruct (hb_shared st); [done|]. exact Hcl. }
  clearbody closed.
  unfold heartbeatServer_Recv.
  case_bool_decide as H1.
  { subst closed. cbn. apply hb_keeps_eof; [done|]. by apply Hclosed. }
  destruct (result (hb_recv t)) as [request [e|]] eqn:Hres.
  { cbn. apply hb_left_closed; [|done]. by apply hb_keeps_left. }
  cbn [err value closed_after].
  apply (hb_keeps_closed _ _ closed) in Hk; [|done].
  set (st1 := hb_with_closed closed st) in *. clearbody st1. clear st Hclosed.
  destruct (isLocalRequest (hb_server t) (GetForwardedHost streamCtx)) eqn:Hlocal;
    cbn [negb].
  - destruct (hasRaftCluster (hb_server t)) eqn:Hrc; cbn [negb].
    + destruct (GrpcServer_validateRequest _ _) as [e|] eqn:Hval.
      { cbn. by apply hb_keeps_left. }
      destruct (hb_store t) eqn:Hstore; cbn [negb].
      2: { cbn. by apply hb_keeps_left. }
      apply (hb_bind_keeps _ t (hbstream.GetStoreId (RegionHeartbeatRequest_GetLeader request)))
        in Hk.
      set (st2 := hb_bind t _ st1) in *. clearbody st2. clear st1.
      assert (Hrej : hb_keeps (GetForwardedHost streamCtx)
                (hb_logged [HbSendErr ErrorType_UNKNOWN
                              (RegionHeartbeatRequest_GetLeader request)
                              (hb_err_taken t)] st2))
        by by apply hb_logged_neutral.
      case_bool_decide as Hleader; [by apply IH|].
      case_bool_decide as Hid; [by apply IH|].
      case_bool_decide as Hpeers; [by apply IH|].
      assert (Hacc : heartbeat_accepted (GetForwardedHost streamCtx) (t, request)).
      { unfold heartbeat_accepted, hb_served_here. rewrite Hres. cbn [fst snd].
        split_and!; try done.
        unfold region_ok.
        rewrite (bool_decide_eq_false_2 _ Hleader), (bool_decide_eq_false_2 _ Hid).
        rewrite bool_decide_eq_false_2; [done|].
        intros Hnil. by rewrite Hnil in Hpeers. }
      destruct (hb_handled_keeps _ _ _ _ Hk Hacc) as [Hk' Hin].
      set (st3 := hb_logged [HbHandled t request] st2) in *. clearbody st3.
      destruct (HandleRegionHeartbeat t) as [e|] eqn:Hhandle.
      { apply IH. by apply hb_logged_neutral. }
      destruct (hb_api_mode t) eqn:Hapi; [|by apply IH].
      pose proof (hb_to_scheduling_keeps _ t request st3 Hk'
                    ltac:(by split_and!)) as Hsched.
      destruct (hb_to_scheduling t request st3) as [[|] st4]; [done|by apply IH].
    + cbn. destruct (hb_keeps_left _ _ HbRunning Hk I)
        as (Hc & Hh & Hs & He & Hc1 & Hfw & Hf & Ha).
      unfold hb_left, hb_logged, hb_with_closed. cbn [hb_log hb_cancel hb_closed].
      hb_norm. rewrite Ha. cbn [app].
      split_and!; try done.
      * right. eexists. split; [done|]. by exists (hb_server t).
      * intros _. by left.
  - assert (Hhost : GetForwardedHost streamCtx <> "").
    { intros Hempty. by rewrite Hempty in Hlocal. }
    pose proof (hb_forward_stream_keeps _ t _ Hhost Hk) as Hfs.
    destruct (hb_forward_stream t (GetForwardedHost streamCtx) st1) as [st2|[e st2]];
      [|done].
    destruct Hfs as [Hk2 Hsome].
    destruct (hb_forward_send t) as [e|].
    { cbn. by apply hb_keeps_left. }
    apply (hb_forwarded_keeps _ _ request) in Hk2; [|done].
    destruct (hb_errCh t) as [e|]; [|by apply IH].
    cbn. by apply hb_keeps_left.
Qed.

Lemma hb_bind_view t storeID st : hb_view (hb_bind t storeID st) = hb_view st.
Proof.
  unfold hb_bind. case_bool_decide; [|done].
  unfold hb_view. cbn [hb_log hb_closed]. hb_norm.
  by destruct (hb_bind_taken t).
Qed.

Lemma hb_to_scheduling_view t request st :
  (forall client, hb_sched_create t client <> SchedCreatePanics) ->
  exists st', hb_to_scheduling t request st = (false, st') /\ hb_view st' = hb_view st.
Proof.
  intros Hquiet. unfold hb_to_scheduling.
  destruct (bool_decide (hb_schedulingStream st = None)
            || bool_decide (hb_lastPrimaryAddr st <> hb_primary t)).
  2: { destruct (hb_schedulingStream st); eexists; (split; [done|]); [|done].
       unfold hb_view, hb_logged. cbn [hb_log hb_closed]. by hb_norm. }
  destruct (getDelegateClient (hb_server t) (hb_sched_dial t) (hb_primary t)) as [s client].
  set (conn := match client with inl c => Some c | inr _ => None end). clearbody conn.
  assert (Hview : hb_view (hb_cancel1_if_set st) = hb_view st).
  { unfold hb_cancel1_if_set. destruct (hb_cancel1 st); [|done].
    unfold hb_view, hb_logged. cbn [hb_log hb_closed]. by hb_norm. }
  set (st1 := hb_cancel1_if_set st) in *. clearbody st1.
  specialize (Hquiet conn).
  destruct (hb_sched_create t conn) as [|e|]; [| |done].
  - eexists. split; [done|]. rewrite <- Hview.
    unfold hb_view, hb_logged. cbn [hb_log hb_closed]. by hb_norm.
  - eexists. split; [done|]. rewrite <- Hview.
    unfold hb_view, hb_logged. cbn [hb_log hb_closed]. by hb_norm.
Qed.

(** Turns that the server serves itself, with nobody closing the guard and
    no panic, leave the loop running: each hands its heartbeat to the
    cluster or has one error message sent, or both. *)
Lemma RegionHeartbeat_loop_served streamCtx turns st :
  hb_closed st <> 1 ->
  Forall (fun t => hb_served_here (GetForwardedHost streamCtx) t /\ hb_quiet t) turns ->
  exists st', RegionHeartbeat_loop streamCtx turns st = (HbRunning, st')
    /\ hb_view st'
       = (hb_closed st, hb_handled (hb_log st) ++ handed_over turns,
          hb_send_errs (hb_log st) ++ omap rejection turns,
          forward_contexts (hb_log st), hb_forwarded (hb_log st), hb_answers (hb_log st)).
Proof.
  intros Hclosed Hall. revert st Hclosed.
  induction Hall as [|t turns [(Hrecv & Hlocal & Hrc & Hval & Hstore) [Hmean Hpanic]] _ IH];
    intros st Hclosed.
  { exists st. split; [done|]. unfold hb_view. by rewrite !app_nil_r. }
  cbn [RegionHeartbeat_loop]. rewrite Hmean, andb_false_r.
  unfold heartbeatServer_Recv. rewrite bool_decide_eq_false_2 by done.
  destruct (result (hb_recv t)) as [request e] eqn:Hres.
  cbn [fst snd] in Hrecv, Hval. subst e.
  cbn [err value closed_after]. rewrite Hlocal, Hrc, Hstore. cbn [negb]. rewrite Hval.
  assert (Hst : hb_with_closed (hb_closed st) st = st) by by destruct st.
  rewrite Hst. clear Hst.
  pose proof (hb_bind_view t (hbstream.GetStoreId (RegionHeartbeatRequest_GetLeader request))
                st) as Hbind.
  set (st2 := hb_bind t _ st) in *. clearbody st2.
  assert (Hstep : forall st3 handed errs,
            hb_view st3 = (hb_closed st, hb_handled (hb_log st) ++ handed,
                           hb_send_errs (hb_log st) ++ errs,
                           forward_contexts (hb_log st), hb_forwarded (hb_log st),
                           hb_answers (hb_log st)) ->
            handed_over (t :: turns) = handed ++ handed_over turns ->
            omap rejection (t :: turns) = errs ++ omap rejection turns ->
            exists st', RegionHeartbeat_loop streamCtx turns st3 = (HbRunning, st')
              /\ hb_view st'
                 = (hb_closed st, hb_handled (hb_log st) ++ handed_over (t :: turns),
                    hb_send_errs (hb_log st) ++ omap rejection (t :: turns),
                    forward_contexts (hb_log st), hb_forwarded (hb_log st),
                    hb_answers (hb_log st))).
  { intros st3 handed errs Hv Hh He.
    injection Hv as V1 V2 V3 V4 V5 V6.
    destruct (IH st3) as (st' & Hrun & Hv'); [by rewrite V1|].
    exists st'. split; [done|]. rewrite Hv', V1, V2, V3, V4, V5, V6, Hh, He.
    by rewrite <- !app_assoc. }
  injection Hbind as B1 B2 B3 B4 B5 B6.
  assert (Hrej : forall st3, hb_view st3 = hb_view st2 ->
            hb_view (hb_logged [HbSendErr ErrorType_UNKNOWN
                                  (RegionHeartbeatRequest_GetLeader request)
                                  (hb_err_taken t)] st3)
            = (hb_closed st, hb_handled (hb_log st3),
               hb_send_errs (hb_log st) ++
                 [(ErrorType_UNKNOWN, RegionHeartbeatRequest_GetLeader request,
                   hb_err_taken t)],
               forward_contexts (hb_log st), hb_forwarded (hb_log st),
               hb_answers (hb_log st))).
  { intros st3 Hv. injection Hv as V1 V2 V3 V4 V5 V6.
    unfold hb_view, hb_logged. cbn [hb_log hb_closed]. hb_norm.
    by rewrite V1, V3, V4, V5, V6, B1, B3, B4, B5, B6. }
  assert (Hreg : region_ok t
                 = negb (bool_decide (region_Leader (hb_region t) = None))
                   && negb (bool_decide (region_ID (hb_region t) = 0))
                   && negb (bool_decide (length (region_Peers (hb_region t)) = 0%nat))).
  { unfold region_ok. do 2 f_equal. apply bool_decide_ext. split.
    - by intros ->.
    - by intros ?%length_zero_iff_nil. }
  assert (Hbad : region_ok t = false ->
            exists st', RegionHeartbeat_loop streamCtx turns
                          (hb_logged [HbSendErr ErrorType_UNKNOWN
                                        (RegionHeartbeatRequest_GetLeader request)
                                        (hb_err_taken t)] st2) = (HbRunning, st')
              /\ hb_view st'
                 = (hb_closed st, hb_handled (hb_log st) ++ handed_over (t :: turns),
                    hb_send_errs (hb_log st) ++ omap rejection (t :: turns),
                    forward_contexts (hb_log st), hb_forwarded (hb_log st),
                    hb_answers (hb_log st))).
  { intros Hno. apply (Hstep _ [] [(ErrorType_UNKNOWN,
                                     RegionHeartbeatRequest_GetLeader request,
                                     hb_err_taken t)]).
    - rewrite (Hrej st2 eq_refl). unfold hb_handled in *. by rewrite B2, app_nil_r.
    - unfold handed_over. cbn [omap list_omap]. by rewrite Hno.
    - cbn [omap list_omap]. unfold rejection at 1. rewrite Hno, Hres. done. }
  destruct (bool_decide (region_Leader (hb_region t) = None)).
  { apply Hbad. by rewrite Hreg. }
  destruct (bool_decide (region_ID (hb_region t) = 0)).
  { apply Hbad. by rewrite Hreg. }
  destruct (bool_decide (length (region_Peers (hb_region t)) = 0%nat)).
  { apply Hbad. by rewrite Hreg. }
  assert (Hok : region_ok t = true) by by rewrite Hreg.
  assert (Hhandled : hb_view (hb_logged [HbHandled t request] st2)
            = (hb_closed st, hb_handled (hb_log st) ++ [(t, request)],
               hb_send_errs (hb_log st), forward_contexts (hb_log st),
               hb_forwarded (hb_log st), hb_answers (hb_log st))).
  { unfold hb_view, hb_logged. cbn [hb_log hb_closed]. hb_norm.
    by rewrite B1, B2, B3, B4, B5, B6. }
  set (st3 := hb_logged [HbHandled t request] st2) in *. clearbody st3.
  assert (Hhand : handed_over (t :: turns) = [(t, request)] ++ handed_over turns).
  { unfold handed_over. cbn [omap list_omap]. by rewrite Hok, Hres. }
  destruct (HandleRegionHeartbeat t) as [e|] eqn:Hhandle.
  - apply (Hstep _ [(t, request)] [(ErrorType_UNKNOWN,
                                     RegionHeartbeatRequest_GetLeader request,
                                     hb_err_taken t)]); [|done|].
    + injection Hhandled as V1 V2 V3 V4 V5 V6.
      unfold hb_view, hb_logged. cbn [hb_log hb_closed]. hb_norm.
      by rewrite V1, V2, V3, V4, V5, V6.
    + cbn [omap list_omap]. unfold rejection at 1. rewrite Hok, Hres, Hhandle. done.
  - assert (Hnone : omap rejection (t :: turns) = [] ++ omap rejection turns).
    { cbn [omap list_omap]. unfold rejection at 1. by rewrite Hok, Hhandle. }
    destruct (hb_api_mode t).
    + destruct (hb_to_scheduling_view t request st3 Hpanic) as (st4 & -> & Hv4).
      apply (Hstep _ [(t, request)] []); [|done|done].
      by rewrite Hv4, Hhandled, app_nil_r.
    + apply (Hstep _ [(t, request)] []); [|done|done].
      by rewrite Hhandled, app_nil_r.
Qed.

(** X26. What a [RegionHeartbeat] stream does and never does. A heartbeat
    reaches the cluster only from a request that arrived on a turn where
    the forwarded host was local, the server had a cluster that accepted
    the header and knew the store of the leader, and the region built from
    it had a leader, an id and peers; it goes on to the scheduling service
    only in API service mode and after the cluster handled it without
    error. Every error message the handler has sent is of type UNKNOWN. The
    stream creates at most one forward stream to another member, forwards
    only over it, does not call [cancel] while it runs and has called it
    once for that context when it is left, by a return or a panic. Of the
    contexts of scheduling streams it has cancelled all but the last, in
    order: the last one is not cancelled, not even when the handler is
    left. It answers the client itself at most once, with the
    not-bootstrapped header of a server without a cluster, and then
    returns; it returns nil only after such an answer, or when it found
    closed a guard that it had handed to a relay or to the heartbeat
    streams. Turns that the server serves itself, with nobody closing the
    guard and no panic, keep the stream running: the cluster is handed
    exactly the heartbeats whose region passes the checks, and exactly the
    heartbeats it is not handed or refuses get one error message each,
    addressed to the leader of the request. *)
Theorem X26_region_heartbeat (streamCtx : Ctx) (turns : list HeartbeatTurn) :
  let '(exit, st) := RegionHeartbeatHandler streamCtx turns in
  let host := GetForwardedHost streamCtx in
  let log := hb_log st in
  Forall (heartbeat_accepted host) (hb_handled log)
  /\ Forall (heartbeat_scheduled (hb_handled log)) (hb_scheduled log)
  /\ Forall (fun e => e.1.1 = ErrorType_UNKNOWN) (hb_send_errs log)
  /\ (length (forward_contexts log) <= 1)%nat
  /\ (hb_forwarded log <> [] -> host <> "" /\ forward_contexts log <> [])
  /\ hb_cancels log = match exit with
                      | HbRunning => []
                      | _ => seq 0 (length (forward_contexts log))
                      end
  /\ hb_cancel1s log = seq 0 (pred (length (scheduling_contexts log)))
  /\ match exit with
     | HbReturn e =>
       (hb_answers log = []
        \/ exists resp, hb_answers log = [resp] /\ hb_not_bootstrapped_answer resp)
       /\ (e = None ->
           hb_answers log <> [] \/ (hb_closed st = 1 /\ hb_handovers log <> []))
     | _ => hb_answers log = []
     end
  /\ (Forall (fun t => hb_served_here host t /\ hb_quiet t) turns ->
      exit = HbRunning
      /\ hb_handled log = handed_over turns
      /\ hb_send_errs log = omap rejection turns
      /\ forward_contexts log = [] /\ hb_forwarded log = []).
Proof.
  assert (Hstart : hb_keeps (GetForwardedHost streamCtx) heartbeat_stream_start).
  { unfold hb_keeps. cbn. split_and!; try done. by left. }
  pose proof (RegionHeartbeat_loop_left streamCtx turns _ Hstart) as Hleft.
  pose proof (RegionHeartbeat_loop_served streamCtx turns heartbeat_stream_start
                ltac:(done)) as Hserved.
  unfold RegionHeartbeatHandler.
  destruct (RegionHeartbeat_loop streamCtx turns heartbeat_stream_start) as [exit st].
  cbn [fst snd] in Hleft.
  destruct Hleft as (Hc & Hh & Hs & He & Hc1 & Hfw & Hf & Hexit).
  assert (Hlen : (length (forward_contexts (hb_log st)) <= 1)%nat).
  { destruct Hf as [(-> & _)|(client & -> & _)]; cbn; lia. }
  assert (Hrun : Forall (fun t => hb_served_here (GetForwardedHost streamCtx) t /\ hb_quiet t)
                        turns ->
                 exit = HbRunning
                 /\ hb_handled (hb_log st) = handed_over turns
                 /\ hb_send_errs (hb_log st) = omap rejection turns
                 /\ forward_contexts (hb_log st) = [] /\ hb_forwarded (hb_log st) = []).
  { intros Hall. destruct (Hserved Hall) as (st' & [= <- <-] & Hv).
    by injection Hv as _ -> -> -> -> _. }
  assert (Hcancel :
    hb_cancels (hb_log (hb_cancel_if_set st)) = seq 0 (length (forward_contexts (hb_log st)))
    /\ hb_view (hb_cancel_if_set st) = hb_view st
    /\ hb_scheduled (hb_log (hb_cancel_if_set st)) = hb_scheduled (hb_log st)
    /\ hb_cancel1s (hb_log (hb_cancel_if_set st)) = hb_cancel1s (hb_log st)
    /\ scheduling_contexts (hb_log (hb_cancel_if_set st)) = scheduling_contexts (hb_log st)
    /\ hb_handovers (hb_log (hb_cancel_if_set st)) = hb_handovers (hb_log st)).
  { unfold hb_cancel_if_set.
    destruct Hf as [(Hctx & ->)|(client & Hctx & ->)].
    - by rewrite Hctx, Hc.
    - unfold hb_view, hb_logged. cbn [hb_log hb_closed]. hb_norm.
      by rewrite Hc, Hctx. }
  destruct exit as [|e|storeID|].
  { split_and!; done. }
  all: destruct Hcancel as (K1 & Kv & K2 & K3 & K4 & K5);
    injection Kv as V1 V2 V3 V4 V5 V6;
    unfold hb_handled, hb_send_errs, forward_contexts, hb_forwarded, hb_answers in *;
    rewrite ?K1, ?V1, ?V2, ?V3, ?V4, ?V5, ?V6, ?K2, ?K3, ?K4, ?K5.
  all: split_and!; try done.
  all: try (by destruct Hexit).
  all: intros Hall; by destruct (Hrun Hall).
Qed.

(** ** The synchronisation of the maximal timestamp *)

Lemma sync_check_spec allocators m0 dcs0 m dcs :
  sync_check allocators m0 dcs0 = inr (m, dcs) ->
  dcs = dcs0 ++ dcs_at_check allocators
  /\ 0 <= CompareTimestamp m m0
  /\ above_leaders m allocators
  /\ (m = m0 \/ exists a, a ∈ allocators /\ leader_at_check a = true
                          /\ GetCurrentTSO a = (m, None)).
Proof.
  revert m0 dcs0. induction allocators as [|a allocators IH]; intros m0 dcs0 Hrun.
  { injection Hrun as <- <-. unfold dcs_at_check. cbn. rewrite app_nil_r.
    split_and!; try done.
    - apply CompareTimestamp_refl.
    - intros a Hin. by apply elem_of_nil in Hin.
    - by left. }
  cbn [sync_check] in Hrun. unfold dcs_at_check. cbn [List.filter].
  destruct (leader_at_check a) eqn:Hleader; cbn [negb] in Hrun.
  - destruct (GetCurrentTSO a) as [cur [e|]] eqn:Hcur; [done|].
    apply IH in Hrun as (Hdcs & Hge & Habove & Hfrom).
    set (m1 := if bool_decide (0 < CompareTimestamp cur m0) then cur else m0) in *.
    assert (Hm1 : 0 <= CompareTimestamp m1 m0 /\ 0 <= CompareTimestamp m1 cur).
    { subst m1. case_bool_decide as Hlt.
      - split; [lia|]. apply CompareTimestamp_refl.
      - split; [apply CompareTimestamp_refl|].
        destruct (CompareTimestamp_spec cur m0) as [[H1 _]|[[H1 H2]|[H1 _]]]; [lia| |].
        + destruct (CompareTimestamp_spec m0 cur) as [[-> _]|[[-> _]|[_ H3]]]; [lia|lia|].
          unfold lex_lt in H3. lia.
        + apply CompareTimestamp_lt_le. lia. }
    destruct Hm1 as [Hm10 Hm1c].
    split_and!.
    + rewrite Hdcs. unfold dcs_at_check. cbn. by rewrite <- app_assoc.
    + by apply (CompareTimestamp_trans _ m1).
    + intros b [->|Hin]%elem_of_cons Hb.
      * unfold current_tso. rewrite Hcur. cbn. split; [done|].
        by apply (CompareTimestamp_trans _ m1).
      * by apply Habove.
    + destruct Hfrom as [->|(b & Hin & Hb & Hbcur)].
      * subst m1. case_bool_decide; [|by left].
        right. exists a. split_and!; try done. by left.
      * right. exists b. split_and!; try done. by right.
  - apply IH in Hrun as (Hdcs & Hge & Habove & Hfrom).
    split_and!; try done.
    + intros b [->|Hin]%elem_of_cons Hb; [congruence|by apply Habove].
    + destruct Hfrom as [->|(b & Hin & Hb & Hbcur)]; [by left|].
      right. exists b. split_and!; try done. by right.
Qed.

Lemma sync_write_spec allocators dcs0 :
  exists written rest,
    (sync_write allocators dcs0).1 = dcs0 ++ written
    /\ dcs_at_write allocators = written ++ rest
    /\ match (sync_write allocators dcs0).2 with
       | None => rest = []
       | Some (a, e) =>
         a ∈ allocators /\ leader_at_write a = true /\ WriteTSO a = Some e
         /\ head rest = Some (GetDCLocation a)
       end.
Proof.
  revert dcs0. induction allocators as [|a allocators IH]; intros dcs0.
  { exists [], []. cbn. by rewrite app_nil_r. }
  cbn [sync_write]. unfold dcs_at_write. cbn [List.filter].
  destruct (leader_at_write a) eqn:Hleader; cbn [negb].
  - destruct (WriteTSO a) as [e|] eqn:Hwrite.
    + exists [], (GetDCLocation a :: dcs_at_write allocators). cbn.
      rewrite app_nil_r. split_and!; try done. by left.
    + destruct (IH (dcs0 ++ [GetDCLocation a])) as (w & rest & Hw & Hall & Hfail).
      exists (GetDCLocation a :: w), rest. split_and!.
      * by rewrite Hw, <- app_assoc.
      * cbn. f_equal. exact Hall.
      * destruct (sync_write allocators (dcs0 ++ [GetDCLocation a])).2 as [[b e]|];
          [|done].
        destruct Hfail as (Hin & Hb & He & Hhead). split_and!; try done. by right.
  - destruct (IH dcs0) as (w & rest & Hw & Hall & Hfail).
    exists w, rest. split_and!; try done.
    destruct (sync_write allocators dcs0).2 as [[b e]|]; [|done].
    destruct Hfail as (Hin & Hb & He & Hhead). split_and!; try done. by right.
Qed.

(** X27. What [SyncMaxTS] answers and writes. A request that
    [validateInternalRequest] refuses gets that error and nothing else
    happens; any other request gets a response and no gRPC error. A
    response carries a timestamp only when the check was not skipped and
    nothing was written: the timestamp is the current one of an allocator
    that led, at least the current timestamp of every allocator that led
    and at least the maximal timestamp of the request, and one logical step
    further (in [int64]) when it equals the latter. [WriteTSO] is called
    only when the check was skipped or every allocator that led answered a
    current timestamp below the maximal timestamp of the request; it is
    called on the allocators that lead at that time, in order, up to the
    first that fails, and the response lists exactly those written when
    none fails. *)
Theorem X27_sync_max_ts (s : Server) (request : SyncMaxTSRequest) (env : SyncEnv) :
  let r := SyncMaxTSHandler s request env in
  match validateInternalRequest s (sync_Header request) true with
  | Some e => r = mkSynced None (Some e) [] None
  | None =>
    sync_err r = None
    /\ exists resp, sync_response r = Some resp
    /\ (forall ts, MaxLocalTs resp = Some ts ->
          written r = [] /\ write_failed r = None
          /\ SkipCheck request = false
          /\ sync_response_Header resp = wrapHeader s
          /\ exists allocators m maxTs,
               GetHoldingLocalAllocatorLeaders env = (allocators, None)
               /\ MaxTs request = Some maxTs
               /\ SyncedDcs resp = dcs_at_check allocators
               /\ above_leaders (Some m) allocators
               /\ (exists a, a ∈ allocators /\ leader_at_check a = true
                             /\ GetCurrentTSO a = (Some m, None))
               /\ 0 <= CompareTimestamp (Some m) (Some maxTs)
               /\ ts = if bool_decide (CompareTimestamp (Some m) (Some maxTs) = 0)
                       then next_logical m else m)
    /\ (written r <> [] \/ write_failed r <> None ->
          exists allocators,
            GetHoldingLocalAllocatorLeaders env = (allocators, None)
            /\ (SkipCheck request = true
                \/ exists maxTs, MaxTs request = Some maxTs
                   /\ forall a, a ∈ allocators -> leader_at_check a = true ->
                        (GetCurrentTSO a).2 = None
                        /\ CompareTimestamp (current_tso a) (Some maxTs) < 0)
            /\ exists rest, dcs_at_write allocators = written r ++ rest
               /\ match write_failed r with
                  | None =>
                    rest = [] /\ sync_response_Header resp = wrapHeader s
                    /\ SyncedDcs resp = written r
                  | Some a =>
                    a ∈ allocators /\ leader_at_write a = true /\ WriteTSO a <> None
                    /\ head rest = Some (GetDCLocation a)
                    /\ sync_response_Header resp = wrapErrorToHeader s ErrorType_UNKNOWN
                  end)
  end.
Proof.
  intros r. subst r. unfold SyncMaxTSHandler.
  destruct (validateInternalRequest s (sync_Header request) true) as [e|]; [done|].
  assert (Hunknown : forall r, r = sync_unknown s ->
            sync_err r = None
            /\ exists resp, sync_response r = Some resp
               /\ (forall ts, MaxLocalTs resp = Some ts -> False)
               /\ (written r <> [] \/ write_failed r <> None -> False)).
  { intros r ->. split; [done|]. eexists. split; [done|]. split; [done|]. by intros [?|?]. }
  assert (Hweak : forall r,
            (sync_err r = None
             /\ exists resp, sync_response r = Some resp
                /\ (forall ts, MaxLocalTs resp = Some ts -> False)
                /\ (written r <> [] \/ write_failed r <> None -> False)) ->
            sync_err r = None
            /\ exists resp, sync_response r = Some resp
               /\ (forall ts, MaxLocalTs resp = Some ts ->
                     written r = [] /\ write_failed r = None
                     /\ SkipCheck request = false
                     /\ sync_response_Header resp = wrapHeader s
                     /\ exists allocators m maxTs,
                          GetHoldingLocalAllocatorLeaders env = (allocators, None)
                          /\ MaxTs request = Some maxTs
                          /\ SyncedDcs resp = dcs_at_check allocators
                          /\ above_leaders (Some m) allocators
                          /\ (exists a, a ∈ allocators /\ leader_at_check a = true
                                        /\ GetCurrentTSO a = (Some m, None))
                          /\ 0 <= CompareTimestamp (Some m) (Some maxTs)
                          /\ ts = if bool_decide (CompareTimestamp (Some m) (Some maxTs) = 0)
                                  then next_logical m else m)
               /\ (written r <> [] \/ write_failed r <> None ->
                     exists allocators,
                       GetHoldingLocalAllocatorLeaders env = (allocators, None)
                       /\ (SkipCheck request = true
                           \/ exists maxTs, MaxTs request = Some maxTs
                              /\ forall a, a ∈ allocators -> leader_at_check a = true ->
                                   (GetCurrentTSO a).2 = None
                                   /\ CompareTimestamp (current_tso a) (Some maxTs) < 0)
                       /\ exists rest, dcs_at_write allocators = written r ++ rest
                          /\ match write_failed r with
                             | None =>
                               rest = [] /\ sync_response_Header resp = wrapHeader s
                               /\ SyncedDcs resp = written r
                             | Some a =>
                               a ∈ allocators /\ leader_at_write a = true
                               /\ WriteTSO a <> None
                               /\ head rest = Some (GetDCLocation a)
                               /\ sync_response_Header resp
                                  = wrapErrorToHeader s ErrorType_UNKNOWN
                             end)).
  { intros r (Herr & resp & Hresp & Hts & Hw). split; [done|]. exists resp.
    split; [done|]. split; [intros ts H; by destruct (Hts ts H)|intros H; by destruct (Hw H)]. }
  destruct (sync_rateLimitDenied env); [by apply Hweak, Hunknown|].
  case_bool_decide as Hnumber; [by apply Hweak, Hunknown|].
  destruct (GetHoldingLocalAllocatorLeaders env) as [allocators [e|]] eqn:Hall;
    [by apply Hweak, Hunknown|].
  assert (Hwrite :
    (SkipCheck request = true
     \/ exists maxTs, MaxTs request = Some maxTs
        /\ forall a, a ∈ allocators -> leader_at_check a = true ->
             (GetCurrentTSO a).2 = None
             /\ CompareTimestamp (current_tso a) (Some maxTs) < 0) ->
    let r := match sync_write allocators [] with
             | (dcs, Some (allocator, _)) =>
               mkSynced (Some (mkSyncMaxTSResponse (wrapErrorToHeader s ErrorType_UNKNOWN)
                                 None []))
                        None dcs (Some allocator)
             | (dcs, None) =>
               mkSynced (Some (mkSyncMaxTSResponse (wrapHeader s) None dcs)) None dcs None
             end in
    sync_err r = None
    /\ exists resp, sync_response r = Some resp
       /\ (forall ts, MaxLocalTs resp = Some ts -> False)
       /\ (written r <> [] \/ write_failed r <> None ->
             exists allocators0,
               (allocators, @None error) = (allocators0, None)
               /\ (SkipCheck request = true
                   \/ exists maxTs, MaxTs request = Some maxTs
                      /\ forall a, a ∈ allocators0 -> leader_at_check a = true ->
                           (GetCurrentTSO a).2 = None
                           /\ CompareTimestamp (current_tso a) (Some maxTs) < 0)
               /\ exists rest, dcs_at_write allocators0 = written r ++ rest
                  /\ match write_failed r with
                     | None =>
                       rest = [] /\ sync_response_Header resp = wrapHeader s
                       /\ SyncedDcs resp = written r
                     | Some a =>
                       a ∈ allocators0 /\ leader_at_write a = true /\ WriteTSO a <> None
                       /\ head rest = Some (GetDCLocation a)
                       /\ sync_response_Header resp = wrapErrorToHeader s ErrorType_UNKNOWN
                     end)).
  { intros Hwhy.
    destruct (sync_write_spec allocators []) as (w & rest & Hw & Hdcs & Hfail).
    destruct (sync_write allocators []) as [dcs [[a e]|]]; cbn [fst snd] in Hw, Hfail;
      cbn [app] in Hw; subst dcs; cbn zeta.
    - split; [done|]. eexists. split; [done|]. split; [done|]. intros _.
      exists allocators. split; [done|]. split; [done|]. exists rest. split; [done|].
      destruct Hfail as (Hin & Hlead & Hwr & Hhead). split_and!; try done. by rewrite Hwr.
    - split; [done|]. eexists. split; [done|]. split; [done|]. intros _.
      exists allocators. split; [done|]. split; [done|]. exists rest. by split. }
  destruct (SkipCheck request) eqn:Hskip; cbn [negb].
  { destruct (Hwrite (or_introl eq_refl)) as (Herr & resp & Hresp & Hts & Hw).
    split; [done|]. exists resp. split; [done|]. split; [|done].
    intros ts H. by destruct (Hts ts H). }
  destruct (sync_check allocators None []) as [e|[[m|] dcs]] eqn:Hcheck;
    [by apply Hweak, Hunknown| |by apply Hweak, Hunknown].
  destruct (MaxTs request) as [maxTs|] eqn:Hmax; [|by apply Hweak, Hunknown].
  apply sync_check_spec in Hcheck as (Hdcs & _ & Habove & Hfrom).
  destruct Hfrom as [?|Hfrom]; [done|].
  case_bool_decide as Hcmp.
  - cbn. split; [done|]. eexists. split; [done|]. split; [|by intros [?|?]].
    intros ts [= <-]. split_and!; try done.
    exists allocators, m, maxTs. split_and!; try done.
  - assert (Hbelow : forall a, a ∈ allocators -> leader_at_check a = true ->
              (GetCurrentTSO a).2 = None
              /\ CompareTimestamp (current_tso a) (Some maxTs) < 0).
    { intros a Hin Hlead. destruct (Habove a Hin Hlead) as [Hok Hge]. split; [done|].
      destruct (Z_lt_le_dec (CompareTimestamp (current_tso a) (Some maxTs)) 0) as [?|Hle];
        [done|].
      exfalso. apply Hcmp. by apply (CompareTimestamp_trans _ (current_tso a)). }
    destruct (Hwrite (or_intror (ex_intro _ maxTs (conj eq_refl Hbelow))))
      as (Herr & resp & Hresp & Hts & Hw).
    split; [done|]. exists resp. split; [done|]. split; [|done].
    intros ts H. by destruct (Hts ts H).
Qed.

(** Two allocators at 10 and at 12: asked to move to 20 the server writes
    both; asked to move to 12 it writes nothing and answers the timestamp
    one logical step after 12. *)
Example sync_max_ts_scenario :
  let s := mkServer false true 7 [] 1 true true true false SchedulingInProcess ∅ in
  let env := mkSyncEnv false 2 ([dc_1; dc_2], None) in
  let header := Some (mkHeader 7 1) in
  written (SyncMaxTSHandler s (mkSyncMaxTSRequest header (Some (mkTimestamp 20 0 0)) false)
                            env) = ["dc-1"; "dc-2"]
  /\ (sync_response
        (SyncMaxTSHandler s (mkSyncMaxTSRequest header (Some (mkTimestamp 12 0 0)) false)
                          env)) ≫= MaxLocalTs
     = Some (mkTimestamp 12 1 0).
Proof. by vm_compute. Qed.
